(** * Fin-AI: the fundamentals extraction pipeline of [backend/src]

    A shallow embedding of the scraping helpers of
    [browser_agent.py], of the keyword sentiment fallback of
    [reddit_analyzer.py] and of the 52-week block of
    [data_processor.py], with the properties the specification states
    about them; and, beside them, of the cleaning of the OCR text, of
    the comparison of stocks, of the portfolio metrics and of the
    monitoring loop of [main_agent.py], with properties read off the
    code.

    Conventions of the embedding:
    - a Python [str] is a [string]; its characters are the code points
      0..255, so [str.strip] and [str.lower] are the Latin-1 fragment of
      the Unicode operations;
    - a Python [float] is the rational number it is read from: [float(s)]
      is the exact value of the decimal [s] and the arithmetic is exact
      (rounding to binary64 is not part of the model). Where the code
      can tell, the statements keep to the numbers on which binary64 is
      exact too or hold of any rounding, and [int] raises on a number so
      large that it reads as [inf];
    - [None] is [None], an exception is [Raise]; a [try]/[except] is
      [try_except];
    - the browser page is a record of the answers it gives to the queries
      the code sends to it; [wait_for_timeout] is a delay and has no
      answer, and the log lines are left out but for the one that can
      raise. *)

From Stdlib Require Import Ascii String QArith Qminmax Qabs Lia Lqa Sorted Permutation.
From stdpp Require Import base option list strings pretty gmap.

#[local] Open Scope string_scope.
#[local] Open Scope Z_scope.
#[local] Open Scope list_scope.

(** ** Python strings *)

Module PyStr.

Definition code (c : ascii) : nat := nat_of_ascii c.

(** The class [0-9] of the patterns. *)
Definition is_digit (c : ascii) : bool :=
  (48 <=? code c)%nat && (code c <=? 57)%nat.

(** [str.isspace] on one character of the Latin-1 range. *)
Definition is_space (c : ascii) : bool :=
  let n := code c in
  ((9 <=? n)%nat && (n <=? 13)%nat) || ((28 <=? n)%nat && (n <=? 32)%nat)
  || (n =? 133)%nat || (n =? 160)%nat.

Fixpoint lstrip (s : string) : string :=
  match s with
  | String c r => if is_space c then lstrip r else s
  | EmptyString => EmptyString
  end.

Fixpoint rstrip (s : string) : string :=
  match s with
  | String c r =>
      match rstrip r with
      | EmptyString => if is_space c then EmptyString else String c EmptyString
      | r' => String c r'
      end
  | EmptyString => EmptyString
  end.

(** [s.strip()] *)
Definition strip (s : string) : string := rstrip (lstrip s).

(** [str.lower] on one character: A-Z and the upper-case letters of
    Latin-1 (0xC0-0xDE but for the multiplication sign 0xD7). *)
Definition lower_char (c : ascii) : ascii :=
  let n := code c in
  if ((65 <=? n)%nat && (n <=? 90)%nat)
     || ((192 <=? n)%nat && (n <=? 222)%nat && negb (n =? 215)%nat)
  then ascii_of_nat (n + 32) else c.

(** [str.upper] on one character, for the letters a-z: the code
    upper-cases the names of the metrics only. *)
Definition upper_char (c : ascii) : ascii :=
  let n := code c in
  if (97 <=? n)%nat && (n <=? 122)%nat then ascii_of_nat (n - 32) else c.

Definition is_cased (c : ascii) : bool :=
  negb (Ascii.eqb (lower_char c) c) || negb (Ascii.eqb (upper_char c) c).

Fixpoint map_chars (f : ascii -> ascii) (s : string) : string :=
  match s with
  | String c r => String (f c) (map_chars f r)
  | EmptyString => EmptyString
  end.

(** [s.lower()] *)
Definition lower (s : string) : string := map_chars lower_char s.

(** [s.upper()] *)
Definition upper (s : string) : string := map_chars upper_char s.

(** [s.title()]: a cased character is upper-cased when it follows an
    uncased one (or starts the string), lower-cased otherwise. Like
    [upper], it is applied to the names of the metrics only. *)
Fixpoint title_from (prev_cased : bool) (s : string) : string :=
  match s with
  | String c r =>
      String (if prev_cased then lower_char c else upper_char c)
             (title_from (is_cased c) r)
  | EmptyString => EmptyString
  end.

Definition title (s : string) : string := title_from false s.

(** [s.replace(a, b)] for one-character [a] and [b]. *)
Definition replace_char (a b : ascii) (s : string) : string :=
  map_chars (fun c => if Ascii.eqb c a then b else c) s.

(** [s.replace(a, b)] for a one-character [a] and the empty [b]. *)
Fixpoint remove_char (a : ascii) (s : string) : string :=
  match s with
  | String c r => if Ascii.eqb c a then remove_char a r
                  else String c (remove_char a r)
  | EmptyString => EmptyString
  end.

(** [s.startswith(p)] *)
Fixpoint startswith (p s : string) : bool :=
  match p, s with
  | EmptyString, _ => true
  | String a p', String b s' => Ascii.eqb a b && startswith p' s'
  | String _ _, EmptyString => false
  end.

(** [sub in s] *)
Fixpoint contains (sub s : string) : bool :=
  startswith sub s ||
  match s with
  | String _ r => contains sub r
  | EmptyString => false
  end.

(** [c in s] for a one-character [c]. *)
Fixpoint has_char (a : ascii) (s : string) : bool :=
  match s with
  | String c r => Ascii.eqb c a || has_char a r
  | EmptyString => false
  end.

(** The last character of [s], for [s.endswith(c)]. *)
Fixpoint last_char (s : string) : option ascii :=
  match s with
  | EmptyString => None
  | String c EmptyString => Some c
  | String _ r => last_char r
  end.

(** [s[:-1]] *)
Fixpoint drop_last (s : string) : string :=
  match s with
  | EmptyString => EmptyString
  | String _ EmptyString => EmptyString
  | String c r => String c (drop_last r)
  end.

(** [s.split(a)] for a one-character separator: the pieces between
    the occurrences of [a], all of them (one piece more than there are
    separators). *)
Fixpoint split (a : ascii) (s : string) : list string :=
  match s with
  | EmptyString => [EmptyString]
  | String c r =>
      if Ascii.eqb c a then EmptyString :: split a r
      else match split a r with
           | piece :: pieces => String c piece :: pieces
           | [] => [String c EmptyString]
           end
  end.

(** [s.count(a)] for a one-character [a]. *)
Fixpoint count_char (a : ascii) (s : string) : nat :=
  match s with
  | String c r => (if Ascii.eqb c a then 1 else 0) + count_char a r
  | EmptyString => 0
  end.

(** [x in [a, b, ...]] on strings. *)
Definition in_list (x : string) (l : list string) : bool :=
  existsb (String.eqb x) l.

End PyStr.

Import PyStr.

(** ** Floats, [None] and exceptions *)

(** The result of a call that may raise. *)
Inductive exc (A : Type) : Type :=
| Ok (a : A)
| Raise.
Arguments Ok {A} a.
Arguments Raise {A}.

#[global] Instance exc_ret : MRet exc := fun A a => Ok a.

#[global] Instance exc_bind : MBind exc := fun A B k m =>
  match m with
  | Ok a => k a
  | Raise => Raise
  end.

(** [try: body except: handler] *)
Definition try_except {A} (body : exc A) (handler : exc A) : exc A :=
  match body with
  | Ok a => Ok a
  | Raise => handler
  end.

(** The value of a run of decimal digits read left to right. *)
Fixpoint digits_value (acc : Z) (s : string) : Z :=
  match s with
  | String c r => digits_value (10 * acc + Z.of_nat (code c - 48)) r
  | EmptyString => acc
  end.

(** The longest prefix of digits of [s], and what follows it. *)
Fixpoint take_digits (s : string) : string * string :=
  match s with
  | String c r =>
      if is_digit c then let (d, rest) := take_digits r in (String c d, rest)
      else (EmptyString, s)
  | EmptyString => (EmptyString, EmptyString)
  end.

(** The number with integer digits [ip] and fraction digits [fp]. *)
Definition decimal (ip fp : string) : Q :=
  let scale := 10 ^ Z.of_nat (String.length fp) in
  Qmake (digits_value 0 ip * scale + digits_value 0 fp) (Z.to_pos scale).

(** [float(s)] for the strings the code passes to it, which are made of
    digits, [.] and [-] only: an optional sign, then digits with at most
    one point and at least one digit. [None] is the [ValueError]. *)
Definition float_of_str (s : string) : option Q :=
  let (neg, body) :=
    match s with
    | String c r => if Ascii.eqb c "-" then (true, r) else (false, s)
    | EmptyString => (false, s)
    end in
  let (ip, r) := take_digits body in
  let sign (q : Q) := if neg then Qopp q else q in
  match r with
  | EmptyString =>
      if String.eqb ip "" then None else Some (sign (decimal ip EmptyString))
  | String c f =>
      if Ascii.eqb c "." then
        let (fp, r') := take_digits f in
        if String.eqb r' "" && negb (String.eqb (ip +:+ fp) "")
        then Some (sign (decimal ip fp)) else None
      else None
  end.

(** ** The patterns of [_parse_financial_value] *)

(** A match of the pattern [0-9]+ \.? [0-9]* at the start of [s]: the
    matched text and the rest. Each quantifier is greedy and none has to give
    characters back, as the pattern ends there. *)
Definition match_number (s : string) : option (string * string) :=
  let (ip, r) := take_digits s in
  if String.eqb ip "" then None
  else
    match r with
    | String c f =>
        if Ascii.eqb c "." then
          let (fp, r') := take_digits f in Some (ip +:+ "." +:+ fp, r')
        else Some (ip, r)
    | EmptyString => Some (ip, r)
    end.

(** [re.search] for the pattern ( [0-9]+ \.? [0-9]* ): group 1 of the
    leftmost match. *)
Fixpoint search_number (s : string) : option string :=
  match match_number s with
  | Some (num, _) => Some num
  | None =>
      match s with
      | String _ r => search_number r
      | EmptyString => None
      end
  end.

(** A match of the pattern \( ( [0-9]+ \.? [0-9]* ) \% \) at the start of
    [s]: group 1.
    After the greedy number, [%)] has to follow; giving digits or the
    point back cannot help, since what then follows is a digit or a
    point (see [match_percent_complete]). *)
Definition match_percent (s : string) : option string :=
  match s with
  | String c r =>
      if Ascii.eqb c "(" then
        match match_number r with
        | Some (num, rest) => if startswith "%)" rest then Some num else None
        | None => None
        end
      else None
  | EmptyString => None
  end.

(** [re.search] for the pattern \( ( [0-9]+ \.? [0-9]* ) \% \): group 1
    of the leftmost match. *)
Fixpoint search_percent (s : string) : option string :=
  match match_percent s with
  | Some num => Some num
  | None =>
      match s with
      | String _ r => search_percent r
      | EmptyString => None
      end
  end.

(** ** [BrowserAgent._parse_financial_value] *)

(** The [B]/[M]/[K]/[T] chain: the multiplier and the text without its
    suffix. *)
Definition endswith_char (c : ascii) (s : string) : bool :=
  match last_char s with
  | Some d => Ascii.eqb d c
  | None => false
  end.

Definition split_suffix (cleaned : string) : Q * string :=
  if endswith_char "B" cleaned then (1000000000 # 1, drop_last cleaned)
  else if endswith_char "M" cleaned then (1000000 # 1, drop_last cleaned)
  else if endswith_char "K" cleaned then (1000 # 1, drop_last cleaned)
  else if endswith_char "T" cleaned then (1000000000000 # 1, drop_last cleaned)
  else (1 # 1, cleaned).

Definition clean_formatting (text : string) : string :=
  strip (remove_char "%" (remove_char "$" (remove_char "," text))).

(** [not text or text.strip() in [...]] *)
Definition is_placeholder_token (text : string) : bool :=
  String.eqb text "" || in_list (strip text) ["--"; "N/A"; ""].

Definition _parse_financial_value (text : string) : option Q :=
  if is_placeholder_token text then None
  else
    let percent :=
      if has_char "(" text && has_char "%" text then search_percent text
      else None in
    match percent with
    | Some num => float_of_str num
    | None =>
        let (multiplier, cleaned) := split_suffix (clean_formatting text) in
        match search_number cleaned with
        | Some num =>
            match float_of_str num with
            | Some v => Some (v * multiplier)%Q
            | None => None
            end
        | None => None
        end
    end.

(** A float result equal to the number [q]. *)
Definition is_float (r : option Q) (q : Q) : Prop :=
  match r with
  | Some v => (v == q)%Q
  | None => False
  end.

(** ** The page

    An element handle and the page are the answers they give: each query
    returns or raises. Within one extraction every selector is sent once,
    so an answer per selector is all the code can observe. *)

#[local] Unset Elimination Schemes.
Inductive element : Type := Element {
  text_content : exc (option string);
  get_attribute : string -> exc (option string);
  query_selector : string -> exc (option element);
  query_selector_all : string -> exc (list element)
}.
#[local] Set Elimination Schemes.

Record page : Type := Page {
  page_query_selector : string -> exc (option element);
  page_query_selector_all : string -> exc (list element);
  page_wait_for_selector : string -> exc (option element);
  page_content : exc string;
  page_evaluate : string -> exc unit;
  page_goto : string -> exc unit
}.

(** The double quote of the selector texts. *)
Definition dq : string := String (ascii_of_nat 34) EmptyString.

(** ** [BrowserAgent._extract_fundamentals] *)

(** A value held by the [fundamentals] dict. *)
Inductive pyval : Type :=
| PyNone
| PyStr (s : string)
| PyFloat (q : Q).

Definition stat_cell (label : string) : string :=
  "div[data-testid=" +:+ dq +:+ "quote-statistics" +:+ dq +:+ "] td:has-text("
  +:+ dq +:+ label +:+ dq +:+ ") + td".

Definition fin_streamer (field : string) : string :=
  "fin-streamer[data-field=" +:+ dq +:+ field +:+ dq +:+ "]".

Definition data_test (name : string) : string :=
  "[data-test=" +:+ dq +:+ name +:+ dq +:+ "]".

Definition metrics_to_extract : list (string * list string) :=
  [ ("previous_close",
     [stat_cell "Previous Close"; fin_streamer "regularMarketPreviousClose";
      data_test "PREV_CLOSE-value"]);
    ("open",
     [stat_cell "Open"; fin_streamer "regularMarketOpen";
      data_test "OPEN-value"]);
    ("days_range",
     [stat_cell "Day's Range"; fin_streamer "regularMarketDayRange";
      data_test "DAYS_RANGE-value"]);
    ("volume",
     [stat_cell "Volume"; fin_streamer "regularMarketVolume";
      data_test "TD_VOLUME-value"]);
    ("avg_volume",
     [stat_cell "Avg. Volume"; fin_streamer "averageVolume";
      data_test "AVERAGE_VOLUME_3MONTH-value"]);
    ("market_cap",
     [stat_cell "Market Cap"; fin_streamer "marketCap";
      data_test "MARKET_CAP-value"]);
    ("beta",
     [stat_cell "Beta"; fin_streamer "beta"; data_test "BETA_5Y-value"]);
    ("pe_ratio",
     [stat_cell "PE Ratio"; fin_streamer "trailingPE";
      data_test "PE_RATIO-value"]);
    ("earnings_date",
     [stat_cell "Earnings Date"; fin_streamer "earningsDate";
      data_test "EARNINGS_DATE-value"]);
    ("target_est",
     [stat_cell "1y Target Est"; fin_streamer "targetMeanPrice";
      data_test "ONE_YEAR_TARGET_PRICE-value"]) ].

Definition placeholders : list string := ["--"; "N/A"; ""; "None"].

(** [metric in ["days_range", "earnings_date"]] *)
Definition keeps_string (metric : string) : bool :=
  in_list metric ["days_range"; "earnings_date"].

(** [if text and text.strip() not in [...]]: the stripped text. *)
Definition valid_text (text : option string) : option string :=
  match text with
  | Some t =>
      if negb (String.eqb t "") && negb (in_list (strip t) placeholders)
      then Some (strip t) else None
  | None => None
  end.

(** What a usable text gives for [metric]: the value stored under it, or
    [None] when a numeric metric does not parse (nothing is stored and the
    loop goes on). *)
Definition metric_value (metric cleaned_text : string) : option pyval :=
  if keeps_string metric then Some (PyStr cleaned_text)
  else PyFloat <$> _parse_financial_value cleaned_text.

(** The answer of the page for one selector: the text of the element it
    finds. A missing element gives [None]. *)
Definition selector_text (pg : page) (selector : string)
  : exc (option string) :=
  element ← page_query_selector pg selector;
  match element with
  | Some e => text_content e
  | None => Ok None
  end.

(** One turn of the loop over the selectors of a metric: [Some v] when
    the turn stores [v] and breaks, [None] when the loop goes on (an
    exception is caught and the loop goes on too). *)
Definition try_selector (pg : page) (metric selector : string)
  : option pyval :=
  match selector_text pg selector with
  | Ok text => cleaned_text ← valid_text text; metric_value metric cleaned_text
  | Raise => None
  end.

(** A [for] loop that breaks at the first turn that stores a value. *)
Fixpoint first_hit {A B} (turn : A -> option B) (l : list A) : option B :=
  match l with
  | [] => None
  | x :: r =>
      match turn x with
      | Some v => Some v
      | None => first_hit turn r
      end
  end.

Definition fallback_selectors (metric : string) : list string :=
  let spaced := PyStr.title (replace_char "_" " " metric) in
  [ "[data-testid*=" +:+ dq +:+ metric +:+ dq +:+ "]";
    "[data-test*=" +:+ dq +:+ upper metric +:+ dq +:+ "]";
    "[data-field*=" +:+ dq +:+ metric +:+ dq +:+ "]";
    "td[title*=" +:+ dq +:+ spaced +:+ dq +:+ "]";
    "span[title*=" +:+ dq +:+ spaced +:+ dq +:+ "]" ].

(** [metric not in fundamentals or fundamentals[metric] is None] *)
Definition is_missing (fundamentals : gmap string pyval) (metric : string)
  : bool :=
  match fundamentals !! metric with
  | None | Some PyNone => true
  | Some _ => false
  end.

Definition store (metric : string) (hit : option pyval)
    (fundamentals : gmap string pyval) : gmap string pyval :=
  match hit with
  | Some v => <[metric := v]> fundamentals
  | None => fundamentals
  end.

(** The body of the loop over [metrics_to_extract.items()]. *)
Definition extract_metric (pg : page) (fundamentals : gmap string pyval)
    (entry : string * list string) : gmap string pyval :=
  let (metric, selectors) := entry in
  let fundamentals :=
    store metric (first_hit (try_selector pg metric) selectors) fundamentals in
  if is_missing fundamentals metric then
    store metric
      (first_hit (try_selector pg metric) (fallback_selectors metric))
      fundamentals
  else fundamentals.

Definition selector_pass (pg : page) : gmap string pyval :=
  foldl (extract_metric pg) ∅ metrics_to_extract.

(** [[k for k, v in fundamentals.items() if v is None]]. The scanner
    treats the metrics of this list one by one and independently, so the
    order of the keys does not matter. *)
Definition is_py_none (v : pyval) : bool :=
  match v with
  | PyNone => true
  | _ => false
  end.

Definition missing_metrics (fundamentals : gmap string pyval) : list string :=
  (List.filter (fun kv => is_py_none kv.2) (map_to_list fundamentals)).*1.

Definition metric_variations (metric : string) : list string :=
  [ replace_char "_" " " metric;
    PyStr.title (replace_char "_" " " metric);
    replace_char "_" "-" metric ]
  ++ (if String.eqb metric "previous_close" then ["previous close"; "prev close"]
      else if String.eqb metric "days_range" then ["day's range"; "days range"]
      else if String.eqb metric "avg_volume" then ["avg. volume"; "average volume"]
      else if String.eqb metric "market_cap" then ["market cap"; "market cap (intraday)"]
      else if String.eqb metric "pe_ratio" then ["pe ratio (ttm)"; "p/e ratio"; "pe ratio"]
      else if String.eqb metric "target_est" then ["1y target est"; "target price"]
      else if String.eqb metric "beta" then ["beta (5y monthly)"; "beta"]
      else if String.eqb metric "open" then ["open"]
      else if String.eqb metric "volume" then ["volume"]
      else if String.eqb metric "earnings_date" then ["earnings date"]
      else []).

(** The loop over the variations of one metric on one row: it breaks at
    the first variation found in the first cell, whether or not the
    second cell gave a value. *)
Definition scan_metric (first_cell_text second_cell_text : string)
    (fundamentals : gmap string pyval) (metric : string)
  : gmap string pyval :=
  if existsb (fun variation => contains (lower variation) first_cell_text)
             (metric_variations metric)
  then
    if in_list second_cell_text placeholders then fundamentals
    else store metric (metric_value metric second_cell_text) fundamentals
  else fundamentals.

(** The texts of the first two cells of a row with two cells or more. *)
Definition row_cells (row : element)
  : exc (option (option string * option string)) :=
  cells ← query_selector_all row "td, th";
  match cells with
  | c0 :: c1 :: _ =>
      first_cell_text ← text_content c0;
      second_cell_text ← text_content c1;
      Ok (Some (first_cell_text, second_cell_text))
  | _ => Ok None
  end.

Definition nonempty (text : option string) : option string :=
  match text with
  | Some t => if String.eqb t "" then None else Some t
  | None => None
  end.

(** The body of the loop over the rows; an exception skips the row. *)
Definition scan_row (missing : list string)
    (fundamentals : gmap string pyval) (row : element) : gmap string pyval :=
  match row_cells row with
  | Ok (Some (first_cell_text, second_cell_text)) =>
      match nonempty first_cell_text, nonempty second_cell_text with
      | Some f, Some s =>
          foldl (scan_metric (lower (strip f)) (strip s)) fundamentals missing
      | _, _ => fundamentals
      end
  | Ok None | Raise => fundamentals
  end.

Definition stats_selector : string :=
  "div[data-testid=" +:+ dq +:+ "quote-statistics" +:+ dq +:+ "]".

(** The rows of the statistics section, or of the whole page. *)
Definition all_rows (pg : page) : exc (list element) :=
  stats_section ← page_query_selector pg stats_selector;
  match stats_section with
  | Some section => query_selector_all section "tr"
  | None => page_query_selector_all pg "table tr, div tr"
  end.

(** The table fallback, with its guard [if missing_metrics:]. *)
Definition table_fallback (pg : page) (fundamentals : gmap string pyval)
  : gmap string pyval :=
  match missing_metrics fundamentals with
  | [] => fundamentals
  | missing =>
      match all_rows pg with
      | Ok rows => foldl (scan_row missing) fundamentals rows
      | Raise => fundamentals
      end
  end.

Record FiftyTwoWeekRange : Type := {
  high : Q;
  low : Q
}.

(** The truth value of an optional float: [None] and zero are false. *)
Definition truthy (v : option Q) : bool :=
  match v with
  | Some q => negb (Qeq_bool q 0)
  | None => false
  end.

(** The range read from the text of one element. *)
Definition parse_range (range_text : option string)
  : option FiftyTwoWeekRange :=
  match nonempty range_text with
  | Some t =>
      if has_char "-" t then
        match split "-" (strip t) with
        | [p0; p1] =>
            let lo := _parse_financial_value (strip p0) in
            let hi := _parse_financial_value (strip p1) in
            match lo, hi with
            | Some l, Some h =>
                if truthy lo && truthy hi
                then Some {| high := h; low := l |} else None
            | _, _ => None
            end
        | _ => None
        end
      else None
  | None => None
  end.

Definition range_selectors : list string :=
  [ stat_cell "52 Week Range"; stat_cell "52-Week Range";
    data_test "FIFTY_TWO_WK_RANGE-value" ].

Definition try_range_selector (pg : page) (selector : string)
  : option FiftyTwoWeekRange :=
  match (range_element ← page_wait_for_selector pg selector;
         match range_element with
         | Some e => text_content e
         | None => Ok None
         end) with
  | Ok range_text => parse_range range_text
  | Raise => None
  end.

Record FundamentalMetrics : Type := {
  previous_close : option Q;
  open : option Q;
  bid : option Q;
  ask : option Q;
  days_range : option string;
  volume : option Z;
  avg_volume : option Z;
  market_cap : option Q;
  beta : option Q;
  pe_ratio : option Q;
  eps : option Q;
  dividend_yield : option Q;
  target_est : option Q;
  earnings_date : option string;
  ex_dividend_date : option string;
  fifty_two_week_range : option FiftyTwoWeekRange;
  roe : option Q
}.

(** [FundamentalMetrics()] *)
Definition no_metrics : FundamentalMetrics :=
  {| previous_close := None; open := None; bid := None; ask := None;
     days_range := None; volume := None; avg_volume := None;
     market_cap := None; beta := None; pe_ratio := None; eps := None;
     dividend_yield := None; target_est := None; earnings_date := None;
     ex_dividend_date := None; fifty_two_week_range := None; roe := None |}.

(** [fundamentals.get(key)] read as a float or as a string field. The
    numeric keys only ever hold floats and the two string keys strings
    (see [selector_pass_typed]). *)
Definition get_float (fundamentals : gmap string pyval) (key : string)
  : option Q :=
  match fundamentals !! key with
  | Some (PyFloat q) => Some q
  | _ => None
  end.

Definition get_str (fundamentals : gmap string pyval) (key : string)
  : option string :=
  match fundamentals !! key with
  | Some (PyStr s) => Some s
  | _ => None
  end.

(** [int(x)] of a finite float: truncation towards zero. *)
Definition py_int (q : Q) : Z := Z.quot (Qnum q) (Zpos (Qden q)).

(** The binary64 numbers end below 2^1024: a number at or above
    2^1024 - 2^970, half-way between the largest of them and 2^1024,
    reads as [inf]. *)
Definition float_overflow : Q := inject_Z (2 ^ 1024 - 2 ^ 970).

Definition is_inf (q : Q) : bool := Qle_bool float_overflow q.

(** [int(fundamentals.get(key)) if fundamentals.get(key) else None]:
    [int] raises [OverflowError] on [inf] (and [TypeError] on [None],
    which the condition keeps away). The integer is the one of the exact
    number: no statement below depends on its last digit. *)
Definition get_int (fundamentals : gmap string pyval) (key : string)
  : exc (option Z) :=
  if truthy (get_float fundamentals key) then
    match get_float fundamentals key with
    | Some q => if is_inf q then Raise else Ok (Some (py_int q))
    | None => Raise
    end
  else Ok None.

Definition scroll_half : string :=
  "window.scrollTo(0, document.body.scrollHeight / 2)".

(** The record at the end of the function, with the two volumes that
    [int] gave. *)
Definition metrics_record (fundamentals : gmap string pyval)
    (fifty_two_week_range : option FiftyTwoWeekRange)
    (volume avg_volume : option Z) : FundamentalMetrics :=
  {| previous_close := get_float fundamentals "previous_close";
     open := get_float fundamentals "open";
     days_range := get_str fundamentals "days_range";
     volume := volume;
     avg_volume := avg_volume;
     market_cap := get_float fundamentals "market_cap";
     beta := get_float fundamentals "beta";
     pe_ratio := get_float fundamentals "pe_ratio";
     target_est := get_float fundamentals "target_est";
     earnings_date := get_str fundamentals "earnings_date";
     fifty_two_week_range := fifty_two_week_range;
     bid := None; ask := None; eps := None; dividend_yield := None;
     ex_dividend_date := None; roe := None |}.

(** The outer [try]: whatever raises, the scroll at its start or an
    [int] at its end, the function returns [FundamentalMetrics()]. *)
Definition _extract_fundamentals (pg : page) : FundamentalMetrics :=
  match page_evaluate pg scroll_half with
  | Raise => no_metrics
  | Ok _ =>
      let fundamentals := table_fallback pg (selector_pass pg) in
      let fifty_two_week_range :=
        first_hit (try_range_selector pg) range_selectors in
      match
        volume ← get_int fundamentals "volume";
        avg_volume ← get_int fundamentals "avg_volume";
        Ok (metrics_record fundamentals fifty_two_week_range
              volume avg_volume)
      with
      | Ok metrics => metrics
      | Raise => no_metrics
      end
  end.

(** ** [BrowserAgent._safe_float] and [BrowserAgent._extract_basic_info] *)

(** [re.sub] of every character outside [0-9.-] by the empty string. *)
Fixpoint keep_numeric (s : string) : string :=
  match s with
  | String c r =>
      if is_digit c || Ascii.eqb c "." || Ascii.eqb c "-"
      then String c (keep_numeric r) else keep_numeric r
  | EmptyString => EmptyString
  end.

(** [_safe_float] on a string or [None]; the [ValueError] of [float] is
    caught and gives [None]. *)
Definition _safe_float (value : option string) : option Q :=
  match value with
  | None => None
  | Some v =>
      let cleaned := keep_numeric (remove_char "," v) in
      if String.eqb cleaned "" || String.eqb cleaned "--" then None
      else float_of_str cleaned
  end.

(** [StockPrice]; [last_updated] is the clock and is left out. *)
Record StockPrice : Type := {
  current_price : Q;
  change : Q;
  change_percent : Q;
  currency : string
}.

(** [x or 0.0] on an optional float. *)
Definition or_zero (v : option Q) : Q :=
  match v with
  | Some q => if Qeq_bool q 0 then 0%Q else q
  | None => 0%Q
  end.

(** A method call on a result that may be [None]: the [AttributeError]. *)
Definition deref {A} (x : option A) : exc A :=
  match x with
  | Some a => Ok a
  | None => Raise
  end.

Definition price_selector (ticker : string) : string :=
  "[data-symbol=" +:+ dq +:+ ticker +:+ dq +:+ "] [data-field=" +:+ dq
  +:+ "regularMarketPrice" +:+ dq +:+ "], [data-testid=" +:+ dq +:+ "qsp-price"
  +:+ dq +:+ "], fin-streamer[data-field=" +:+ dq +:+ "regularMarketPrice"
  +:+ dq +:+ "]".

Definition change_selector : string :=
  "[data-field=" +:+ dq +:+ "regularMarketChange" +:+ dq +:+ "], [data-testid="
  +:+ dq +:+ "qsp-price-change" +:+ dq +:+ "]".

Definition change_percent_selector : string :=
  "[data-field=" +:+ dq +:+ "regularMarketChangePercent" +:+ dq
  +:+ "], [data-testid=" +:+ dq +:+ "qsp-price-change-percent" +:+ dq +:+ "]".

Definition default_info (ticker : string) : string * StockPrice :=
  (ticker, {| current_price := 0; change := 0; change_percent := 0;
              currency := "USD" |}).

Section BasicInfo.

(** [_extract_price_from_html]: a search of the raw HTML for three
    patterns built from the ticker. Whatever the patterns find, the
    function returns a float on each of its paths (the parsed hit, or
    0.0 when nothing is found or anything raises), so it is taken here
    as a function from the HTML and the ticker to a number. *)
Variable _extract_price_from_html : string -> string -> Q.

(** The price from its element. *)
Definition price_from_element (pg : page) (ticker : string)
  : exc (option Q) :=
  price_element ← page_wait_for_selector pg (price_selector ticker);
  element ← deref price_element;
  current_price_text ← text_content element;
  text ← deref current_price_text;
  Ok (_safe_float (Some (remove_char "," text))).

(** The first [try]: the price element, else the raw HTML. *)
Definition price_step (pg : page) (ticker : string) : exc (option Q) :=
  try_except (price_from_element pg ticker)
    (page_content ← page_content pg;
     Ok (Some (_extract_price_from_html page_content ticker))).

Definition change_from_element (element : option element)
    (removed : list ascii) : exc (option Q) :=
  match element with
  | Some e =>
      text ← text_content e;
      t ← deref text;
      Ok (_safe_float (Some (foldl (fun s c => remove_char c s) t removed)))
  | None => Ok (Some 0%Q)
  end.

(** The body of the second [try]. *)
Definition change_body (pg : page) : exc (option Q * option Q) :=
  change_element ← page_query_selector pg change_selector;
  change_percent_element ← page_query_selector pg change_percent_selector;
  change ← change_from_element change_element ["+"; ","]%char;
  change_percent ←
    change_from_element change_percent_element ["+"; "%"; "("; ")"]%char;
  Ok (change, change_percent).

Definition change_step (pg : page) : option Q * option Q :=
  match change_body pg with
  | Ok r => r
  | Raise => (Some 0%Q, Some 0%Q)
  end.

Definition name_body (pg : page) (ticker : string) : exc string :=
  title_element ← page_query_selector pg "h1";
  match title_element with
  | Some e =>
      title_text ← text_content e;
      match nonempty title_text with
      | Some t =>
          if has_char "(" t then Ok (strip (hd "" (split "(" t)))
          else Ok ticker
      | None => Ok ticker
      end
  | None => Ok ticker
  end.

Definition name_step (pg : page) (ticker : string) : string :=
  match name_body pg ticker with
  | Ok name => name
  | Raise => ticker
  end.

(** The log line formats [change_percent] with [+.2f], which raises on
    [None]. *)
Definition log_price (change_percent : option Q) : exc unit :=
  match change_percent with
  | Some _ => Ok tt
  | None => Raise
  end.

Definition _extract_basic_info (pg : page) (ticker : string)
  : exc (string * StockPrice) :=
  try_except
    (current_price ← price_step pg ticker;
     let '(change, change_percent) := change_step pg in
     let company_name := name_step pg ticker in
     let price_info :=
       {| current_price := or_zero current_price;
          change := or_zero change;
          change_percent := or_zero change_percent;
          currency := "USD" |} in
     _ ← log_price change_percent;
     Ok (company_name, price_info))
    (Ok (default_info ticker)).

End BasicInfo.

(** ** [BrowserAgent._extract_news] *)

(** [NewsItem]; [published_date] is the clock and is left out. *)
Record NewsItem : Type := {
  title : string;
  url : string;
  source : string
}.

Definition article_selectors : list string :=
  [ "div[data-testid=" +:+ dq +:+ "news-stream" +:+ dq +:+ "] li.stream-item";
    "li.js-stream-content";
    "li[data-test-locator=" +:+ dq +:+ "StreamItem" +:+ dq +:+ "]";
    "div[data-testid=" +:+ dq +:+ "ContentStream" +:+ dq +:+ "] li";
    "ul[data-testid=" +:+ dq +:+ "news-stream" +:+ dq +:+ "] li";
    "section[data-testid=" +:+ dq +:+ "news" +:+ dq +:+ "] li" ].

Definition link_selectors : list string :=
  [ "a.subtle-link"; "h3 a";
    "a[data-test-locator=" +:+ dq +:+ "StreamItemTitle" +:+ dq +:+ "]";
    "a[href*=" +:+ dq +:+ "/news/" +:+ dq +:+ "]"; "a" ].

Definition target_count : nat := 5.

(** The first selector that finds a non-empty list of articles. *)
Definition find_articles (pg : page) : list element :=
  default []
    (first_hit
       (fun selector =>
          match page_query_selector_all pg selector with
          | Ok (a :: found) => Some (a :: found)
          | Ok [] | Raise => None
          end)
       article_selectors).

(** The loop over [link_selectors]: [link_el] when the loop ends. *)
Fixpoint find_link (article : element) (selectors : list string)
  : exc (option element) :=
  match selectors with
  | [] => Ok None
  | link_selector :: r =>
      link_el ← query_selector article link_selector;
      match link_el with
      | Some e => Ok (Some e)
      | None => find_link article r
      end
  end.

Definition news_url_of (href : string) : string :=
  if startswith "http" href then href
  else "https://finance.yahoo.com" +:+ href.

Definition news_item (link_text href : string) : NewsItem :=
  {| title := strip link_text; url := news_url_of href;
     source := "Yahoo Finance" |}.

(** The title and the link target of an article, when both are there and
    not empty. *)
Definition title_and_href (article : element)
  : exc (option (string * string)) :=
  link_el ← find_link article link_selectors;
  match link_el with
  | Some e =>
      link_text ← text_content e;
      href ← get_attribute e "href";
      match nonempty link_text, nonempty href with
      | Some t, Some h => Ok (Some (t, h))
      | _, _ => Ok None
      end
  | None => Ok None
  end.

(** The body of the first loop: the item it appends, if any. *)
Definition first_pass_item (article : element) : option NewsItem :=
  match title_and_href article with
  | Ok (Some (t, h)) =>
      if String.eqb (strip t) "" then None else Some (news_item t h)
  | Ok None | Raise => None
  end.

Fixpoint first_pass (news_items : list NewsItem) (articles : list element)
  : list NewsItem :=
  match articles with
  | [] => news_items
  | article :: r =>
      if (target_count <=? length news_items)%nat then news_items
      else
        first_pass
          (news_items ++ option_list (first_pass_item article)) r
  end.

(** [any(item.title == title.strip() for item in news_items)] *)
Definition duplicate (news_items : list NewsItem) (link_text : string)
  : bool :=
  existsb (fun item => String.eqb (title item) (strip link_text)) news_items.

(** The body of the loop of the retry pass. *)
Definition retry_item (news_items : list NewsItem) (article : element)
  : option NewsItem :=
  match title_and_href article with
  | Ok (Some (t, h)) =>
      if duplicate news_items t then None else Some (news_item t h)
  | Ok None | Raise => None
  end.

Fixpoint retry_pass (news_items : list NewsItem) (articles : list element)
  : list NewsItem :=
  match articles with
  | [] => news_items
  | article :: r =>
      if (target_count <=? length news_items)%nat then news_items
      else
        retry_pass
          (news_items ++ option_list (retry_item news_items article)) r
  end.

(** The loop over the selectors after the scroll: the first selector that
    finds more articles than the first pass had is processed from the
    first new article on, and the loop breaks. *)
Fixpoint retry_selectors (scrolled : page) (seen : nat)
    (news_items : list NewsItem) (selectors : list string) : list NewsItem :=
  match selectors with
  | [] => news_items
  | selector :: r =>
      match page_query_selector_all scrolled selector with
      | Ok additional_articles =>
          if (seen <? length additional_articles)%nat
          then retry_pass news_items (drop seen additional_articles)
          else retry_selectors scrolled seen news_items r
      | Raise => retry_selectors scrolled seen news_items r
      end
  end.

Definition scroll_down : string :=
  "window.scrollTo(0, document.body.scrollHeight)".

(** [pg] is the news page as [goto] loads it, [scrolled] the page after
    the scroll to the bottom. *)
Definition _extract_news (pg scrolled : page) (ticker : string)
  : list NewsItem :=
  match page_goto pg ("https://finance.yahoo.com/quote/" +:+ ticker +:+ "/news/") with
  | Raise => []
  | Ok _ =>
      match find_articles pg with
      | [] => []
      | articles =>
          let news_items := first_pass [] articles in
          if (length news_items <? target_count)%nat then
            match page_evaluate pg scroll_down with
            | Ok _ =>
                retry_selectors scrolled (length articles) news_items
                  article_selectors
            | Raise => news_items
            end
          else news_items
      end
  end.

(** ** [RedditSentimentAnalyzer._parse_sentiment_fallback] *)

Definition positive_words : list string :=
  ["bullish"; "buy"; "positive"; "good"; "great"; "strong"; "up"; "moon";
   "rocket"].

Definition negative_words : list string :=
  ["bearish"; "sell"; "negative"; "bad"; "weak"; "down"; "crash"; "dump"].

(** [sum(1 for word in words if word in text_lower)] *)
Definition keyword_count (words : list string) (text_lower : string) : Z :=
  Z.of_nat (length (List.filter (fun word => contains word text_lower) words)).

Record SentimentResult : Type := {
  sentiment : string;
  confidence : Q;
  posts_count : Z;
  key_points : list string
}.

Definition newline : ascii := ascii_of_nat 10.

(** The result dict but for its [summary], a sentence that repeats
    [sentiment] and [confidence]. *)
Definition _parse_sentiment_fallback (text : string) : SentimentResult :=
  let text_lower := lower text in
  let positive_count := keyword_count positive_words text_lower in
  let negative_count := keyword_count negative_words text_lower in
  let '(sentiment, confidence) :=
    if positive_count >? negative_count then
      ("positive",
       Qmin (8 # 10) ((5 # 10) + inject_Z (positive_count - negative_count) * (1 # 10)))
    else if negative_count >? positive_count then
      ("negative",
       Qmin (8 # 10) ((5 # 10) + inject_Z (negative_count - positive_count) * (1 # 10)))
    else ("neutral", 5 # 10) in
  {| sentiment := sentiment;
     confidence := confidence;
     posts_count := Z.of_nat (count_char newline text) / 3;
     key_points :=
       [ "Detected " +:+ pretty positive_count +:+ " positive and "
         +:+ pretty negative_count +:+ " negative indicators" ] |}.

(** ** [DataProcessor.calculate_valuation_metrics] *)

(** [a / b] on floats: a zero divisor raises [ZeroDivisionError]. *)
Definition py_div (a b : Q) : exc Q :=
  if Qeq_bool b 0 then Raise else Ok (a / b)%Q.

Definition Qgtb (a b : Q) : bool := negb (Qle_bool a b).

(** The conditional expression bound to [position_in_range]. *)
Definition position_in_range (price : Q) (r : FiftyTwoWeekRange) : exc Q :=
  if Qgtb (high r) (low r)
  then py_div (price - low r) (high r - low r)
  else Ok 0%Q.

Definition market_cap_category (cap : Q) : string :=
  if Qgtb cap 200000000000 then "Large Cap"
  else if Qgtb cap 10000000000 then "Mid Cap"
  else if Qgtb cap 2000000000 then "Small Cap"
  else "Micro Cap".

(** The block under [if fundamentals.fifty_two_week_range:]. *)
Definition range_metrics (price : Q) (r : FiftyTwoWeekRange)
    (metrics : gmap string pyval) : exc (gmap string pyval) :=
  position ← position_in_range price r;
  to_high ← py_div (high r - price) (high r);
  to_low ← py_div (price - low r) (low r);
  Ok (<["distance_from_52w_low" := PyFloat (to_low * 100)]>
      (<["distance_from_52w_high" := PyFloat (to_high * 100)]>
       (<["52w_position_percent" := PyFloat (position * 100)]> metrics))).

Definition valuation_body (f : FundamentalMetrics) (price : Q)
  : exc (gmap string pyval) :=
  metrics ←
    (if truthy (roe f) && truthy (eps f) then
       ratio ← py_div (default 0%Q (eps f)) (default 0%Q (roe f));
       let book_value_per_share := (ratio * 100)%Q in
       if Qgtb book_value_per_share 0 then
         pb ← py_div price book_value_per_share;
         Ok (<["pb_ratio" := PyFloat pb]> (∅ : gmap string pyval))
       else Ok (<["pb_ratio" := PyNone]> (∅ : gmap string pyval))
     else Ok ∅);
  let metrics :=
    if truthy (dividend_yield f)
    then <["annual_dividend" :=
            PyFloat (price * default 0%Q (dividend_yield f) / 100)]> metrics
    else metrics in
  let metrics :=
    if truthy (market_cap f)
    then <["market_cap_category" :=
            PyStr (market_cap_category (default 0%Q (market_cap f)))]> metrics
    else metrics in
  match fifty_two_week_range f with
  | Some r => range_metrics price r metrics
  | None => Ok metrics
  end.

(** [stock_data] enters by its [fundamentals] and its
    [price_info.current_price]. *)
Definition calculate_valuation_metrics (f : FundamentalMetrics) (price : Q)
  : gmap string pyval :=
  match valuation_body f price with
  | Ok metrics => metrics
  | Raise => ∅
  end.

(** ** Vocabulary of the statements *)

Fixpoint forall_chars (p : ascii -> bool) (s : string) : bool :=
  match s with
  | String c r => p c && forall_chars p r
  | EmptyString => true
  end.

Fixpoint exists_chars (p : ascii -> bool) (s : string) : bool :=
  match s with
  | String c r => p c || exists_chars p r
  | EmptyString => false
  end.

(** A non-empty run of digits. *)
Definition digits (s : string) : Prop :=
  forall_chars is_digit s = true /\ s <> "".

(** [s] has a numeric substring, which is to say a digit. *)
Definition has_digit (s : string) : bool := exists_chars is_digit s.

(** [text] holds the parenthesized percentage [num] after [pre]. *)
Definition percent_at (text pre num : string) : Prop :=
  exists post, text = pre +:+ "(" +:+ num +:+ "%)" +:+ post.

(** The numbers the pattern can match: digits, then maybe a point and
    maybe more digits. *)
Inductive number_text : string -> string -> string -> Prop :=
| number_int ip :
    digits ip -> number_text ip ip ""
| number_frac ip fp :
    digits ip -> forall_chars is_digit fp = true ->
    number_text (ip +:+ "." +:+ fp) ip fp.

(** A character that neither the clean-up nor the suffix chain touches. *)
Definition plain (c : ascii) : bool :=
  negb (is_space c)
  && negb (existsb (Ascii.eqb c) [","; "$"; "%"; "("; "B"; "M"; "K"; "T"]%char).

(** [r] does not start with a digit. *)
Definition no_digit_ahead (r : string) : Prop :=
  match r with
  | String c _ => is_digit c = false
  | EmptyString => True
  end.





(** The worth of a magnitude letter. *)
Definition magnitude (c : ascii) : option Q :=
  if Ascii.eqb c "B" then Some (1000000000 # 1)
  else if Ascii.eqb c "M" then Some (1000000 # 1)
  else if Ascii.eqb c "K" then Some (1000 # 1)
  else if Ascii.eqb c "T" then Some (1000000000000 # 1)
  else None.

(** [cleaned] is [body] followed by a magnitude letter worth [m], or has
    no such letter at its end and is its own [body]. *)
Inductive suffix_split : string -> Q -> string -> Prop :=
| with_suffix body c m :
    magnitude c = Some m -> suffix_split (body +:+ String c "") m body
| without_suffix cleaned :
    (forall body c, cleaned = body +:+ String c "" -> magnitude c = None) ->
    suffix_split cleaned (1 # 1) cleaned.

(** The type of the value that [metric] holds: a string for the two
    metrics kept as text, a float for the others. *)
Definition typed (metric : string) (v : pyval) : Prop :=
  if keeps_string metric then exists s, v = PyStr s
  else exists q, v = PyFloat q.

(** What the selector pass maintains: no key holds [None]. *)
Definition no_none (fundamentals : gmap string pyval) : Prop :=
  map_Forall (fun _ v => is_py_none v = false) fundamentals.

(** The items of [added] come after those of [base], and none has the
    title of an item before it. *)
Fixpoint fresh_titles (base added : list NewsItem) : Prop :=
  match added with
  | [] => True
  | item :: r =>
      ~ In (title item) (title <$> base)
      /\ fresh_titles (base ++ [item]) r
  end.

(** The field extractor in the words of the specification: the first
    text content, in the order of the selectors, that is not empty and
    no placeholder. *)
Definition first_valid_text (pg : page) (selectors : list string)
  : option string :=
  first_hit
    (fun selector =>
       match selector_text pg selector with
       | Ok text => valid_text text
       | Raise => None
       end)
    selectors.

(** The range parser in the words of the specification: the text is
    split at its first hyphen, and a range is built when both sides
    normalize to a number. *)
Fixpoint split_first (a : ascii) (s : string) : option (string * string) :=
  match s with
  | String c r =>
      if Ascii.eqb c a then Some (EmptyString, r)
      else
        match split_first a r with
        | Some (before, after) => Some (String c before, after)
        | None => None
        end
  | EmptyString => None
  end.

Definition parse_range_spec (range_text : string) : option FiftyTwoWeekRange :=
  match split_first "-" range_text with
  | Some (x, y) =>
      match _parse_financial_value (strip x), _parse_financial_value (strip y) with
      | Some l, Some h => Some {| high := h; low := l |}
      | _, _ => None
      end
  | None => None
  end.

(** ** Pages for the examples *)

(** An element with a text and nothing inside. *)
Definition text_element (t : string) : element :=
  Element (Ok (Some t)) (fun _ => Ok None) (fun _ => Ok None) (fun _ => Ok []).

(** A table row with the given cell texts. *)
Definition table_row (cells : list string) : element :=
  Element (Ok None) (fun _ => Ok None) (fun _ => Ok None)
    (fun selector =>
       if String.eqb selector "td, th" then Ok (text_element <$> cells)
       else Ok []).

(** A page where the selectors of [answers] find an element with the
    given text, no other selector finds anything, the waits time out, and
    the rows of the page are [rows]. *)
Definition page_with (answers : list (string * string))
    (rows : list element) : page :=
  {| page_query_selector selector :=
       Ok (text_element <$> (list_to_map answers : gmap string string) !! selector);
     page_query_selector_all selector :=
       if String.eqb selector "table tr, div tr" then Ok rows else Ok [];
     page_wait_for_selector _ := Raise;
     page_content := Ok "";
     page_evaluate _ := Ok tt;
     page_goto _ := Ok tt |}.

(** No selector hit, and the row of the specification in a table. *)
Definition pe_row : element := table_row ["P/E Ratio (TTM)"; "18.4"].
Definition pe_row_page : page := page_with [] [pe_row].

(** The first selector of [pe_ratio] gives an empty text, the second
    55.3. *)
Definition empty_then_number_page : page :=
  page_with [(stat_cell "PE Ratio", ""); (fin_streamer "trailingPE", "55.3")] [].

(** The first selector of [pe_ratio] gives a text that is no number, the
    second 55.3. *)
Definition text_then_number_page : page :=
  page_with [(stat_cell "PE Ratio", "TBD"); (fin_streamer "trailingPE", "55.3")] [].

(** ** More pages for the examples *)

(** A quote page for [ticker = "AAPL"]: the price element, the two change
    elements and the heading carry the given texts. *)
Definition quote_page (price change percent heading : string) : page :=
  {| page_query_selector selector :=
       Ok (text_element <$>
             (list_to_map [(change_selector, change);
                           (change_percent_selector, percent);
                           ("h1", heading)] : gmap string string) !! selector);
     page_query_selector_all _ := Ok [];
     page_wait_for_selector selector :=
       if String.eqb selector (price_selector "AAPL")
       then Ok (Some (text_element price)) else Raise;
     page_content := Ok "";
     page_evaluate _ := Ok tt;
     page_goto _ := Ok tt |}.

(** What the page gives for a metric that is read as a number. *)
Definition reading (pg : page) (metric : string) : option Q :=
  get_float (table_fallback pg (selector_pass pg)) metric.

(** An optional float that is absent or below [bound], and one that is
    there and at least [bound]. *)
Definition below (bound : Q) (o : option Q) : Prop :=
  match o with
  | Some v => (v < bound)%Q
  | None => True
  end.

Definition reaches (bound : Q) (o : option Q) : Prop :=
  match o with
  | Some v => (bound <= v)%Q
  | None => False
  end.

(** Two powers of ten around the end of the binary64 numbers: a decimal
    below the first reads as a finite float and a decimal that reaches
    the second as [inf], with or without a magnitude letter and whatever
    the rounding. *)
Definition surely_finite : Q := inject_Z (10 ^ 308).
Definition surely_inf : Q := inject_Z (10 ^ 309).

(** An optional float that is absent or at least 0. *)
Definition at_least_zero (o : option Q) : Prop :=
  match o with
  | Some v => (0 <= v)%Q
  | None => True
  end.

(** A value of the dict that is no float or a float at least 0. *)
Definition at_least_zero_value (v : pyval) : Prop :=
  match v with
  | PyFloat q => (0 <= q)%Q
  | _ => True
  end.

(** An item as the collector builds it. *)
Definition built_item (item : NewsItem) : Prop :=
  source item = "Yahoo Finance" /\ startswith "http" (url item) = true
  /\ strip (title item) = title item.

(** ** [StockData] and the rest of [StockDataProcessor] *)

(** [RedditSentiment]; its [ticker] is [reddit_ticker] here, and
    [screenshot_timestamp] is the clock and is left out. *)
Record RedditSentiment : Type := {
  reddit_ticker : string;
  overall_sentiment : string;
  confidence_score : Q;
  posts_analyzed : Z;
  key_discussions : list string;
  sentiment_summary : string;
  extracted_text : string
}.

(** [StockData], with the fields that the extraction sets; the others
    keep their defaults. *)
Record StockData : Type := {
  ticker : string;
  company_name : string;
  price_info : StockPrice;
  fundamentals : FundamentalMetrics;
  news : list NewsItem;
  reddit_sentiment : option RedditSentiment
}.

(** [list.sort(key=...)] on pairs of a ticker and a number: the sort is
    stable, so the result is that of an insertion sort which puts an
    element before the first one that does not come before it.
    [before x y] tells that the key [x] may stand before the key [y]:
    [x <= y], or [y <= x] with [reverse=True]. *)
Fixpoint insert_by (before : Q -> Q -> bool) (x : string * Q)
    (l : list (string * Q)) : list (string * Q) :=
  match l with
  | [] => [x]
  | y :: r =>
      if before x.2 y.2 then x :: y :: r else y :: insert_by before x r
  end.

Definition sort_by (before : Q -> Q -> bool) (l : list (string * Q))
  : list (string * Q) :=
  foldr (insert_by before) [] l.

Definition ascending (x y : Q) : bool := Qle_bool x y.
Definition descending (x y : Q) : bool := Qle_bool y x.

(** The entries [{"ticker": ..., key: ...}] of the stocks whose field is
    neither [None] nor zero. *)
Definition entries_of (field : FundamentalMetrics -> option Q)
    (stocks_data : list StockData) : list (string * Q) :=
  omap (fun stock =>
          if truthy (field (fundamentals stock))
          then (fun v => (ticker stock, v)) <$> field (fundamentals stock)
          else None)
       stocks_data.

(** [sum(...)] of floats: from 0, adding from the left. *)
Definition Qsum (l : list Q) : Q := foldl Qplus 0%Q l.

(** The dict of [compare_stocks]: an absent key is [None]. The key
    [rankings] is always the empty dict. *)
Record Comparison : Type := {
  ranked_by_pe : option (list (string * Q));
  average_pe : option Q;
  ranked_by_dividend_yield : option (list (string * Q));
  ranked_by_market_cap : option (list (string * Q))
}.

Inductive compare_result : Type :=
| CompareMessage (message : string)
| Compared (comparison : Comparison).

(** [x if l else None] for a list [l]. *)
Definition if_nonempty {A B} (l : list A) (x : B) : option B :=
  match l with
  | [] => None
  | _ => Some x
  end.

(** Nothing raises in the body: the one division is by the length of a
    list that is not empty. *)
Definition compare_stocks (stocks_data : list StockData) : compare_result :=
  if (length stocks_data <? 2)%nat
  then CompareMessage "Need at least 2 stocks for comparison"
  else
    let pe_data := entries_of pe_ratio stocks_data in
    let dividend_stocks := entries_of dividend_yield stocks_data in
    let market_cap_data := entries_of market_cap stocks_data in
    Compared
      {| ranked_by_pe := if_nonempty pe_data (sort_by ascending pe_data);
         average_pe :=
           if_nonempty pe_data
             (Qsum (snd <$> sort_by ascending pe_data)
              / inject_Z (Z.of_nat (length pe_data)))%Q;
         ranked_by_dividend_yield :=
           if_nonempty dividend_stocks (sort_by descending dividend_stocks);
         ranked_by_market_cap :=
           if_nonempty market_cap_data (sort_by descending market_cap_data) |}.

(** [_analyze_sector_diversification]. [upper] is the upper-casing of
    the letters a-z; a ticker with a character beyond ASCII is in none of
    the three lists whichever way it is upper-cased, as no name of the
    lists has two S in a row. *)
Definition sector_of (stock_ticker : string) : string :=
  let t := upper stock_ticker in
  if in_list t ["AAPL"; "MSFT"; "GOOGL"; "AMZN"; "META"; "TSLA"; "NVDA"]
  then "Technology"
  else if in_list t ["JPM"; "BAC"; "WFC"; "GS"; "MS"] then "Financial"
  else if in_list t ["JNJ"; "PFE"; "MRK"; "ABT"; "UNH"] then "Healthcare"
  else "Other".

(** [sectors[sector] = sectors.get(sector, 0) + 1] *)
Definition count_sector (sectors : gmap string Z) (stock : StockData)
  : gmap string Z :=
  let sector := sector_of (ticker stock) in
  <[sector := default 0 (sectors !! sector) + 1]> sectors.

Record SectorDiversification : Type := {
  sectors : gmap string Z;
  diversification_score : Q
}.

Definition _analyze_sector_diversification (stocks_data : list StockData)
  : SectorDiversification :=
  let sectors := foldl count_sector ∅ stocks_data in
  {| sectors := sectors;
     diversification_score :=
       match stocks_data with
       | [] => 0%Q
       | _ => (inject_Z (Z.of_nat (size sectors))
               / inject_Z (Z.of_nat (length stocks_data)))%Q
       end |}.

Record PortfolioMetrics : Type := {
  number_of_stocks : nat;
  weighted_daily_return : Q;
  total_market_cap : Q;
  average_pe_ratio : option Q;
  weighted_dividend_yield : option Q;
  sector_diversification : SectorDiversification;
  high_pe_stocks : nat;
  dividend_paying_stocks : nat;
  negative_performers : nat
}.

(** [[1.0 / len(stocks_data)] * len(stocks_data)] *)
Definition equal_weights (stocks_data : list StockData) : list Q :=
  replicate (length stocks_data)
    (1 / inject_Z (Z.of_nat (length stocks_data)))%Q.

(** The weights in use: the given ones when there are as many as
    stocks, equal weights otherwise. *)
Definition weights_in_use (stocks_data : list StockData)
    (weights : option (list Q)) : list Q :=
  match weights with
  | Some w =>
      if (length w =? length stocks_data)%nat then w
      else equal_weights stocks_data
  | None => equal_weights stocks_data
  end.

Definition Qltb (a b : Q) : bool := Qgtb b a.

(** [None] is the empty dict, returned for no stocks. *)
Definition calculate_portfolio_metrics (stocks_data : list StockData)
    (weights : option (list Q)) : option PortfolioMetrics :=
  match stocks_data with
  | [] => None
  | _ =>
      let weights := weights_in_use stocks_data weights in
      let pe_ratios :=
        omap (fun stock =>
                if truthy (pe_ratio (fundamentals stock))
                then pe_ratio (fundamentals stock) else None) stocks_data in
      let dividend_yields :=
        omap (fun sw : StockData * Q =>
                if truthy (dividend_yield (fundamentals sw.1))
                then (fun d => d * sw.2)%Q <$> dividend_yield (fundamentals sw.1)
                else None) (zip stocks_data weights) in
      Some
        {| number_of_stocks := length stocks_data;
           weighted_daily_return :=
             Qsum ((fun sw : StockData * Q =>
                      change_percent (price_info sw.1) * sw.2)%Q
                   <$> zip stocks_data weights);
           total_market_cap :=
             Qsum ((fun stock => or_zero (market_cap (fundamentals stock)))
                   <$> stocks_data);
           average_pe_ratio :=
             if_nonempty pe_ratios
               (Qsum pe_ratios / inject_Z (Z.of_nat (length pe_ratios)))%Q;
           weighted_dividend_yield :=
             if_nonempty dividend_yields (Qsum dividend_yields);
           sector_diversification :=
             _analyze_sector_diversification stocks_data;
           high_pe_stocks :=
             length (List.filter
                       (fun s => truthy (pe_ratio (fundamentals s))
                                 && Qgtb (default 0%Q (pe_ratio (fundamentals s))) 25)
                       stocks_data);
           dividend_paying_stocks :=
             length (List.filter
                       (fun s => truthy (dividend_yield (fundamentals s))
                                 && Qgtb (default 0%Q (dividend_yield (fundamentals s))) 0)
                       stocks_data);
           negative_performers :=
             length (List.filter
                       (fun s => Qltb (change_percent (price_info s)) 0)
                       stocks_data) |}
  end.

(** A ranking of [entries]: ordered by [before], with the same
    elements, and with the elements of equal key in their first order. *)
Definition ranking_of (before : Q -> Q -> bool)
    (entries ranking : list (string * Q)) : Prop :=
  StronglySorted (fun a b => before a.2 b.2 = true) ranking
  /\ Permutation ranking entries
  /\ forall k, List.filter (fun e => Qeq_bool e.2 k) ranking
               = List.filter (fun e => Qeq_bool e.2 k) entries.

(** What the comparison holds for [entries]: no ranking when there are
    no entries, a ranking of them when there are. *)
Definition ranked (before : Q -> Q -> bool)
    (entries : list (string * Q)) (held : option (list (string * Q)))
  : Prop :=
  match held with
  | Some ranking => entries <> [] /\ ranking_of before entries ranking
  | None => entries = []
  end.

(** A stock for the examples: a ticker, the change in percent, and the
    P/E ratio, the dividend yield and the market cap. *)
Definition sample_stock (t : string) (percent : Q) (pe dy cap : option Q)
  : StockData :=
  {| ticker := t; company_name := t;
     price_info := {| current_price := 0; change := 0;
                      change_percent := percent; currency := "USD" |};
     fundamentals :=
       {| previous_close := None; open := None; bid := None; ask := None;
          days_range := None; volume := None; avg_volume := None;
          market_cap := cap; beta := None; pe_ratio := pe; eps := None;
          dividend_yield := dy; target_est := None; earnings_date := None;
          ex_dividend_date := None; fifty_two_week_range := None;
          roe := None |};
     news := []; reddit_sentiment := None |}.

Definition sample_stocks : list StockData :=
  [ sample_stock "MSFT" (12 # 10) (Some (30 # 1)) (Some (8 # 10)) (Some (3000 # 1));
    sample_stock "jpm" (- (5 # 10)) (Some (10 # 1)) None (Some (500 # 1));
    sample_stock "XYZ" 0 None (Some (45 # 10)) None ].

(** The sum of the counts of a dict of counts. *)
Definition total_count (counts : gmap string Z) : Z :=
  map_fold (fun _ v acc => v + acc) 0 counts.

Definition sector_names : list string :=
  ["Technology"; "Financial"; "Healthcare"; "Other"].

(** ** [RedditAnalyzer._clean_ocr_text] *)

(** The class [\w] on one character of the Latin-1 range: the letters,
    the digits and the other numeric characters, and the underscore. *)
Definition is_word_char (c : ascii) : bool :=
  let n := code c in
  let between (lo hi : nat) := (lo <=? n)%nat && (n <=? hi)%nat in
  (between 48 57 || between 65 90 || (n =? 95) || between 97 122
   || (n =? 170) || between 178 179 || (n =? 181) || between 185 186
   || between 188 190 || between 192 214 || between 216 246
   || between 248 255)%nat.

(** [re.sub(r'\s+', ' ', text)]: every run of whitespace becomes one
    space. [in_run] tells that the character before was whitespace. *)
Fixpoint collapse_whitespace (in_run : bool) (text : string) : string :=
  match text with
  | String c r =>
      if is_space c
      then if in_run then collapse_whitespace true r
           else String " " (collapse_whitespace true r)
      else String c (collapse_whitespace false r)
  | EmptyString => EmptyString
  end.

(** A character of the class of the OCR artifacts: none of [\w], [\s]
    and the nine punctuation marks. *)
Definition is_artifact (c : ascii) : bool :=
  negb (is_word_char c || is_space c || has_char c ".,!?-$%()").

(** [re.sub(r'[^\w\s\.\,\!\?\-\$\%\(\)]', ' ', text)] *)
Definition blank_artifacts (text : string) : string :=
  map_chars (fun c => if is_artifact c then " "%char else c) text.

(** [words] with [word] in front, unless it is empty. *)
Definition push_word (word : string) (words : list string) : list string :=
  match word with
  | EmptyString => words
  | _ => word :: words
  end.

(** The word that [text] starts with (empty when it starts with
    whitespace) and the words after it. *)
Fixpoint leading_word (text : string) : string * list string :=
  match text with
  | String c r =>
      let '(word, words) := leading_word r in
      if is_space c then (EmptyString, push_word word words)
      else (String c word, words)
  | EmptyString => (EmptyString, [])
  end.

(** [text.split()]: the maximal runs of characters that are not
    whitespace. *)
Definition split_whitespace (text : string) : list string :=
  let '(word, words) := leading_word text in push_word word words.

(** [sep.join(words)] *)
Fixpoint join (sep : string) (words : list string) : string :=
  match words with
  | [] => EmptyString
  | [word] => word
  | word :: rest => word +:+ sep +:+ join sep rest
  end.

(** [len(word) > 1 or word.lower() in ['a', 'i']] *)
Definition keep_word (word : string) : bool :=
  (1 <? String.length word)%nat || in_list (lower word) ["a"; "i"].

Definition _clean_ocr_text (text : string) : string :=
  match text with
  | EmptyString => EmptyString
  | _ =>
      let text := collapse_whitespace false text in
      let text := blank_artifacts text in
      let words := split_whitespace text in
      let cleaned_words := List.filter keep_word words in
      strip (join " " cleaned_words)
  end.

(** A word of the cleaned text: not empty, of characters that are
    neither whitespace nor artifacts, and of one character only when it
    is a or i in either case. *)
Definition word_char (c : ascii) : bool :=
  negb (is_space c) && negb (is_artifact c).

Definition clean_word (word : string) : Prop :=
  word <> "" /\ forall_chars word_char word = true
  /\ ((1 < String.length word)%nat \/ In word ["a"; "A"; "i"; "I"]).

(** ** [StockAnalysisAgent.monitor_stocks] *)

(** An alert dict; its [alert_type] is always [significant_move]. *)
Record Alert : Type := {
  alert_ticker : string;
  alert_change_percent : Q;
  alert_current_price : Q
}.

(** [alert_thresholds.get(ticker, 5.0) if alert_thresholds else 5.0] *)
Definition threshold_for (alert_thresholds : option (gmap string Q))
    (ticker : string) : Q :=
  match alert_thresholds with
  | Some thresholds =>
      if decide (thresholds = ∅) then 5%Q
      else default 5%Q (thresholds !! ticker)
  | None => 5%Q
  end.

(** The two variables of the loop: [monitoring_data] maps a ticker to
    its price and change in percent (the timestamp is left out). *)
Record Monitor : Type := {
  monitoring_data : gmap string (Q * Q);
  alerts : list Alert
}.

(** One turn of the loop, for a ticker and the outcome of
    [extract_stock_data] on it. A raise skips the ticker. *)
Definition monitor_ticker (alert_thresholds : option (gmap string Q))
    (state : Monitor) (run : string * exc StockData) : Monitor :=
  match run.2 with
  | Raise => state
  | Ok stock_data =>
      let percent := Qabs (change_percent (price_info stock_data)) in
      let threshold := threshold_for alert_thresholds run.1 in
      {| alerts :=
           if Qgtb percent threshold
           then alerts state
                ++ [ {| alert_ticker := run.1;
                        alert_change_percent :=
                          change_percent (price_info stock_data);
                        alert_current_price :=
                          current_price (price_info stock_data) |} ]
           else alerts state;
         monitoring_data :=
           <[run.1 := (current_price (price_info stock_data),
                       change_percent (price_info stock_data))]>
             (monitoring_data state) |}
  end.

Inductive monitor_result : Type :=
| MonitorError
| Monitored (state : Monitor) (monitored_count alert_count : nat).

(** [initialize] is the outcome of the start of the browser, [runs] the
    tickers with the outcome of the extraction of each. *)
Definition monitor_stocks (initialize : exc unit)
    (runs : list (string * exc StockData))
    (alert_thresholds : option (gmap string Q)) : monitor_result :=
  match initialize with
  | Raise => MonitorError
  | Ok _ =>
      let state :=
        foldl (monitor_ticker alert_thresholds)
          {| monitoring_data := ∅; alerts := [] |} runs in
      Monitored state (size (monitoring_data state)) (length (alerts state))
  end.

Definition extracted (run : string * exc StockData) : bool :=
  match run.2 with
  | Ok _ => true
  | Raise => false
  end.

(** An alert of a monitored ticker, of a move above its threshold. *)
Definition sound_alert (alert_thresholds : option (gmap string Q))
    (state : Monitor) (alert : Alert) : Prop :=
  (exists price,
      monitoring_data state !! alert_ticker alert = Some price)
  /\ (threshold_for alert_thresholds (alert_ticker alert)
      < Qabs (alert_change_percent alert))%Q.

(** Three tickers for the examples: a move of 7.2 percent, a failed
    extraction, and no move. *)
Definition sample_runs : list (string * exc StockData) :=
  [ ("MSFT", Ok (sample_stock "MSFT" (72 # 10) None None None));
    ("JPM", Raise);
    ("XYZ", Ok (sample_stock "XYZ" 0 None None None)) ].

(** An article whose link has the given text and target, and a news
    page where the second selector of the articles finds [articles]. *)
Definition news_article (link_text href : string) : element :=
  Element (Ok None) (fun _ => Ok None)
    (fun _ =>
       Ok (Some (Element (Ok (Some link_text)) (fun _ => Ok (Some href))
                   (fun _ => Ok None) (fun _ => Ok []))))
    (fun _ => Ok []).

Definition news_page (articles : list element) : page :=
  {| page_query_selector _ := Ok None;
     page_query_selector_all selector :=
       if String.eqb selector "li.js-stream-content" then Ok articles
       else Ok [];
     page_wait_for_selector _ := Raise;
     page_content := Ok "";
     page_evaluate _ := Ok tt;
     page_goto _ := Ok tt |}.

(** The part of the function before the 52-week block: it always
    returns. *)
Definition before_range (f : FundamentalMetrics) (price : Q)
  : gmap string pyval :=
  let metrics : gmap string pyval :=
    if truthy (roe f) && truthy (eps f) then
      let book := (default 0%Q (eps f) / default 0%Q (roe f) * 100)%Q in
      if Qgtb book 0 then <["pb_ratio" := PyFloat (price / book)]> ∅
      else <["pb_ratio" := PyNone]> ∅
    else ∅ in
  let metrics :=
    if truthy (dividend_yield f)
    then <["annual_dividend" :=
            PyFloat (price * default 0%Q (dividend_yield f) / 100)]> metrics
    else metrics in
  if truthy (market_cap f)
  then <["market_cap_category" :=
          PyStr (market_cap_category (default 0%Q (market_cap f)))]> metrics
  else metrics.

(** The invariant of the counting loop of the sector analysis. *)
Definition sector_invariant (n : nat) (counts : gmap string Z) : Prop :=
  total_count counts = Z.of_nat n
  /\ (forall k v, counts !! k = Some v -> (1 <= v)%Z /\ k ∈ sector_names)
  /\ (size counts <= n)%nat.

(** * Properties *)

(** ** The string operations on examples *)

Example strip_example : strip (String newline "  52.1 - 60 ") = "52.1 - 60".
Proof. reflexivity. Qed.

Example lower_example : lower "P/E Ratio (TTM)" = "p/e ratio (ttm)".
Proof. reflexivity. Qed.

Example title_example :
  PyStr.title (replace_char "_" " " "pe_ratio") = "Pe Ratio".
Proof. reflexivity. Qed.

Example split_example :
  split "-" "120.00 - 130.00" = ["120.00 "; " 130.00"]
  /\ split "-" "abc" = ["abc"] /\ split "-" "-1-" = [""; "1"; ""].
Proof. repeat split. Qed.

Example contains_example :
  contains "p/e ratio" "p/e ratio (ttm)" = true
  /\ contains "up" "support" = true /\ contains "buy" "bu y" = false.
Proof. repeat split. Qed.

Example float_of_str_example :
  float_of_str <$> ["18.4"; "5."; ".5"; "-.5"; "-"; "1.2.3"; "--5"; ""]
  = [Some (184 # 10); Some (5 # 1); Some (5 # 10); Some (- (5 # 10))%Q;
     None; None; None; None].
Proof. reflexivity. Qed.

Example search_example :
  search_number "abc 12.5.7" = Some "12.5"
  /\ search_percent "1.04 (0.51%) (7%)" = Some "0.51"
  /\ search_percent "1.20 (+0.70%)" = None.
Proof. repeat split. Qed.

Example variations_example :
  metric_variations "pe_ratio"
  = ["pe ratio"; "Pe Ratio"; "pe-ratio"; "pe ratio (ttm)"; "p/e ratio"; "pe ratio"].
Proof. reflexivity. Qed.

(** ** Characters and strings *)

#[local] Arguments String.append !_ _ / : simpl nomatch.

Ltac each_char c :=
  destruct c as [[] [] [] [] [] [] [] []]; vm_compute; try discriminate;
  intuition congruence.

Lemma digit_plain c : is_digit c = true -> plain c = true.
Proof. each_char c. Qed.

Lemma digit_not_sign c :
  is_digit c = true -> Ascii.eqb c "-" = false /\ Ascii.eqb c "." = false.
Proof. each_char c. Qed.

Lemma plain_spec c :
  plain c = true ->
  is_space c = false /\ Ascii.eqb c "," = false /\ Ascii.eqb c "$" = false /\
  Ascii.eqb c "%" = false /\ Ascii.eqb c "(" = false /\
  Ascii.eqb c "B" = false /\ Ascii.eqb c "M" = false /\
  Ascii.eqb c "K" = false /\ Ascii.eqb c "T" = false.
Proof. each_char c. Qed.

Lemma append_empty_r s : s +:+ "" = s.
Proof. induction s as [|c s IH]; simpl; [reflexivity | now rewrite IH]. Qed.

Lemma append_assoc s t u : (s +:+ t) +:+ u = s +:+ t +:+ u.
Proof. induction s as [|c s IH]; simpl; [reflexivity | now rewrite IH]. Qed.

Lemma forall_chars_app p s t :
  forall_chars p (s +:+ t) = forall_chars p s && forall_chars p t.
Proof.
  induction s as [|c s IH]; simpl; [reflexivity |].
  now rewrite IH, andb_assoc.
Qed.

Lemma exists_chars_app p s t :
  exists_chars p (s +:+ t) = exists_chars p s || exists_chars p t.
Proof.
  induction s as [|c s IH]; simpl; [reflexivity |].
  now rewrite IH, orb_assoc.
Qed.

Lemma forall_chars_impl (p q : ascii -> bool) s :
  (forall c, p c = true -> q c = true) ->
  forall_chars p s = true -> forall_chars q s = true.
Proof.
  intros Hpq. induction s as [|c s IH]; simpl; [reflexivity |].
  intros [Hc Hs]%andb_true_iff. now rewrite (Hpq c Hc), IH.
Qed.

Lemma has_char_exists a s : has_char a s = exists_chars (fun c => Ascii.eqb c a) s.
Proof. induction s as [|c s IH]; simpl; [reflexivity | now rewrite IH]. Qed.

Lemma startswith_spec p s :
  startswith p s = true <-> exists r, s = p +:+ r.
Proof.
  revert s. induction p as [|a p IH]; intros s; simpl.
  - split; [now exists s | reflexivity].
  - destruct s as [|b s].
    + split; [discriminate | now intros [r Hr]].
    + rewrite andb_true_iff, IH. split.
      * intros [->%Ascii.eqb_eq [r ->]]. now exists r.
      * intros [r [= -> ->]]. split; [apply Ascii.eqb_refl | now exists r].
Qed.

(** *** [take_digits] *)

Lemma take_digits_spec s :
  forall d r, take_digits s = (d, r) ->
  s = d +:+ r /\ forall_chars is_digit d = true /\ no_digit_ahead r.
Proof.
  induction s as [|c s IH]; simpl; intros d r H.
  - inversion H; subst. now repeat split.
  - destruct (is_digit c) eqn:Hc.
    + destruct (take_digits s) as [d' r'] eqn:Hs. inversion H; subst.
      destruct (IH _ _ eq_refl) as (-> & Hd & Hr).
      simpl. now rewrite Hc, Hd.
    + inversion H; subst. simpl. now repeat split.
Qed.

Lemma take_digits_run d r :
  forall_chars is_digit d = true -> no_digit_ahead r ->
  take_digits (d +:+ r) = (d, r).
Proof.
  intros Hd Hr. induction d as [|c d IH]; simpl in *.
  - destruct r as [|c r]; simpl in *; [reflexivity | now rewrite Hr].
  - apply andb_true_iff in Hd as [Hc Hd]. now rewrite Hc, IH.
Qed.

Lemma take_digits_no_digit s :
  no_digit_ahead s -> take_digits s = ("", s).
Proof. intros H. exact (take_digits_run "" s eq_refl H). Qed.

(** *** The number pattern *)

Lemma digits_head ip :
  digits ip -> exists c r, ip = String c r /\ is_digit c = true.
Proof.
  intros [Hd Hne]. destruct ip as [|c r]; [contradiction |].
  simpl in Hd. apply andb_true_iff in Hd as [Hc _]. eauto.
Qed.

Lemma eqb_empty_digits ip : digits ip -> String.eqb ip "" = false.
Proof. intros [_ Hne]. now apply String.eqb_neq. Qed.

Lemma match_number_None s : no_digit_ahead s -> match_number s = None.
Proof.
  intros H. unfold match_number. now rewrite (take_digits_no_digit s H).
Qed.

Lemma match_number_int ip r :
  digits ip -> no_digit_ahead r ->
  match r with String c _ => Ascii.eqb c "." = false | "" => True end ->
  match_number (ip +:+ r) = Some (ip, r).
Proof.
  intros Hip Hr Hdot. unfold match_number.
  rewrite (take_digits_run ip r (proj1 Hip) Hr), (eqb_empty_digits ip Hip).
  destruct r as [|c r]; [reflexivity | now rewrite Hdot].
Qed.

Lemma match_number_frac ip fp r :
  digits ip -> forall_chars is_digit fp = true -> no_digit_ahead r ->
  match_number (ip +:+ "." +:+ fp +:+ r) = Some (ip +:+ "." +:+ fp, r).
Proof.
  intros Hip Hfp Hr. unfold match_number.
  rewrite (take_digits_run ip ("." +:+ fp +:+ r) (proj1 Hip) eq_refl).
  rewrite (eqb_empty_digits ip Hip). simpl.
  now rewrite (take_digits_run fp r Hfp Hr).
Qed.

Lemma match_number_spec s num rest :
  match_number s = Some (num, rest) ->
  s = num +:+ rest /\ exists ip fp, number_text num ip fp.
Proof.
  unfold match_number. destruct (take_digits s) as [ip r] eqn:Hs.
  destruct (take_digits_spec _ _ _ Hs) as (-> & Hip & Hr).
  destruct (String.eqb ip "") eqn:Hne; [discriminate |].
  apply String.eqb_neq in Hne.
  assert (Hd : digits ip) by now split.
  destruct r as [|c f].
  - intros [= <- <-]. split; [reflexivity |]. exists ip, "". now constructor.
  - destruct (Ascii.eqb_spec c ".") as [-> | Hc].
    + destruct (take_digits f) as [fp r'] eqn:Hf.
      destruct (take_digits_spec _ _ _ Hf) as (-> & Hfp & _).
      intros [= <- <-]. split.
      * now rewrite !append_assoc.
      * exists ip, fp. now constructor.
    + intros [= <- <-]. split; [reflexivity |]. exists ip, "". now constructor.
Qed.

Lemma number_text_digit_head num ip fp :
  number_text num ip fp -> exists c r, num = String c r /\ is_digit c = true.
Proof.
  intros [ip' Hip | ip' fp' Hip Hfp];
    destruct (digits_head _ Hip) as (c & r & -> & Hc); simpl; eauto.
Qed.

(** The pattern matches a number text as a whole, when what follows can
    not extend it. *)
Lemma match_number_text num ip fp r :
  number_text num ip fp -> no_digit_ahead r ->
  match r with String c _ => Ascii.eqb c "." = false | "" => True end ->
  match_number (num +:+ r) = Some (num, r).
Proof.
  intros [ip' Hip | ip' fp' Hip Hfp] Hr Hdot.
  - now apply match_number_int.
  - rewrite !append_assoc. now apply match_number_frac.
Qed.

Lemma search_number_eq s :
  search_number s =
  match match_number s with
  | Some (num, _) => Some num
  | None => match s with String _ r => search_number r | "" => None end
  end.
Proof. now destruct s. Qed.

Lemma search_number_here s num rest :
  match_number s = Some (num, rest) -> search_number s = Some num.
Proof. intros H. now rewrite search_number_eq, H. Qed.

Lemma search_number_skip c s :
  is_digit c = false -> search_number (String c s) = search_number s.
Proof.
  intros Hc. rewrite search_number_eq.
  now rewrite (match_number_None (String c s)) by exact Hc.
Qed.

Lemma search_number_None s : has_digit s = false -> search_number s = None.
Proof.
  unfold has_digit. induction s as [|c s IH]; [reflexivity |].
  intros [Hc Hs]%orb_false_iff. rewrite search_number_skip by exact Hc.
  now apply IH.
Qed.

(** The first numeric substring: what comes before it has no digit. *)
Lemma search_number_spec s num :
  search_number s = Some num ->
  exists pre rest ip fp,
    s = pre +:+ num +:+ rest /\ has_digit pre = false /\ number_text num ip fp.
Proof.
  induction s as [|c s IH].
  - discriminate.
  - rewrite search_number_eq.
    destruct (match_number (String c s)) as [[n rest]|] eqn:Hm.
    + intros [= <-]. destruct (match_number_spec _ _ _ Hm) as (Hs & ip & fp & Hn).
      exists "", rest, ip, fp. now rewrite Hs.
    + intros H. destruct (IH H) as (pre & rest & ip & fp & -> & Hpre & Hn).
      assert (Hc : is_digit c = false).
      { destruct (is_digit c) eqn:Hc; [| reflexivity].
        unfold match_number in Hm. simpl in Hm. rewrite Hc in Hm.
        destruct (take_digits (pre +:+ num +:+ rest)) as [d r].
        simpl in Hm. destruct r as [|c' r]; [discriminate |].
        destruct (Ascii.eqb c' "."); [| discriminate].
        destruct (take_digits r); discriminate. }
      exists (String c pre), rest, ip, fp. unfold has_digit in *. simpl.
      now rewrite Hc, Hpre.
Qed.

(** *** The percentage pattern *)

Lemma match_percent_spec s num :
  match_percent s = Some num ->
  percent_at s "" num /\ exists ip fp, number_text num ip fp.
Proof.
  unfold match_percent, percent_at. destruct s as [|c r]; [discriminate |].
  destruct (Ascii.eqb_spec c "(") as [-> | _]; [| discriminate].
  destruct (match_number r) as [[n rest]|] eqn:Hm; [| discriminate].
  destruct (match_number_spec _ _ _ Hm) as (-> & Hn).
  destruct (startswith "%)" rest) eqn:Hr; [| discriminate].
  apply startswith_spec in Hr as [post ->].
  intros [= <-]. split; [now exists post | exact Hn].
Qed.


Lemma search_percent_eq s :
  search_percent s =
  match match_percent s with
  | Some num => Some num
  | None => match s with String _ r => search_percent r | "" => None end
  end.
Proof. now destruct s. Qed.

Lemma search_percent_None s : has_digit s = false -> search_percent s = None.
Proof.
  induction s as [|c s IH]; [reflexivity |].
  intros H. rewrite search_percent_eq.
  destruct (match_percent (String c s)) as [n|] eqn:Hm.
  - destruct (match_percent_spec _ _ Hm) as ([post E] & ip & fp & Hn).
    destruct (number_text_digit_head _ _ _ Hn) as (d & r & -> & Hd).
    rewrite E in H. unfold has_digit in H. simpl in H.
    rewrite Hd in H. discriminate H.
  - apply IH. unfold has_digit in *. simpl in H.
    now apply orb_false_iff in H as [_ H].
Qed.

Lemma search_percent_sound s num :
  search_percent s = Some num ->
  exists pre ip fp, percent_at s pre num /\ number_text num ip fp.
Proof.
  induction s as [|c s IH].
  - discriminate.
  - rewrite search_percent_eq.
    destruct (match_percent (String c s)) as [n|] eqn:Hm.
    + intros [= <-]. destruct (match_percent_spec _ _ Hm) as (Hat & ip & fp & Hn).
      now exists "", ip, fp.
    + intros H. destruct (IH H) as (pre & ip & fp & [post ->] & Hn).
      exists (String c pre), ip, fp. split; [now exists post | exact Hn].
Qed.


(** *** [float] on number texts *)

Lemma digits_value_nonneg s : forall acc, 0 <= acc -> 0 <= digits_value acc s.
Proof.
  induction s as [|c s IH]; simpl; intros acc Hacc; [exact Hacc |].
  apply IH. lia.
Qed.

Lemma decimal_nonneg ip fp : (0 <= decimal ip fp)%Q.
Proof.
  unfold decimal, Qle. simpl.
  assert (0 <= digits_value 0 ip) by (apply digits_value_nonneg; lia).
  assert (0 <= digits_value 0 fp) by (apply digits_value_nonneg; lia).
  assert (0 <= 10 ^ Z.of_nat (String.length fp)) by (apply Z.pow_nonneg; lia).
  nia.
Qed.

Lemma float_of_str_unsigned s :
  match s with String c _ => Ascii.eqb c "-" = false | "" => True end ->
  float_of_str s =
  let (ip, r) := take_digits s in
  match r with
  | EmptyString =>
      if String.eqb ip "" then None else Some (decimal ip EmptyString)
  | String c f =>
      if Ascii.eqb c "." then
        let (fp, r') := take_digits f in
        if String.eqb r' "" && negb (String.eqb (ip +:+ fp) "")
        then Some (decimal ip fp) else None
      else None
  end.
Proof.
  unfold float_of_str. destruct s as [|c s]; [reflexivity |].
  intros ->. reflexivity.
Qed.

Lemma float_of_number num ip fp :
  number_text num ip fp -> float_of_str num = Some (decimal ip fp).
Proof.
  intros Hn. rewrite float_of_str_unsigned.
  - destruct Hn as [ip' Hip | ip' fp' Hip Hfp].
    + rewrite <- (append_empty_r ip') at 1.
      rewrite (take_digits_run ip' "" (proj1 Hip) I).
      now rewrite (eqb_empty_digits ip' Hip).
    + rewrite (take_digits_run ip' ("." +:+ fp') (proj1 Hip) eq_refl).
      change ("." +:+ fp') with (String "." fp'). cbv iota beta.
      rewrite Ascii.eqb_refl.
      rewrite <- (append_empty_r fp') at 1.
      rewrite (take_digits_run fp' "" Hfp I).
      destruct (digits_head _ Hip) as (c & r & -> & _). reflexivity.
  - destruct (number_text_digit_head _ _ _ Hn) as (c & r & -> & Hc).
    apply (digit_not_sign c Hc).
Qed.

(** *** Stripping and cleaning *)

Lemma in_list_spec x l : in_list x l = true <-> In x l.
Proof.
  unfold in_list. rewrite existsb_exists. split.
  - intros (y & Hy & ->%String.eqb_eq). exact Hy.
  - intros H. exists x. split; [exact H | apply String.eqb_refl].
Qed.

Lemma lstrip_plain p s :
  (forall c, p c = true -> is_space c = false) ->
  forall_chars p s = true -> lstrip s = s.
Proof.
  intros Hp. destruct s as [|c s]; simpl; [reflexivity |].
  intros [Hc _]%andb_true_iff. now rewrite (Hp c Hc).
Qed.

Lemma rstrip_plain p s :
  (forall c, p c = true -> is_space c = false) ->
  forall_chars p s = true -> rstrip s = s.
Proof.
  intros Hp. induction s as [|c s IH]; simpl; [reflexivity |].
  intros [Hc Hs]%andb_true_iff. rewrite (IH Hs), (Hp c Hc).
  now destruct s.
Qed.

Lemma strip_plain p s :
  (forall c, p c = true -> is_space c = false) ->
  forall_chars p s = true -> strip s = s.
Proof.
  intros Hp Hs. unfold strip.
  now rewrite (lstrip_plain p s Hp Hs), (rstrip_plain p s Hp Hs).
Qed.

Lemma remove_char_plain p a s :
  (forall c, p c = true -> Ascii.eqb c a = false) ->
  forall_chars p s = true -> remove_char a s = s.
Proof.
  intros Hp. induction s as [|c s IH]; simpl; [reflexivity |].
  intros [Hc Hs]%andb_true_iff. now rewrite (Hp c Hc), (IH Hs).
Qed.

(** Stripping keeps every character that is no white space. *)
Lemma exists_chars_lstrip p s :
  (forall c, p c = true -> is_space c = false) ->
  exists_chars p (lstrip s) = exists_chars p s.
Proof.
  intros Hp. induction s as [|c s IH]; simpl; [reflexivity |].
  destruct (is_space c) eqn:Hc; [| reflexivity].
  rewrite IH. destruct (p c) eqn:Hpc; [| reflexivity].
  rewrite (Hp c Hpc) in Hc. discriminate.
Qed.

Lemma exists_chars_rstrip p s :
  (forall c, p c = true -> is_space c = false) ->
  exists_chars p (rstrip s) = exists_chars p s.
Proof.
  intros Hp. induction s as [|c s IH]; simpl; [reflexivity |].
  rewrite <- IH. destruct (rstrip s) as [|c' r'] eqn:Hr; [| reflexivity].
  destruct (is_space c) eqn:Hc; [| reflexivity]. simpl.
  destruct (p c) eqn:Hpc; [| reflexivity].
  rewrite (Hp c Hpc) in Hc. discriminate.
Qed.

Lemma exists_chars_strip p s :
  (forall c, p c = true -> is_space c = false) ->
  exists_chars p (strip s) = exists_chars p s.
Proof.
  intros Hp. unfold strip.
  now rewrite (exists_chars_rstrip p _ Hp), (exists_chars_lstrip p _ Hp).
Qed.

(** What the clean-up leaves was there before. *)
Lemma exists_chars_remove p a s :
  exists_chars p (remove_char a s) = true -> exists_chars p s = true.
Proof.
  induction s as [|c s IH]; simpl; [discriminate |].
  destruct (Ascii.eqb c a); simpl.
  - intros H. rewrite (IH H). apply orb_true_r.
  - intros [H | H]%orb_true_iff; [now rewrite H |].
    rewrite (IH H). apply orb_true_r.
Qed.

Lemma exists_chars_drop_last p s :
  exists_chars p (drop_last s) = true -> exists_chars p s = true.
Proof.
  induction s as [|c s IH]; simpl; [discriminate |].
  destruct s as [|c' s]; [discriminate |].
  intros [H | H]%orb_true_iff; [now rewrite H |].
  rewrite (IH H). apply orb_true_r.
Qed.

Lemma digit_not_space c : is_digit c = true -> is_space c = false.
Proof. each_char c. Qed.

Lemma has_digit_clean text :
  has_digit (clean_formatting text) = true -> has_digit text = true.
Proof.
  unfold has_digit, clean_formatting.
  rewrite (exists_chars_strip _ _ digit_not_space).
  intros H. now repeat apply exists_chars_remove in H.
Qed.

Lemma has_digit_split_suffix cleaned :
  has_digit (split_suffix cleaned).2 = true -> has_digit cleaned = true.
Proof.
  unfold split_suffix, has_digit.
  repeat destruct (endswith_char _ cleaned); simpl;
    auto using exists_chars_drop_last.
Qed.

(** *** The guard of the normalizer *)


Lemma parse_eq text :
  _parse_financial_value text =
  if is_placeholder_token text then None
  else
    match (if has_char "(" text && has_char "%" text
           then search_percent text else None) with
    | Some num => float_of_str num
    | None =>
        let (multiplier, cleaned) := split_suffix (clean_formatting text) in
        match search_number cleaned with
        | Some num => (fun v => (v * multiplier)%Q) <$> float_of_str num
        | None => None
        end
    end.
Proof.
  unfold _parse_financial_value.
  destruct (is_placeholder_token text); [reflexivity |].
  destruct (if _ && _ then _ else _); [reflexivity |].
  destruct (split_suffix _) as [m c]. destruct (search_number c); [| reflexivity].
  now destruct (float_of_str _).
Qed.

(** No digit, no number. *)
Lemma parse_no_digit text :
  has_digit text = false -> _parse_financial_value text = None.
Proof.
  intros Hd. rewrite parse_eq.
  destruct (is_placeholder_token text); [reflexivity |].
  rewrite (search_percent_None text Hd).
  destruct (has_char "(" text && has_char "%" text).
  - destruct (split_suffix (clean_formatting text)) as [m c] eqn:Hs.
    rewrite search_number_None; [reflexivity |].
    destruct (has_digit c) eqn:Hc; [| reflexivity].
    change c with (m, c).2 in Hc. rewrite <- Hs in Hc.
    apply has_digit_split_suffix, has_digit_clean in Hc. congruence.
  - destruct (split_suffix (clean_formatting text)) as [m c] eqn:Hs.
    rewrite search_number_None; [reflexivity |].
    destruct (has_digit c) eqn:Hc; [| reflexivity].
    change c with (m, c).2 in Hc. rewrite <- Hs in Hc.
    apply has_digit_split_suffix, has_digit_clean in Hc. congruence.
Qed.

(** *** The first number and the suffix *)

Lemma last_char_snoc body c : last_char (body +:+ String c "") = Some c.
Proof.
  induction body as [|b body IH]; [reflexivity |].
  simpl. rewrite IH. now destruct body.
Qed.

Lemma drop_last_snoc body c : drop_last (body +:+ String c "") = body.
Proof.
  induction body as [|b body IH]; [reflexivity |].
  simpl. rewrite IH. now destruct body.
Qed.

Lemma last_char_split s c :
  last_char s = Some c -> s = drop_last s +:+ String c "".
Proof.
  induction s as [|b s IH]; [discriminate |].
  destruct s as [|b' s].
  - now intros [= ->].
  - intros H. change (String b (String b' s)
                      = String b (drop_last (String b' s) +:+ String c "")).
    f_equal. now apply IH.
Qed.

Lemma split_suffix_spec cleaned m body :
  suffix_split cleaned m body -> split_suffix cleaned = (m, body).
Proof.
  intros [body' c m' Hm | cleaned' Hnone]; unfold split_suffix, endswith_char.
  - rewrite last_char_snoc, drop_last_snoc. unfold magnitude in Hm.
    destruct (Ascii.eqb c "B"); [congruence |].
    destruct (Ascii.eqb c "M"); [congruence |].
    destruct (Ascii.eqb c "K"); [congruence |].
    destruct (Ascii.eqb c "T"); congruence.
  - destruct (last_char cleaned') as [c|] eqn:Hc; [| reflexivity].
    specialize (Hnone _ _ (last_char_split _ _ Hc)). unfold magnitude in Hnone.
    destruct (Ascii.eqb c "B"); [discriminate |].
    destruct (Ascii.eqb c "M"); [discriminate |].
    destruct (Ascii.eqb c "K"); [discriminate |].
    destruct (Ascii.eqb c "T"); [discriminate | reflexivity].
Qed.






Lemma plain_chars_parse text :
  forall_chars plain text = true -> text <> "" ->
  _parse_financial_value text =
  num ← search_number text; (fun v => (v * (1 # 1))%Q) <$> float_of_str num.
Proof.
  intros Hp Hne. rewrite parse_eq.
  assert (Hstrip : strip text = text).
  { apply (strip_plain plain); [| exact Hp]. intros c Hc. apply plain_spec, Hc. }
  destruct (is_placeholder_token text) eqn:Hguard.
  { unfold is_placeholder_token in Hguard. rewrite Hstrip in Hguard.
    apply orb_true_iff in Hguard as [E%String.eqb_eq | Hin]; [contradiction |].
    apply in_list_spec in Hin. simpl in Hin.
    destruct Hin as [E | [E | [E | []]]]; subst text; reflexivity. }
  assert (Hparen : has_char "(" text = false).
  { rewrite has_char_exists. destruct (exists_chars _ text) eqn:E; [| reflexivity].
    exfalso. clear - Hp E. induction text as [|c s IH]; simpl in *; [discriminate |].
    apply andb_true_iff in Hp as [Hc Hs].
    apply orb_true_iff in E as [E | E]; [| now apply IH].
    apply plain_spec in Hc. intuition congruence. }
  rewrite Hparen. simpl.
  assert (Hclean : clean_formatting text = text).
  { unfold clean_formatting.
    rewrite (remove_char_plain plain "," text), (remove_char_plain plain "$" text),
      (remove_char_plain plain "%" text);
      try exact Hp; try exact Hstrip;
      intros c Hc; apply plain_spec in Hc; tauto. }
  rewrite Hclean.
  assert (Hsuffix : split_suffix text = (1 # 1, text)).
  { apply split_suffix_spec. constructor. intros body c ->.
    rewrite forall_chars_app in Hp. apply andb_true_iff in Hp as [_ Hc].
    simpl in Hc. rewrite andb_true_r in Hc. apply plain_spec in Hc.
    unfold magnitude.
    destruct Hc as (_ & _ & _ & _ & _ & -> & -> & -> & ->). reflexivity. }
  rewrite Hsuffix. now destruct (search_number text).
Qed.

(** ** The value normalizer *)

Lemma numeric_plain c :
  is_digit c || Ascii.eqb c "." || Ascii.eqb c "-" = true -> plain c = true.
Proof. each_char c. Qed.

Lemma number_text_plain num ip fp :
  number_text num ip fp -> forall_chars plain num = true.
Proof.
  intros [ip' [Hip _] | ip' fp' [Hip _] Hfp]; rewrite ?forall_chars_app; simpl;
    rewrite ?(forall_chars_impl is_digit plain _ digit_plain) by assumption;
    reflexivity.
Qed.

Lemma parse_minus num ip fp :
  number_text num ip fp ->
  is_float (_parse_financial_value ("-" +:+ num)) (decimal ip fp).
Proof.
  intros Hn. rewrite plain_chars_parse.
  - change ("-" +:+ num) with (String "-" num).
    rewrite search_number_skip by reflexivity.
    rewrite <- (append_empty_r num) at 1.
    rewrite (search_number_here _ _ _ (match_number_text num ip fp "" Hn I I)).
    simpl. rewrite (float_of_number _ _ _ Hn). simpl. apply Qmult_1_r.
  - simpl. apply (number_text_plain _ _ _ Hn).
  - discriminate.
Qed.

(** C6. The number pattern starts at the first digit, so a minus sign in
    front of a number is lost: for every run of digits [ip] and every run
    of fraction digits [fp], empty or not, the normalizer reads the texts
    of [-ip] and of [-ip.fp] as the numbers [ip] and [ip.fp], which are
    not negative. *)
Theorem leading_minus_is_dropped (ip fp : string) :
  forall_chars is_digit ip = true -> ip <> "" ->
  forall_chars is_digit fp = true ->
  is_float (_parse_financial_value ("-" +:+ ip)) (decimal ip "")
  /\ is_float (_parse_financial_value ("-" +:+ ip +:+ "." +:+ fp)) (decimal ip fp)
  /\ (0 <= decimal ip "")%Q /\ (0 <= decimal ip fp)%Q.
Proof.
  intros Hip Hne Hfp. assert (Hd : digits ip) by now split.
  repeat split; try apply decimal_nonneg.
  - apply parse_minus. now constructor.
  - apply (parse_minus (ip +:+ "." +:+ fp)). now constructor.
Qed.

Lemma leading_minus_is_dropped_witness :
  is_float (_parse_financial_value "-3.50") (decimal "3" "50")
  /\ (decimal "3" "50" == 35 # 10)%Q.
Proof.
  split; [| reflexivity].
  exact (proj1 (proj2 (leading_minus_is_dropped "3" "50" eq_refl
                         ltac:(discriminate) eq_refl))).
Defined.

(** C3. The normalizer returns null on each placeholder, and on every
    text without a numeric substring, that is without a digit. *)
Theorem placeholders_and_digitless_are_null :
  (forall token, In token [""; "--"; "N/A"; "None"] ->
                 _parse_financial_value token = None)
  /\ (forall text, has_digit text = false ->
                   _parse_financial_value text = None).
Proof.
  split.
  - intros token Hin. apply parse_no_digit.
    simpl in Hin. destruct Hin as [<- | [<- | [<- | [<- | []]]]]; reflexivity.
  - exact parse_no_digit.
Qed.

Lemma placeholders_and_digitless_are_null_witness :
  _parse_financial_value "None" = None
  /\ _parse_financial_value "n/a (tbd)" = None.
Proof.
  destruct placeholders_and_digitless_are_null as [Htok Htext]. split.
  - apply Htok. simpl. tauto.
  - apply Htext. reflexivity.
Defined.





(** ** The [fundamentals] dict *)

Lemma first_hit_some {A B} (turn : A -> option B) l v :
  first_hit turn l = Some v -> exists x, In x l /\ turn x = Some v.
Proof.
  induction l as [|x l IH]; simpl; [discriminate |].
  destruct (turn x) as [w|] eqn:Hx.
  - intros [= <-]. eauto.
  - intros H. destruct (IH H) as (y & Hy & Hv). eauto.
Qed.

Section SelectorPassInvariant.

(** A property of the values that holds of whatever [metric_value]
    gives holds of every entry of the dict of the selector pass. *)
Variable P : string -> pyval -> Prop.
Hypothesis metric_value_P :
  forall metric cleaned_text v,
    metric_value metric cleaned_text = Some v -> P metric v.

Lemma try_selector_inv pg metric selector v :
  try_selector pg metric selector = Some v -> P metric v.
Proof.
  unfold try_selector.
  destruct (selector_text pg selector) as [text|]; [| discriminate].
  destruct (valid_text text) as [cleaned|]; simpl; [| discriminate].
  apply metric_value_P.
Qed.

Lemma store_inv metric hit fundamentals :
  (forall v, hit = Some v -> P metric v) ->
  map_Forall P fundamentals -> map_Forall P (store metric hit fundamentals).
Proof.
  intros Hhit Hm. destruct hit as [v|]; simpl; [| exact Hm].
  apply map_Forall_insert_2; [now apply Hhit | exact Hm].
Qed.

Lemma extract_metric_inv pg fundamentals entry :
  map_Forall P fundamentals ->
  map_Forall P (extract_metric pg fundamentals entry).
Proof.
  intros Hm. destruct entry as [metric selectors]. unfold extract_metric.
  assert (Hhit : forall l v, first_hit (try_selector pg metric) l = Some v ->
                             P metric v).
  { intros l v H. destruct (first_hit_some _ _ _ H) as (x & _ & Hx).
    now apply try_selector_inv in Hx. }
  destruct (is_missing _ metric); repeat apply store_inv; eauto.
Qed.

Lemma selector_pass_inv pg : map_Forall P (selector_pass pg).
Proof.
  unfold selector_pass.
  assert (H : forall entries m,
             map_Forall P m ->
             map_Forall P (foldl (extract_metric pg) m entries)).
  { induction entries as [|e entries IH]; simpl; intros m Hm; [exact Hm |].
    apply IH, extract_metric_inv, Hm. }
  apply H, map_Forall_empty.
Qed.

End SelectorPassInvariant.

Lemma metric_value_not_none metric cleaned_text v :
  metric_value metric cleaned_text = Some v -> is_py_none v = false.
Proof.
  unfold metric_value. destruct (keeps_string metric).
  - now intros [= <-].
  - destruct (_parse_financial_value cleaned_text); simpl; [| discriminate].
    now intros [= <-].
Qed.

Lemma try_selector_not_none pg metric selector v :
  try_selector pg metric selector = Some v -> is_py_none v = false.
Proof.
  apply (try_selector_inv (fun _ v => is_py_none v = false)).
  exact metric_value_not_none.
Qed.

Lemma selector_pass_no_none pg : no_none (selector_pass pg).
Proof.
  apply (selector_pass_inv (fun _ v => is_py_none v = false)).
  exact metric_value_not_none.
Qed.

(** The numeric metrics hold floats and the two others strings, so the
    typed reads of [_extract_fundamentals] lose nothing. *)
Lemma selector_pass_typed pg : map_Forall typed (selector_pass pg).
Proof.
  apply selector_pass_inv. intros metric cleaned_text v.
  unfold metric_value, typed. destruct (keeps_string metric).
  - intros [= <-]. eauto.
  - destruct (_parse_financial_value cleaned_text); simpl; [| discriminate].
    intros [= <-]. eauto.
Qed.

Lemma filter_none {A} (f : A -> bool) l :
  (forall x, In x l -> f x = false) -> List.filter f l = [].
Proof.
  induction l as [|x l IH]; simpl; intros H; [reflexivity |].
  rewrite (H x) by now left. apply IH. intros y Hy. apply H. now right.
Qed.

Lemma missing_metrics_nil fundamentals :
  no_none fundamentals -> missing_metrics fundamentals = [].
Proof.
  intros Hm. unfold missing_metrics. rewrite filter_none; [reflexivity |].
  intros [k v] Hin%list_elem_of_In%elem_of_map_to_list. exact (Hm k v Hin).
Qed.

(** ** The table fallback *)

(** C1. The scanner is guarded by the list of the keys of [fundamentals]
    that hold [None], and the selector pass stores no [None]: the list is
    empty and the table fallback leaves every dict of the selector pass as
    it is. On the page of the specification, where no selector finds
    [pe_ratio] and a row reads P/E Ratio (TTM), 18.4, the metrics come
    out without [pe_ratio], though the scan of that row for [pe_ratio]
    gives 18.4. *)
Theorem table_fallback_never_runs :
  (forall pg, missing_metrics (selector_pass pg) = []
              /\ table_fallback pg (selector_pass pg) = selector_pass pg)
  /\ is_missing (selector_pass pe_row_page) "pe_ratio" = true
  /\ pe_ratio (_extract_fundamentals pe_row_page) = None
  /\ is_float (get_float (scan_row ["pe_ratio"] ∅ pe_row) "pe_ratio") (184 # 10).
Proof.
  split; [| split; [| split]].
  - intros pg. assert (H := missing_metrics_nil _ (selector_pass_no_none pg)).
    split; [exact H |]. unfold table_fallback. now rewrite H.
  - vm_compute. reflexivity.
  - vm_compute. reflexivity.
  - vm_compute. reflexivity.
Qed.

(** ** The field extractor *)

(** A loop that breaks at its first hit returns the hit of the first
    element that has one. *)
Lemma first_hit_spec {A B} (turn : A -> option B) (l : list A) v :
  first_hit turn l = Some v <->
  exists i x, l !! i = Some x /\ turn x = Some v
              /\ forall j y, (j < i)%nat -> l !! j = Some y -> turn y = None.
Proof.
  induction l as [|a l IH]; simpl.
  - split; [discriminate | now intros (i & x & H & _)].
  - destruct (turn a) as [w|] eqn:Ha.
    + split.
      * intros [= <-]. exists 0%nat, a. repeat split; [exact Ha | lia].
      * intros ([|i] & x & Hx & Hv & Hmin).
        -- cbn in Hx. congruence.
        -- specialize (Hmin 0%nat a ltac:(lia) eq_refl). congruence.
    + rewrite IH. split.
      * intros (i & x & Hx & Hv & Hmin). exists (S i), x.
        repeat split; try assumption.
        intros [|j] y Hj Hy; [cbn in Hy; congruence |].
        apply (Hmin j y); [lia | exact Hy].
      * intros ([|i] & x & Hx & Hv & Hmin).
        -- cbn in Hx. congruence.
        -- exists i, x. repeat split; try assumption.
           intros j y Hj Hy. apply (Hmin (S j) y); [lia | exact Hy].
Qed.

Lemma valid_text_spec text cleaned :
  valid_text text = Some cleaned <->
  exists t, text = Some t /\ t <> "" /\ in_list (strip t) placeholders = false
            /\ cleaned = strip t.
Proof.
  unfold valid_text. destruct text as [t|].
  - destruct (String.eqb_spec t "") as [-> | Hne]; cbn [negb andb].
    + split; [discriminate | intros (t & [= <-] & H & _); contradiction].
    + destruct (in_list (strip t) placeholders) eqn:Hin; cbn [negb andb].
      * split; [discriminate | intros (t' & [= <-] & _ & H & _); congruence].
      * split.
        -- intros [= <-]. now exists t.
        -- intros (t' & [= <-] & _ & _ & ->). reflexivity.
  - split; [discriminate | now intros (t & H & _)].
Qed.

Lemma try_selector_spec pg metric selector v :
  try_selector pg metric selector = Some v <->
  exists text, selector_text pg selector = Ok (Some text) /\ text <> ""
               /\ in_list (strip text) placeholders = false
               /\ metric_value metric (strip text) = Some v.
Proof.
  unfold try_selector. destruct (selector_text pg selector) as [text|].
  - destruct (valid_text text) as [cleaned|] eqn:Hv; simpl.
    + apply valid_text_spec in Hv as (t & -> & Hne & Hin & ->). split.
      * intros H. now exists t.
      * now intros (t' & [= <-] & _ & _ & H).
    + split; [discriminate |].
      intros (t & [= ->] & Hne & Hin & _).
      assert (H : valid_text (Some t) = Some (strip t))
        by (apply valid_text_spec; now exists t).
      congruence.
  - split; [discriminate | now intros (t & H & _)].
Qed.

Lemma extract_metric_other pg fundamentals metric selectors key :
  metric <> key ->
  extract_metric pg fundamentals (metric, selectors) !! key = fundamentals !! key.
Proof.
  intros Hne. unfold extract_metric, store.
  repeat match goal with
         | |- context [match ?x with _ => _ end] => destruct x
         end; now rewrite ?lookup_insert_ne by exact Hne.
Qed.

Lemma extract_metric_hit pg fundamentals metric selectors v :
  first_hit (try_selector pg metric) selectors = Some v ->
  extract_metric pg fundamentals (metric, selectors) !! metric = Some v.
Proof.
  intros Hhit. unfold extract_metric. rewrite Hhit. simpl.
  assert (Hv : is_py_none v = false).
  { destruct (first_hit_some _ _ _ Hhit) as (x & _ & Hx).
    now apply try_selector_not_none in Hx. }
  unfold is_missing. rewrite lookup_insert_eq.
  destruct v; [discriminate | |]; apply lookup_insert_eq.
Qed.

Lemma foldl_extract_other pg entries :
  forall fundamentals key,
    ~ In key entries.*1 ->
    foldl (extract_metric pg) fundamentals entries !! key = fundamentals !! key.
Proof.
  induction entries as [|[metric selectors] entries IH]; simpl;
    intros m key Hkey; [reflexivity |].
  rewrite IH by tauto. apply extract_metric_other. tauto.
Qed.

Lemma metric_keys_distinct : List.NoDup metrics_to_extract.*1.
Proof. apply NoDup_ListNoDup, (bool_decide_unpack _). vm_compute. exact I. Qed.

Lemma selector_pass_hit pg metric selectors v :
  In (metric, selectors) metrics_to_extract ->
  first_hit (try_selector pg metric) selectors = Some v ->
  selector_pass pg !! metric = Some v.
Proof.
  unfold selector_pass. generalize (∅ : gmap string pyval).
  assert (Hnd := metric_keys_distinct).
  induction metrics_to_extract as [|[k sels] entries IH]; simpl;
    intros m Hin Hhit; [contradiction |].
  inversion Hnd as [|? ? Hk Hnd']; subst.
  destruct Hin as [[= -> ->] | Hin].
  - rewrite foldl_extract_other by exact Hk.
    now apply extract_metric_hit.
  - now apply IH.
Qed.

(** C5, as the code has it. For each metric the selectors are tried in
    their declared order, and the loop stops at the first one whose
    element has a text that is not empty, that is no placeholder and, for
    a numeric metric, that the normalizer reads as a number; that value
    is what the selector pass stores for the metric. When the first
    selector gives an empty text and the second 55.3, the value stored
    for a numeric metric is 55.3. *)
Theorem field_extractor_first_usable
    (pg : page) (metric : string) (selectors : list string) :
  In (metric, selectors) metrics_to_extract ->
  (forall v,
      first_hit (try_selector pg metric) selectors = Some v <->
      exists i selector text,
        selectors !! i = Some selector
        /\ selector_text pg selector = Ok (Some text) /\ text <> ""
        /\ in_list (strip text) placeholders = false
        /\ metric_value metric (strip text) = Some v
        /\ forall j earlier, (j < i)%nat -> selectors !! j = Some earlier ->
                             try_selector pg metric earlier = None)
  /\ (forall v, first_hit (try_selector pg metric) selectors = Some v ->
                selector_pass pg !! metric = Some v)
  /\ (forall first second others,
         selectors = first :: second :: others ->
         keeps_string metric = false ->
         selector_text pg first = Ok (Some "") ->
         selector_text pg second = Ok (Some "55.3") ->
         is_float (get_float (selector_pass pg) metric) (553 # 10)).
Proof.
  intros Hin. split; [| split].
  - intros v. rewrite first_hit_spec. split.
    + intros (i & selector & Hi & Hv & Hmin).
      apply try_selector_spec in Hv as (text & Ht & Hne & Hp & Hv).
      exists i, selector, text. now repeat split.
    + intros (i & selector & text & Hi & Ht & Hne & Hp & Hv & Hmin).
      exists i, selector. repeat split; try assumption.
      apply try_selector_spec. now exists text.
  - intros v. now apply selector_pass_hit.
  - intros first second others -> Hnum Hfirst Hsecond.
    assert (Hhit : first_hit (try_selector pg metric) (first :: second :: others)
                   = Some (PyFloat (decimal "55" "3"))).
    { simpl. unfold try_selector. rewrite Hfirst, Hsecond. simpl.
      unfold metric_value. rewrite Hnum. reflexivity. }
    unfold get_float. rewrite (selector_pass_hit _ _ _ _ Hin Hhit).
    reflexivity.
Qed.

Lemma field_extractor_first_usable_witness :
  is_float (get_float (selector_pass empty_then_number_page) "pe_ratio") (553 # 10).
Proof.
  assert (Hin : In ("pe_ratio",
                    [stat_cell "PE Ratio"; fin_streamer "trailingPE";
                     data_test "PE_RATIO-value"]) metrics_to_extract)
    by (simpl; do 7 right; left; reflexivity).
  apply (proj2 (proj2 (field_extractor_first_usable _ _ _ Hin))
           (stat_cell "PE Ratio") (fin_streamer "trailingPE")
           [data_test "PE_RATIO-value"]);
    vm_compute; reflexivity.
Defined.

(** C5, as the specification has it, fails: on a page whose first
    selector for [pe_ratio] gives the text TBD and whose second gives
    55.3, the first text that is not empty and no placeholder is TBD, and
    yet the extracted value is the 55.3 of the second selector. *)
Lemma field_extractor_skips_unparsed_text :
  first_valid_text text_then_number_page
    [stat_cell "PE Ratio"; fin_streamer "trailingPE"; data_test "PE_RATIO-value"]
  = Some "TBD"
  /\ _parse_financial_value "TBD" = None
  /\ is_float (pe_ratio (_extract_fundamentals text_then_number_page)) (553 # 10).
Proof. vm_compute. repeat split; reflexivity. Qed.

(** ** The range parser *)

Lemma split_length a s : length (split a s) = S (count_char a s).
Proof.
  induction s as [|c s IH]; simpl; [reflexivity |].
  destruct (Ascii.eqb c a); simpl; [now rewrite IH |].
  destruct (split a s) as [|piece pieces]; simpl in *; [discriminate | exact IH].
Qed.

Lemma split_no_separator a s : has_char a s = false -> split a s = [s].
Proof.
  induction s as [|c s IH]; simpl; [reflexivity |].
  intros [Hc Hs]%orb_false_iff. now rewrite Hc, (IH Hs).
Qed.

(** One separator: the two pieces are what stands before it and after
    it. *)
Lemma split_two a p0 p1 :
  has_char a p0 = false -> has_char a p1 = false ->
  split a (p0 +:+ String a p1) = [p0; p1].
Proof.
  intros H0 H1. induction p0 as [|c p0 IH]; simpl.
  - now rewrite Ascii.eqb_refl, (split_no_separator a p1 H1).
  - simpl in H0. apply orb_false_iff in H0 as [Hc H0].
    now rewrite Hc, (IH H0).
Qed.

Lemma count_char_has a s : has_char a s = negb (count_char a s =? 0)%nat.
Proof.
  induction s as [|c s IH]; simpl; [reflexivity |].
  destruct (Ascii.eqb c a); simpl; [reflexivity | exact IH].
Qed.

Lemma truthy_nonzero q : ~ (q == 0)%Q -> truthy (Some q) = true.
Proof.
  intros H. unfold truthy. destruct (Qeq_bool q 0) eqn:E; [| reflexivity].
  now apply Qeq_bool_eq in E.
Qed.

Lemma parse_range_eq t :
  parse_range (Some t) =
  if negb (String.eqb t "") && has_char "-" t then
    match split "-" (strip t) with
    | [p0; p1] =>
        let lo := _parse_financial_value (strip p0) in
        let hi := _parse_financial_value (strip p1) in
        match lo, hi with
        | Some l, Some h =>
            if truthy lo && truthy hi
            then Some {| high := h; low := l |} else None
        | _, _ => None
        end
    | _ => None
    end
  else None.
Proof. unfold parse_range, nonempty. now destruct (String.eqb t ""). Qed.

Lemma hyphen_not_space c : Ascii.eqb c "-" = true -> is_space c = false.
Proof. each_char c. Qed.

Lemma has_hyphen_strip t : has_char "-" (strip t) = has_char "-" t.
Proof.
  rewrite !has_char_exists. apply exists_chars_strip, hyphen_not_space.
Qed.

(** C4, as the code has it. The stripped text is split at every hyphen
    and has to give exactly two pieces. With one hyphen and both sides
    normalized to numbers other than zero, the range is the two numbers,
    low then high; with no hyphen, with more than one, or with a side
    that does not normalize, there is no range. The text
    120.00 - 130.00 gives the range from 120 to 130. *)
Theorem range_parser_one_hyphen :
  (forall t p0 p1 l h,
      strip t = p0 +:+ "-" +:+ p1 ->
      has_char "-" p0 = false -> has_char "-" p1 = false ->
      _parse_financial_value (strip p0) = Some l ->
      _parse_financial_value (strip p1) = Some h ->
      ~ (l == 0)%Q -> ~ (h == 0)%Q ->
      parse_range (Some t) = Some {| high := h; low := l |})
  /\ (forall t, count_char "-" (strip t) <> 1%nat -> parse_range (Some t) = None)
  /\ (forall t p0 p1,
         strip t = p0 +:+ "-" +:+ p1 ->
         has_char "-" p0 = false -> has_char "-" p1 = false ->
         _parse_financial_value (strip p0) = None
         \/ _parse_financial_value (strip p1) = None ->
         parse_range (Some t) = None)
  /\ parse_range None = None
  /\ (exists r, parse_range (Some "120.00 - 130.00") = Some r
                /\ (low r == 120 # 1)%Q /\ (high r == 130 # 1)%Q).
Proof.
  split; [| split; [| split; [| split]]].
  - intros t p0 p1 l h Ht H0 H1 Hl Hh Hl0 Hh0.
    rewrite parse_range_eq, Ht.
    change (p0 +:+ "-" +:+ p1) with (p0 +:+ String "-" p1).
    rewrite (split_two _ _ _ H0 H1). cbv zeta. rewrite Hl, Hh.
    rewrite (truthy_nonzero l Hl0), (truthy_nonzero h Hh0).
    destruct (negb (String.eqb t "") && has_char "-" t) eqn:E; [reflexivity |].
    exfalso. apply andb_false_iff in E as [E | E].
    + apply negb_false_iff, String.eqb_eq in E. subst t.
      destruct p0; discriminate Ht.
    + rewrite <- has_hyphen_strip, Ht, has_char_exists, exists_chars_app in E.
      simpl in E. now rewrite orb_true_r in E.
  - intros t Hcount. rewrite parse_range_eq.
    destruct (negb (String.eqb t "") && has_char "-" t); [| reflexivity].
    assert (Hlen := split_length "-" (strip t)).
    destruct (split "-" (strip t)) as [|p0 [|p1 [|p2 pieces]]]; try reflexivity.
    simpl in Hlen. congruence.
  - intros t p0 p1 Ht H0 H1 Hnone. rewrite parse_range_eq, Ht.
    change (p0 +:+ "-" +:+ p1) with (p0 +:+ String "-" p1).
    rewrite (split_two _ _ _ H0 H1). cbv zeta.
    destruct (negb (String.eqb t "") && has_char "-" t); [| reflexivity].
    destruct Hnone as [-> | ->]; [reflexivity |].
    now destruct (_parse_financial_value (strip p0)).
  - reflexivity.
  - eexists. split; [vm_compute; reflexivity |]. split; reflexivity.
Qed.

Lemma range_parser_one_hyphen_witness :
  parse_range (Some "120.00 - 130.00")
  = Some {| high := decimal "130" "00"; low := decimal "120" "00" |}
  /\ parse_range (Some "1 - 2 - 3") = None
  /\ parse_range (Some "n/a - 130.00") = None.
Proof.
  destruct range_parser_one_hyphen as (Hrange & Hcount & Hside & _).
  split; [| split].
  - apply (Hrange "120.00 - 130.00" "120.00 " " 130.00"); try reflexivity;
      vm_compute; discriminate.
  - apply Hcount. vm_compute. discriminate.
  - apply (Hside "n/a - 130.00" "n/a " " 130.00"); try reflexivity.
    left. reflexivity.
Defined.

(** C4, as the specification has it, fails. Split at the first hyphen,
    both sides of 1 - 2 - 3 normalize, to 1 and to 2, and yet the code
    builds no range; so it is with 0 - 5, whose sides normalize to 0 and
    to 5. *)
Lemma range_parser_rejects_parsed_sides :
  (is_Some (parse_range_spec "1 - 2 - 3") /\ parse_range (Some "1 - 2 - 3") = None)
  /\ (is_Some (parse_range_spec "0 - 5") /\ parse_range (Some "0 - 5") = None).
Proof. vm_compute. repeat split; eexists; reflexivity. Qed.

(** ** The keyword sentiment fallback *)

Lemma fallback_eq text :
  let positive_count := keyword_count positive_words (lower text) in
  let negative_count := keyword_count negative_words (lower text) in
  (sentiment (_parse_sentiment_fallback text),
   confidence (_parse_sentiment_fallback text)) =
  if positive_count >? negative_count then
    ("positive",
     Qmin (8 # 10) ((5 # 10) + inject_Z (positive_count - negative_count) * (1 # 10)))
  else if negative_count >? positive_count then
    ("negative",
     Qmin (8 # 10) ((5 # 10) + inject_Z (negative_count - positive_count) * (1 # 10)))
  else ("neutral", 5 # 10).
Proof.
  cbv zeta. unfold _parse_sentiment_fallback.
  destruct (_ >? _); [reflexivity |]. now destruct (_ >? _).
Qed.

(** C7. The fallback is a function of the text. With [p] positive and
    [n] negative keywords found in it, the label is the majority and the
    confidence is the smaller of 0.8 and 0.5 + 0.1 * |p - n|; on a tie the
    label is neutral and the confidence 0.5. Three positive keywords and
    one negative one give positive with confidence 0.7. *)
Theorem keyword_fallback_majority (text : string) :
  let p := keyword_count positive_words (lower text) in
  let n := keyword_count negative_words (lower text) in
  let result := _parse_sentiment_fallback text in
  (p > n -> sentiment result = "positive")
  /\ (n > p -> sentiment result = "negative")
  /\ (p = n -> sentiment result = "neutral" /\ confidence result = 5 # 10)
  /\ (p <> n ->
      confidence result
      = Qmin (8 # 10) ((5 # 10) + inject_Z (Z.abs (p - n)) * (1 # 10)))
  /\ (p = 3 -> n = 1 ->
      sentiment result = "positive" /\ (confidence result == 7 # 10)%Q).
Proof.
  intros p n result. assert (H := fallback_eq text). cbv zeta in H.
  fold p n result in H.
  assert (Hs : sentiment result = fst (sentiment result, confidence result))
    by reflexivity.
  assert (Hc : confidence result = snd (sentiment result, confidence result))
    by reflexivity.
  rewrite H in Hs, Hc. clear H. clearbody p n result.
  destruct (Z.gtb_spec p n) as [Hpn | Hpn];
    [| destruct (Z.gtb_spec n p) as [Hnp | Hnp]]; simpl in Hs, Hc;
    rewrite Hs, Hc; repeat split; intros; try lia; try reflexivity.
  - now rewrite Z.abs_eq by lia.
  - subst. reflexivity.
  - now replace (Z.abs (p - n)) with (n - p) by lia.
Qed.

Lemma keyword_fallback_majority_witness :
  sentiment (_parse_sentiment_fallback "Bullish: buy, strong; but weak") = "positive"
  /\ (confidence (_parse_sentiment_fallback "Bullish: buy, strong; but weak")
      == 7 # 10)%Q.
Proof.
  apply (proj2 (proj2 (proj2 (proj2
    (keyword_fallback_majority "Bullish: buy, strong; but weak")))));
    reflexivity.
Defined.

(** ** The news collector *)

Lemma option_list_length {A} (o : option A) : (length (option_list o) <= 1)%nat.
Proof. destruct o; simpl; lia. Qed.

Lemma first_pass_cons news_items article r :
  first_pass news_items (article :: r) =
  if (target_count <=? length news_items)%nat then news_items
  else first_pass (news_items ++ option_list (first_pass_item article)) r.
Proof. reflexivity. Qed.

Lemma retry_pass_cons news_items article r :
  retry_pass news_items (article :: r) =
  if (target_count <=? length news_items)%nat then news_items
  else retry_pass (news_items ++ option_list (retry_item news_items article)) r.
Proof. reflexivity. Qed.

Lemma first_pass_bound articles :
  forall news_items,
    (length news_items <= target_count)%nat ->
    (length (first_pass news_items articles) <= target_count)%nat.
Proof.
  induction articles as [|article articles IH]; intros news Hlen;
    [exact Hlen |].
  rewrite first_pass_cons.
  destruct (Nat.leb_spec target_count (length news)) as [Hfull | Hroom];
    [exact Hlen |].
  apply IH. rewrite length_app.
  pose proof (option_list_length (first_pass_item article)). lia.
Qed.

Lemma duplicate_false news_items link_text :
  duplicate news_items link_text = false ->
  ~ In (strip link_text) (title <$> news_items).
Proof.
  unfold duplicate. intros Hdup Hin.
  apply in_map_iff in Hin as (item & Htitle & Hitem).
  assert (H : existsb (fun item => String.eqb (title item) (strip link_text))
                news_items = true).
  { apply existsb_exists. exists item. split; [exact Hitem |].
    now apply String.eqb_eq. }
  congruence.
Qed.

Lemma retry_item_fresh news_items article item :
  retry_item news_items article = Some item ->
  ~ In (title item) (title <$> news_items).
Proof.
  unfold retry_item.
  destruct (title_and_href article) as [[[t h]|]|]; try discriminate.
  destruct (duplicate news_items t) eqn:Hdup; [discriminate |].
  intros [= <-]. now apply duplicate_false.
Qed.

(** The retry pass appends to what it is given, stops at the target, and
    appends no title that is already there. *)
Lemma retry_pass_spec articles :
  forall news_items,
    exists added,
      retry_pass news_items articles = news_items ++ added
      /\ fresh_titles news_items added
      /\ ((length news_items <= target_count)%nat ->
          (length (news_items ++ added) <= target_count)%nat).
Proof.
  induction articles as [|article articles IH]; intros news.
  - exists []. rewrite app_nil_r. now repeat split.
  - rewrite retry_pass_cons.
    destruct (Nat.leb_spec target_count (length news)) as [Hfull | Hroom].
    + exists []. rewrite app_nil_r. now repeat split.
    + destruct (retry_item news article) as [item|] eqn:Hitem; simpl.
      * destruct (IH (news ++ [item])) as (added & -> & Hfresh & Hlen).
        exists (item :: added). rewrite <- app_assoc. simpl.
        repeat split; try assumption.
        -- now apply (retry_item_fresh news article).
        -- intros _. change (news ++ item :: added) with (news ++ [item] ++ added).
           rewrite app_assoc. apply Hlen. rewrite length_app. simpl. lia.
      * rewrite app_nil_r. apply IH.
Qed.

Lemma retry_selectors_spec scrolled seen selectors :
  forall news_items,
    exists added,
      retry_selectors scrolled seen news_items selectors = news_items ++ added
      /\ fresh_titles news_items added
      /\ ((length news_items <= target_count)%nat ->
          (length (news_items ++ added) <= target_count)%nat).
Proof.
  induction selectors as [|selector selectors IH]; simpl; intros news.
  - exists []. rewrite app_nil_r. now repeat split.
  - destruct (page_query_selector_all scrolled selector) as [additional|];
      [| apply IH].
    destruct (seen <? length additional)%nat; [apply retry_pass_spec | apply IH].
Qed.

(** C8. The collector returns at most five items. The first pass keeps
    at most five, whatever the articles; the retry pass extends the list
    of the first pass, never by an item whose title an item before it
    has, and not beyond five. *)
Theorem news_collector_bounded (pg scrolled : page) (ticker : string) :
  (length (_extract_news pg scrolled ticker) <= 5)%nat
  /\ (forall articles, (length (first_pass [] articles) <= 5)%nat)
  /\ (forall news_items articles,
         exists added,
           retry_pass news_items articles = news_items ++ added
           /\ fresh_titles news_items added
           /\ ((length news_items <= 5)%nat ->
               (length (retry_pass news_items articles) <= 5)%nat))
  /\ (_extract_news pg scrolled ticker = []
      \/ exists added,
          _extract_news pg scrolled ticker
          = first_pass [] (find_articles pg) ++ added
          /\ fresh_titles (first_pass [] (find_articles pg)) added).
Proof.
  assert (Hfirst : forall articles,
             (length (first_pass [] articles) <= target_count)%nat)
    by (intros articles; apply first_pass_bound; simpl; lia).
  split; [| split; [exact Hfirst | split]].
  - unfold _extract_news. destruct (page_goto pg _); [| simpl; lia].
    destruct (find_articles pg) as [|art articles] eqn:Harticles; [simpl; lia |].
    destruct (_ <? _)%nat; [| apply Hfirst].
    destruct (page_evaluate pg scroll_down); [| apply Hfirst].
    destruct (retry_selectors_spec scrolled (length (art :: articles))
                article_selectors (first_pass [] (art :: articles)))
      as (added & -> & _ & Hlen).
    apply Hlen, Hfirst.
  - intros news articles.
    destruct (retry_pass_spec articles news) as (added & E & Hfresh & Hlen).
    exists added. rewrite E. now repeat split.
  - unfold _extract_news. destruct (page_goto pg _); [| now left].
    destruct (find_articles pg) as [|art articles] eqn:Harticles; [now left |].
    right. destruct (_ <? _)%nat.
    + destruct (page_evaluate pg scroll_down).
      * destruct (retry_selectors_spec scrolled (length (art :: articles))
                    article_selectors (first_pass [] (art :: articles)))
          as (added & E & Hfresh & _).
        now exists added.
      * exists []. now rewrite app_nil_r.
    + exists []. now rewrite app_nil_r.
Qed.

(** ** The position in the 52-week range *)

Lemma Qgtb_spec a b : Qgtb a b = true <-> (b < a)%Q.
Proof.
  unfold Qgtb. rewrite negb_true_iff. split.
  - intros H. apply Qnot_le_lt. intros Hle.
    apply Qle_bool_iff in Hle. congruence.
  - intros Hlt. destruct (Qle_bool a b) eqn:E; [| reflexivity].
    apply Qle_bool_iff in E. exfalso. exact (Qlt_not_le _ _ Hlt E).
Qed.

(** A range that the parser built has no zero bound. *)
Lemma parse_range_nonzero range_text r :
  parse_range range_text = Some r -> ~ (low r == 0)%Q /\ ~ (high r == 0)%Q.
Proof.
  destruct range_text as [t|]; [| discriminate]. rewrite parse_range_eq.
  destruct (_ && _); [| discriminate].
  destruct (split "-" (strip t)) as [|p0 [|p1 [|p2 pieces]]]; try discriminate.
  cbv zeta.
  destruct (_parse_financial_value (strip p0)) as [l|]; [| discriminate].
  destruct (_parse_financial_value (strip p1)) as [h|]; [| discriminate].
  unfold truthy.
  destruct (Qeq_bool l 0) eqn:Hl; [discriminate |].
  destruct (Qeq_bool h 0) eqn:Hh; [discriminate |].
  intros [= <-]. simpl. split; intros H; apply Qeq_bool_iff in H; congruence.
Qed.

Lemma position_in_range_eq price r :
  position_in_range price r
  = Ok (if Qgtb (high r) (low r)
        then ((price - low r) / (high r - low r))%Q else 0%Q).
Proof.
  unfold position_in_range.
  destruct (Qgtb (high r) (low r)) eqn:Hgt; [| reflexivity].
  apply Qgtb_spec in Hgt. unfold py_div.
  destruct (Qeq_bool (high r - low r) 0) eqn:Hz; [| reflexivity].
  apply Qeq_bool_eq in Hz. lra.
Qed.

(** C9. The division of the position is guarded: for every price and
    every range it returns, and never raises; it is the quotient
    (price - low) / (high - low) when high is above low, and 0 when it is
    not, high equal to low included. For a range that the range parser
    built, the whole 52-week block returns. *)
Theorem position_never_divides_by_zero (price : Q) (r : FiftyTwoWeekRange) :
  position_in_range price r
  = Ok (if Qgtb (high r) (low r)
        then ((price - low r) / (high r - low r))%Q else 0%Q)
  /\ position_in_range price {| high := low r; low := low r |} = Ok 0%Q
  /\ (Qgtb (high r) (low r) = true <-> (low r < high r)%Q)
  /\ (forall range_text metrics,
         parse_range range_text = Some r ->
         exists out, range_metrics price r metrics = Ok out).
Proof.
  split; [| split; [| split]].
  - apply position_in_range_eq.
  - rewrite position_in_range_eq. simpl.
    destruct (Qgtb (low r) (low r)) eqn:Hgt; [| reflexivity].
    apply Qgtb_spec in Hgt. now apply Qlt_irrefl in Hgt.
  - apply Qgtb_spec.
  - intros range_text metrics [Hlow Hhigh]%parse_range_nonzero.
    unfold range_metrics. rewrite position_in_range_eq. unfold py_div.
    destruct (Qeq_bool (high r) 0) eqn:Hh; [now apply Qeq_bool_iff in Hh |].
    destruct (Qeq_bool (low r) 0) eqn:Hl; [now apply Qeq_bool_iff in Hl |].
    simpl. eauto.
Qed.

(** ** The basic price information *)

(** C10. Whatever the page answers and whatever the search of the raw
    HTML gives, [_extract_basic_info] returns, and never raises: a
    company name and a price record with its three numbers. A number
    whose extraction failed, by an exception or by a text that is no
    number, is 0. *)
Theorem basic_info_total
    (html_price : string -> string -> Q) (pg : page) (ticker : string) :
  exists company_name price_info,
    _extract_basic_info html_price pg ticker = Ok (company_name, price_info)
    /\ (price_step html_price pg ticker = Raise
        \/ price_step html_price pg ticker = Ok None ->
        current_price price_info = 0%Q)
    /\ (change_body pg = Raise \/ (exists cp, change_body pg = Ok (None, cp)) ->
        change price_info = 0%Q)
    /\ (change_body pg = Raise \/ (exists c, change_body pg = Ok (c, None)) ->
        change_percent price_info = 0%Q).
Proof.
  unfold _extract_basic_info, change_step.
  destruct (price_step html_price pg ticker) as [current|] eqn:Hprice; simpl.
  - destruct (change_body pg) as [[c cp]|] eqn:Hchange; simpl.
    + destruct cp as [cp|]; simpl.
      * eexists _, _. split; [reflexivity |]. simpl. repeat split.
        -- intros [H | H]; [discriminate | now injection H as ->].
        -- intros [H | (cp' & [= -> _])]; [discriminate | reflexivity].
        -- intros [H | (c' & [= _ H])]; discriminate.
      * eexists _, _. split; [reflexivity |]. simpl. now repeat split.
    + eexists _, _. split; [reflexivity |]. simpl. repeat split; try reflexivity.
      intros [H | H]; [discriminate | now injection H as ->].
  - eexists _, _. split; [reflexivity |]. simpl. now repeat split.
Qed.

(** * More properties of the extraction code *)

(** ** The normalizer and [_safe_float] *)

Lemma split_suffix_positive cleaned : (0 < (split_suffix cleaned).1)%Q.
Proof.
  unfold split_suffix.
  repeat destruct (endswith_char _ cleaned); reflexivity.
Qed.

Lemma parse_nonneg text v :
  _parse_financial_value text = Some v -> (0 <= v)%Q.
Proof.
  rewrite parse_eq. destruct (is_placeholder_token text); [discriminate |].
  destruct (if has_char "(" text && has_char "%" text
            then search_percent text else None) as [num|] eqn:Hp.
  - destruct (has_char "(" text && has_char "%" text); [| discriminate].
    destruct (search_percent_sound _ _ Hp) as (pre & ip & fp & _ & Hn).
    rewrite (float_of_number _ _ _ Hn). intros [= <-]. apply decimal_nonneg.
  - pose proof (split_suffix_positive (clean_formatting text)) as Hm.
    destruct (split_suffix (clean_formatting text)) as [m c]. simpl in Hm.
    destruct (search_number c) as [num|] eqn:Hs; [| discriminate].
    destruct (search_number_spec _ _ Hs) as (pre & rest & ip & fp & _ & _ & Hn).
    rewrite (float_of_number _ _ _ Hn). simpl. intros [= <-].
    apply Qmult_le_0_compat; [apply decimal_nonneg | now apply Qlt_le_weak].
Qed.

(** X1. Whatever the text, a number that the normalizer returns is not
    negative. *)
Theorem normalizer_never_negative (text : string) (v : Q) :
  _parse_financial_value text = Some v -> (0 <= v)%Q.
Proof. apply parse_nonneg. Qed.

Lemma normalizer_never_negative_witness :
  _parse_financial_value "-3.50" = Some (350 # 100)%Q /\ (0 <= 350 # 100)%Q.
Proof.
  split; [reflexivity |].
  apply (normalizer_never_negative "-3.50"). reflexivity.
Defined.

Lemma keep_numeric_chars s :
  forall_chars (fun c => is_digit c || Ascii.eqb c "." || Ascii.eqb c "-")
    (keep_numeric s) = true.
Proof.
  induction s as [|c s IH]; simpl; [reflexivity |].
  destruct (is_digit c || Ascii.eqb c "." || Ascii.eqb c "-") eqn:Hc;
    simpl; [now rewrite Hc |]; exact IH.
Qed.

Lemma keep_numeric_id s :
  forall_chars (fun c => is_digit c || Ascii.eqb c "." || Ascii.eqb c "-") s
  = true ->
  keep_numeric s = s.
Proof.
  induction s as [|c s IH]; simpl; [reflexivity |].
  intros [Hc Hs]%andb_true_iff. now rewrite Hc, (IH Hs).
Qed.

Lemma keep_numeric_remove_comma s :
  keep_numeric (remove_char "," s) = keep_numeric s.
Proof.
  induction s as [|c s IH]; simpl; [reflexivity |].
  destruct (Ascii.eqb_spec c ",") as [-> | Hc]; simpl; [exact IH |].
  now rewrite IH.
Qed.

Lemma safe_float_eq s :
  _safe_float (Some s) =
  let cleaned := keep_numeric s in
  if String.eqb cleaned "" || String.eqb cleaned "--" then None
  else float_of_str cleaned.
Proof. unfold _safe_float. now rewrite keep_numeric_remove_comma. Qed.

Lemma safe_float_same_numeric s1 s2 :
  keep_numeric s1 = keep_numeric s2 ->
  _safe_float (Some s1) = _safe_float (Some s2).
Proof. intros H. rewrite !safe_float_eq. cbv zeta. now rewrite H. Qed.

Lemma safe_float_of_numeric s :
  _safe_float (Some s) = _safe_float (Some (keep_numeric s)).
Proof.
  apply safe_float_same_numeric.
  now rewrite (keep_numeric_id _ (keep_numeric_chars s)).
Qed.

(** X2. [_safe_float] reads nothing but the digits, the points and the
    minus signs of its text: two texts that agree on them give the same
    result, and a text gives what its digits, points and minus signs
    alone give. *)
Theorem safe_float_reads_numeric_characters (s1 s2 : string) :
  keep_numeric s1 = keep_numeric s2 ->
  _safe_float (Some s1) = _safe_float (Some s2)
  /\ _safe_float (Some s1) = _safe_float (Some (keep_numeric s1)).
Proof.
  intros H. split; [now apply safe_float_same_numeric |].
  apply safe_float_of_numeric.
Qed.

Lemma safe_float_reads_numeric_characters_witness :
  keep_numeric "+1,234.50 USD" = keep_numeric "1234.50"
  /\ _safe_float (Some "+1,234.50 USD") = _safe_float (Some "1234.50")
  /\ _safe_float (Some "+1,234.50 USD")
     = _safe_float (Some (keep_numeric "+1,234.50 USD")).
Proof.
  split; [reflexivity |].
  apply (safe_float_reads_numeric_characters "+1,234.50 USD" "1234.50").
  reflexivity.
Defined.

Lemma number_text_numeric num ip fp :
  number_text num ip fp ->
  forall_chars (fun c => is_digit c || Ascii.eqb c "." || Ascii.eqb c "-") num
  = true.
Proof.
  assert (Hd : forall s, forall_chars is_digit s = true ->
               forall_chars (fun c => is_digit c || Ascii.eqb c "."
                                      || Ascii.eqb c "-") s = true).
  { intros s. apply forall_chars_impl. intros c ->. reflexivity. }
  intros [ip' [Hip _] | ip' fp' [Hip _] Hfp]; rewrite ?forall_chars_app; simpl;
    rewrite ?Hd by assumption; reflexivity.
Qed.

Lemma float_of_str_minus num ip fp :
  number_text num ip fp ->
  float_of_str ("-" +:+ num) = Some (- decimal ip fp)%Q.
Proof.
  intros Hn. pose proof (float_of_number _ _ _ Hn) as Hf.
  rewrite float_of_str_unsigned in Hf.
  - change ("-" +:+ num) with (String "-" num). unfold float_of_str.
    rewrite Ascii.eqb_refl.
    destruct (take_digits num) as [d r]. destruct r as [|c f].
    + destruct (String.eqb d ""); [discriminate |]. congruence.
    + destruct (Ascii.eqb c "."); [| discriminate].
      destruct (take_digits f) as [fp' r'].
      destruct (String.eqb r' "" && negb (String.eqb (d +:+ fp') ""));
        [| discriminate].
      congruence.
  - destruct (number_text_digit_head _ _ _ Hn) as (c & r & -> & Hc).
    apply (digit_not_sign c Hc).
Qed.

Lemma safe_float_number num ip fp :
  number_text num ip fp ->
  _safe_float (Some num) = Some (decimal ip fp)
  /\ _safe_float (Some ("-" +:+ num)) = Some (- decimal ip fp)%Q.
Proof.
  intros Hn. pose proof (number_text_numeric _ _ _ Hn) as Hnum.
  destruct (number_text_digit_head _ _ _ Hn) as (c & r & E & Hc).
  destruct (digit_not_sign c Hc) as [Hsign _].
  rewrite !safe_float_eq. cbv zeta. split.
  - rewrite (keep_numeric_id _ Hnum), (float_of_number _ _ _ Hn).
    rewrite E. simpl. now rewrite Hsign.
  - rewrite (keep_numeric_id ("-" +:+ num)) by (simpl; exact Hnum).
    rewrite (float_of_str_minus _ _ _ Hn). rewrite E. simpl. now rewrite Hsign.
Qed.

(** X3. Unlike the normalizer, [_safe_float] keeps the sign: for every
    run of digits [ip] and every run of fraction digits [fp], the text
    [ip.fp] gives the number and the text [-ip.fp] its opposite. *)
Theorem safe_float_keeps_sign (ip fp : string) :
  forall_chars is_digit ip = true -> ip <> "" ->
  forall_chars is_digit fp = true ->
  _safe_float (Some (ip +:+ "." +:+ fp)) = Some (decimal ip fp)
  /\ _safe_float (Some ("-" +:+ ip +:+ "." +:+ fp)) = Some (- decimal ip fp)%Q
  /\ _safe_float (Some ("-" +:+ ip)) = Some (- decimal ip "")%Q.
Proof.
  intros Hip Hne Hfp. assert (Hd : digits ip) by now split.
  destruct (safe_float_number (ip +:+ "." +:+ fp) ip fp) as [H1 H2];
    [now constructor |].
  destruct (safe_float_number ip ip "") as [_ H3]; [now constructor |].
  auto.
Qed.

Lemma safe_float_keeps_sign_witness :
  _safe_float (Some "1.20") = Some (decimal "1" "20")
  /\ _safe_float (Some "-1.20") = Some (- decimal "1" "20")%Q
  /\ _safe_float (Some "-1") = Some (- decimal "1" "")%Q.
Proof.
  apply (safe_float_keeps_sign "1" "20"); [reflexivity | discriminate | reflexivity].
Defined.

(** ** The basic price information, again *)

(** X4. When the price element and the two change elements are found
    and their texts read as numbers, the record holds these numbers: the
    price, the change and the change in percent, the last two with their
    signs. *)
Theorem basic_info_reads_the_page
    (html_price : string -> string -> Q) (pg : page) (ticker : string)
    (price_el change_el percent_el : element)
    (price_text change_text percent_text : string) (p c cp : Q) :
  page_wait_for_selector pg (price_selector ticker) = Ok (Some price_el) ->
  text_content price_el = Ok (Some price_text) ->
  page_query_selector pg change_selector = Ok (Some change_el) ->
  text_content change_el = Ok (Some change_text) ->
  page_query_selector pg change_percent_selector = Ok (Some percent_el) ->
  text_content percent_el = Ok (Some percent_text) ->
  _safe_float (Some price_text) = Some p ->
  _safe_float (Some change_text) = Some c ->
  _safe_float (Some percent_text) = Some cp ->
  exists company_name,
    _extract_basic_info html_price pg ticker
    = Ok (company_name,
          {| current_price := or_zero (Some p); change := or_zero (Some c);
             change_percent := or_zero (Some cp); currency := "USD" |})
    /\ (or_zero (Some p) == p)%Q /\ (or_zero (Some c) == c)%Q
    /\ (or_zero (Some cp) == cp)%Q.
Proof.
  intros Hpe Hpt Hce Hct Hpce Hpct Hp Hc Hcp.
  assert (Hprice : price_step html_price pg ticker = Ok (Some p)).
  { unfold price_step, price_from_element. rewrite Hpe.
    cbn [mbind exc_bind deref]. rewrite Hpt. cbn [mbind exc_bind deref try_except].
    rewrite (safe_float_same_numeric (remove_char "," price_text)
               price_text (keep_numeric_remove_comma price_text)).
    now rewrite Hp. }
  assert (Hplus : forall s, keep_numeric (remove_char "+" s) = keep_numeric s).
  { induction s as [|a s IH]; simpl; [reflexivity |].
    destruct (Ascii.eqb_spec a "+") as [-> | Ha]; simpl; [exact IH |].
    now rewrite IH. }
  assert (Hother : forall a s,
             is_digit a || Ascii.eqb a "." || Ascii.eqb a "-" = false ->
             keep_numeric (remove_char a s) = keep_numeric s).
  { intros a s Ha. induction s as [|b s IH]; simpl; [reflexivity |].
    destruct (Ascii.eqb_spec b a) as [-> | Hb]; simpl.
    - now rewrite Ha.
    - now rewrite IH. }
  assert (Hchange : change_body pg = Ok (Some c, Some cp)).
  { unfold change_body. rewrite Hce, Hpce.
    cbn [mbind exc_bind deref change_from_element]. rewrite Hct, Hpct.
    cbn [mbind exc_bind deref foldl].
    rewrite (safe_float_same_numeric
               (remove_char "," (remove_char "+" change_text)) change_text)
      by now rewrite !Hother by reflexivity.
    rewrite (safe_float_same_numeric
               (remove_char ")" (remove_char "(" (remove_char "%"
                  (remove_char "+" percent_text)))) percent_text)
      by now rewrite !Hother by reflexivity.
    now rewrite Hc, Hcp. }
  exists (name_step pg ticker). split.
  - unfold _extract_basic_info, change_step. rewrite Hprice, Hchange. reflexivity.
  - unfold or_zero. repeat split.
    + destruct (Qeq_bool p 0) eqn:E; [| reflexivity].
      apply Qeq_bool_eq in E. now rewrite E.
    + destruct (Qeq_bool c 0) eqn:E; [| reflexivity].
      apply Qeq_bool_eq in E. now rewrite E.
    + destruct (Qeq_bool cp 0) eqn:E; [| reflexivity].
      apply Qeq_bool_eq in E. now rewrite E.
Qed.

Lemma basic_info_reads_the_page_witness :
  exists company_name,
    _extract_basic_info (fun _ _ => 0%Q)
      (quote_page "173.50" "+1.20" "(+0.70%)" "Apple Inc. (AAPL)") "AAPL"
    = Ok (company_name,
          {| current_price := or_zero (Some (decimal "173" "50"));
             change := or_zero (Some (decimal "1" "20"));
             change_percent := or_zero (Some (decimal "0" "70"));
             currency := "USD" |})
    /\ (or_zero (Some (decimal "173" "50")) == decimal "173" "50")%Q
    /\ (or_zero (Some (decimal "1" "20")) == decimal "1" "20")%Q
    /\ (or_zero (Some (decimal "0" "70")) == decimal "0" "70")%Q.
Proof.
  apply (basic_info_reads_the_page (fun _ _ => 0%Q)
           (quote_page "173.50" "+1.20" "(+0.70%)" "Apple Inc. (AAPL)") "AAPL"
           (text_element "173.50") (text_element "+1.20")
           (text_element "(+0.70%)") "173.50" "+1.20" "(+0.70%)");
    vm_compute; reflexivity.
Defined.

(** X5. When the element of the change in percent is found and its text
    is not a number, the log line raises and the function returns the
    defaults: the ticker as the name and a record of zeros, whatever
    price and change were read before. *)
Theorem basic_info_drops_price_on_bad_percent
    (html_price : string -> string -> Q) (pg : page) (ticker : string)
    (c : option Q) :
  change_body pg = Ok (c, None) ->
  _extract_basic_info html_price pg ticker = Ok (default_info ticker).
Proof.
  intros Hchange. unfold _extract_basic_info, change_step. rewrite Hchange.
  now destruct (price_step html_price pg ticker).
Qed.

Lemma basic_info_drops_price_on_bad_percent_witness :
  price_step (fun _ _ => 0%Q) (quote_page "173.50" "+1.20" "N/A" "Apple Inc. (AAPL)")
    "AAPL" = Ok (Some (decimal "173" "50"))
  /\ _extract_basic_info (fun _ _ => 0%Q)
       (quote_page "173.50" "+1.20" "N/A" "Apple Inc. (AAPL)") "AAPL"
     = Ok (default_info "AAPL").
Proof.
  split; [vm_compute; reflexivity |].
  apply (basic_info_drops_price_on_bad_percent _ _ _ (Some (decimal "1" "20"))).
  vm_compute. reflexivity.
Defined.

Lemma name_step_example :
  name_step (quote_page "173.50" "+1.20" "N/A" "Apple Inc. (AAPL)") "AAPL"
  = "Apple Inc.".
Proof. vm_compute. reflexivity. Qed.

(** ** The news collector, again *)

Lemma rstrip_cons c r :
  rstrip (String c r) =
  match rstrip r with
  | EmptyString => if is_space c then EmptyString else String c EmptyString
  | r' => String c r'
  end.
Proof. reflexivity. Qed.

Lemma rstrip_idem s : rstrip (rstrip s) = rstrip s.
Proof.
  induction s as [|c s IH]; [reflexivity |].
  rewrite rstrip_cons. destruct (rstrip s) as [|c' r'] eqn:Hr.
  - destruct (is_space c) eqn:Hc; [reflexivity |].
    rewrite rstrip_cons. simpl. now rewrite Hc.
  - rewrite rstrip_cons, IH. reflexivity.
Qed.

Lemma lstrip_head s :
  match lstrip s with
  | String c _ => is_space c = false
  | EmptyString => True
  end.
Proof.
  induction s as [|c s IH]; simpl; [exact I |].
  destruct (is_space c) eqn:Hc; [exact IH | exact Hc].
Qed.

Lemma rstrip_head c r :
  is_space c = false -> exists r', rstrip (String c r) = String c r'.
Proof.
  intros Hc. rewrite rstrip_cons. destruct (rstrip r); rewrite ?Hc; eauto.
Qed.

(** Stripping twice is stripping once. *)
Lemma strip_idem s : strip (strip s) = strip s.
Proof.
  unfold strip. pose proof (lstrip_head s) as Hh.
  destruct (lstrip s) as [|c r]; [reflexivity |].
  destruct (rstrip_head c r Hh) as [r' E]. rewrite E.
  simpl lstrip. rewrite Hh. rewrite <- E. apply rstrip_idem.
Qed.

Lemma news_item_built link_text href : built_item (news_item link_text href).
Proof.
  unfold built_item, news_item, news_url_of. cbn [source url title].
  repeat split.
  - destruct (startswith "http" href) eqn:E; [exact E | reflexivity].
  - apply strip_idem.
Qed.

Lemma first_pass_item_built article item :
  first_pass_item article = Some item ->
  built_item item /\ title item <> "".
Proof.
  unfold first_pass_item.
  destruct (title_and_href article) as [[[t h]|]|]; try discriminate.
  destruct (String.eqb_spec (strip t) "") as [E | E]; [discriminate |].
  intros [= <-]. split; [apply news_item_built | exact E].
Qed.

Lemma retry_item_built news_items article item :
  retry_item news_items article = Some item -> built_item item.
Proof.
  unfold retry_item.
  destruct (title_and_href article) as [[[t h]|]|]; try discriminate.
  destruct (duplicate news_items t); [discriminate |].
  intros [= <-]. apply news_item_built.
Qed.

Lemma first_pass_forall (P : NewsItem -> Prop) articles :
  (forall article item, first_pass_item article = Some item -> P item) ->
  forall news_items,
    Forall P news_items -> Forall P (first_pass news_items articles).
Proof.
  intros Hitem. induction articles as [|article articles IH]; intros news Hnews;
    [exact Hnews |].
  rewrite first_pass_cons. destruct (_ <=? _)%nat; [exact Hnews |].
  apply IH. apply Forall_app. split; [exact Hnews |].
  destruct (first_pass_item article) as [item|] eqn:E; simpl; [| constructor].
  repeat constructor. now apply (Hitem article).
Qed.

Lemma retry_pass_forall (P : NewsItem -> Prop) articles :
  (forall news_items article item,
      retry_item news_items article = Some item -> P item) ->
  forall news_items,
    Forall P news_items -> Forall P (retry_pass news_items articles).
Proof.
  intros Hitem. induction articles as [|article articles IH]; intros news Hnews;
    [exact Hnews |].
  rewrite retry_pass_cons. destruct (_ <=? _)%nat; [exact Hnews |].
  apply IH. apply Forall_app. split; [exact Hnews |].
  destruct (retry_item news article) as [item|] eqn:E; simpl; [| constructor].
  repeat constructor. now apply (Hitem news article).
Qed.

Lemma retry_selectors_forall (P : NewsItem -> Prop) scrolled seen selectors :
  (forall news_items article item,
      retry_item news_items article = Some item -> P item) ->
  forall news_items,
    Forall P news_items ->
    Forall P (retry_selectors scrolled seen news_items selectors).
Proof.
  intros Hitem. induction selectors as [|selector selectors IH];
    intros news Hnews; simpl; [exact Hnews |].
  destruct (page_query_selector_all scrolled selector) as [additional|];
    [| now apply IH].
  destruct (_ <? _)%nat; [now apply retry_pass_forall | now apply IH].
Qed.

(** X6. Every item that the collector returns names Yahoo Finance as
    its source, has a URL that starts with http (a link that does not is
    put behind the origin of the site) and a title without white space
    around it. *)
Theorem news_items_are_well_formed (pg scrolled : page) (ticker : string)
    (item : NewsItem) :
  In item (_extract_news pg scrolled ticker) ->
  source item = "Yahoo Finance"
  /\ startswith "http" (url item) = true
  /\ strip (title item) = title item.
Proof.
  assert (Hall : Forall built_item (_extract_news pg scrolled ticker)).
  { unfold _extract_news. destruct (page_goto pg _); [| constructor].
    destruct (find_articles pg) as [|art articles]; [constructor |].
    assert (Hfirst : Forall built_item (first_pass [] (art :: articles))).
    { apply first_pass_forall; [| constructor].
      intros article it H. now apply first_pass_item_built in H. }
    destruct (_ <? _)%nat; [| exact Hfirst].
    destruct (page_evaluate pg scroll_down); [| exact Hfirst].
    apply retry_selectors_forall; [| exact Hfirst].
    intros news article it H. now apply retry_item_built in H. }
  intros Hin. rewrite Forall_forall in Hall. apply Hall.
  now apply list_elem_of_In.
Qed.

Lemma news_items_are_well_formed_witness :
  let pg := news_page [news_article " Apple beats estimates " "/news/apple"] in
  let item := news_item " Apple beats estimates " "/news/apple" in
  In item (_extract_news pg pg "AAPL")
  /\ source item = "Yahoo Finance"
  /\ startswith "http" (url item) = true
  /\ strip (title item) = title item.
Proof.
  intros pg item.
  assert (H : In item (_extract_news pg pg "AAPL")) by (left; reflexivity).
  split; [exact H |].
  exact (news_items_are_well_formed pg pg "AAPL" item H).
Defined.

Lemma fresh_titles_seen base added t :
  fresh_titles base added -> In t (title <$> base) ->
  ~ In t (title <$> added).
Proof.
  revert base. induction added as [|item added IH]; intros base Hfresh Ht;
    [simpl; tauto |].
  destruct Hfresh as [Hitem Hrest]. simpl. intros [E | Hin].
  - apply Hitem. now rewrite E.
  - apply (IH (base ++ [item])); [exact Hrest | | exact Hin].
    rewrite fmap_app. apply in_or_app. now left.
Qed.

Lemma fresh_titles_once base added t :
  fresh_titles base added ->
  (length (List.filter (fun item => String.eqb (title item) t) added) <= 1)%nat.
Proof.
  revert base. induction added as [|item added IH]; intros base Hfresh;
    [simpl; lia |].
  destruct Hfresh as [Hitem Hrest]. simpl.
  destruct (String.eqb_spec (title item) t) as [E | E].
  - assert (Hnone : ~ In t (title <$> added)).
    { apply (fresh_titles_seen (base ++ [item])); [exact Hrest |].
      rewrite fmap_app. apply in_or_app. right. simpl. now left. }
    rewrite filter_none; [simpl; lia |].
    intros it Hit. apply String.eqb_neq. intros Et. apply Hnone.
    apply in_map_iff. now exists it.
  - now apply (IH (base ++ [item])).
Qed.

(** The retry pass does not test the stripped title: a link whose text
    is white space gives an item with an empty title. *)
Example news_empty_title_possible :
  title <$> _extract_news (news_page [news_article "Apple beats" "/a"])
              (news_page [news_article "Apple beats" "/a";
                          news_article "   " "/b"]) "AAPL"
  = ["Apple beats"; ""].
Proof. reflexivity. Qed.

(** X7. No item of the first pass has an empty title, and the items
    returned hold at most one item with an empty title. *)
Theorem news_empty_title_at_most_once (pg scrolled : page) (ticker : string) :
  (forall articles item,
      In item (first_pass [] articles) -> title item <> "")
  /\ (length (List.filter (fun item => String.eqb (title item) "")
                (_extract_news pg scrolled ticker)) <= 1)%nat.
Proof.
  assert (Hfirst : forall articles,
             Forall (fun item => title item <> "") (first_pass [] articles)).
  { intros articles. apply first_pass_forall; [| constructor].
    intros article it H. now apply first_pass_item_built in H. }
  assert (Hzero : forall articles,
             List.filter (fun item => String.eqb (title item) "")
               (first_pass [] articles) = []).
  { intros articles. apply filter_none. intros it Hit.
    apply String.eqb_neq. specialize (Hfirst articles).
    rewrite Forall_forall in Hfirst. apply Hfirst. now apply list_elem_of_In. }
  split.
  - intros articles item Hin. specialize (Hfirst articles).
    rewrite Forall_forall in Hfirst. apply Hfirst. now apply list_elem_of_In.
  - unfold _extract_news. destruct (page_goto pg _); [| simpl; lia].
    destruct (find_articles pg) as [|art articles]; [simpl; lia |].
    destruct (_ <? _)%nat; [| rewrite Hzero; simpl; lia].
    destruct (page_evaluate pg scroll_down); [| rewrite Hzero; simpl; lia].
    destruct (retry_selectors_spec scrolled (length (art :: articles))
                article_selectors (first_pass [] (art :: articles)))
      as (added & -> & Hfresh & _).
    rewrite List.filter_app, Hzero. simpl.
    now apply (fresh_titles_once (first_pass [] (art :: articles))).
Qed.

(** ** The fundamentals, again *)

Lemma table_fallback_id pg :
  table_fallback pg (selector_pass pg) = selector_pass pg.
Proof.
  unfold table_fallback.
  now rewrite (missing_metrics_nil _ (selector_pass_no_none pg)).
Qed.

Lemma extract_metric_fresh pg fundamentals metric selectors :
  fundamentals !! metric = None ->
  extract_metric pg fundamentals (metric, selectors) !! metric =
  match first_hit (try_selector pg metric) selectors with
  | Some v => Some v
  | None => first_hit (try_selector pg metric) (fallback_selectors metric)
  end.
Proof.
  intros Hnone.
  destruct (first_hit (try_selector pg metric) selectors) as [v|] eqn:Hhit.
  - now apply extract_metric_hit.
  - unfold extract_metric. rewrite Hhit. cbn [store]. unfold is_missing.
    rewrite Hnone.
    destruct (first_hit (try_selector pg metric) (fallback_selectors metric));
      cbn [store]; [apply lookup_insert_eq | exact Hnone].
Qed.

Lemma foldl_extract_lookup pg entries :
  List.NoDup entries.*1 ->
  forall fundamentals metric selectors,
    (forall key, In key entries.*1 -> fundamentals !! key = None) ->
    In (metric, selectors) entries ->
    foldl (extract_metric pg) fundamentals entries !! metric =
    match first_hit (try_selector pg metric) selectors with
    | Some v => Some v
    | None => first_hit (try_selector pg metric) (fallback_selectors metric)
    end.
Proof.
  induction entries as [|[k sels] entries IH]; intros Hnd m metric selectors Hm Hin;
    [contradiction |].
  cbn [fmap list_fmap fst] in Hnd, Hm. inversion Hnd as [|? ? Hk Hnd']; subst.
  cbn [foldl]. destruct Hin as [[= -> ->] | Hin].
  - rewrite foldl_extract_other by exact Hk.
    apply extract_metric_fresh, Hm. now left.
  - apply IH; [exact Hnd' | | exact Hin].
    intros key Hkey. rewrite extract_metric_other.
    + apply Hm. now right.
    + intros ->. contradiction.
Qed.

(** What the selector pass holds for a metric: the hit of its own
    selectors, or else the hit of the fallback selectors. *)
Lemma selector_pass_lookup pg metric selectors :
  In (metric, selectors) metrics_to_extract ->
  selector_pass pg !! metric =
  match first_hit (try_selector pg metric) selectors with
  | Some v => Some v
  | None => first_hit (try_selector pg metric) (fallback_selectors metric)
  end.
Proof.
  intros Hin. unfold selector_pass.
  apply foldl_extract_lookup; [apply metric_keys_distinct | | exact Hin].
  intros key _. apply lookup_empty.
Qed.

Lemma first_hit_ext {A B} (f g : A -> option B) l :
  (forall x, f x = g x) -> first_hit f l = first_hit g l.
Proof.
  intros H. induction l as [|x l IH]; simpl; [reflexivity |].
  now rewrite H, IH.
Qed.

Lemma first_hit_fmap {A B C} (f : A -> option B) (g : B -> C) l :
  first_hit (fun x => g <$> f x) l = g <$> first_hit f l.
Proof.
  induction l as [|x l IH]; simpl; [reflexivity |].
  destruct (f x); simpl; [reflexivity | exact IH].
Qed.

Lemma string_metric_hit pg metric selectors :
  keeps_string metric = true ->
  first_hit (try_selector pg metric) selectors
  = PyStr <$> first_valid_text pg selectors.
Proof.
  intros Hs. unfold first_valid_text. rewrite <- first_hit_fmap.
  apply first_hit_ext. intros selector. unfold try_selector, metric_value.
  rewrite Hs. destruct (selector_text pg selector) as [text|]; [| reflexivity].
  now destruct (valid_text text).
Qed.

Lemma surely_finite_not_inf q : (q < surely_finite)%Q -> is_inf q = false.
Proof.
  intros H. unfold is_inf. destruct (Qle_bool float_overflow q) eqn:E;
    [| reflexivity].
  apply Qle_bool_iff in E. exfalso. apply (Qlt_not_le _ _ H).
  apply Qle_trans with float_overflow; [| exact E].
  unfold surely_finite, float_overflow. rewrite <- Zle_Qle.
  vm_compute. discriminate.
Qed.

Lemma surely_inf_is_inf q :
  (surely_inf <= q)%Q -> is_inf q = true /\ truthy (Some q) = true.
Proof.
  intros H. assert (Hover : (float_overflow <= surely_inf)%Q).
  { unfold surely_inf, float_overflow. rewrite <- Zle_Qle.
    vm_compute. discriminate. }
  split.
  - apply Qle_bool_iff. now apply Qle_trans with surely_inf.
  - cbn [truthy]. destruct (Qeq_bool q 0) eqn:E; [| reflexivity].
    apply Qeq_bool_iff in E. rewrite E in H. exfalso.
    apply (Qle_not_lt _ _ H). reflexivity.
Qed.

Lemma get_int_below fundamentals key :
  below surely_finite (get_float fundamentals key) ->
  exists n, get_int fundamentals key = Ok n.
Proof.
  unfold get_int. destruct (get_float fundamentals key) as [q|];
    cbn [below]; [| eauto].
  intros H. rewrite (surely_finite_not_inf q H).
  destruct (truthy (Some q)); eauto.
Qed.

Lemma get_int_reaches fundamentals key :
  reaches surely_inf (get_float fundamentals key) ->
  get_int fundamentals key = Raise.
Proof.
  unfold get_int. destruct (get_float fundamentals key) as [q|];
    cbn [reaches]; [| contradiction].
  intros H. destruct (surely_inf_is_inf q H) as [-> ->]. reflexivity.
Qed.

(** The two ways out of [_extract_fundamentals]. *)
Lemma extract_fundamentals_cases pg :
  _extract_fundamentals pg = no_metrics
  \/ exists volume avg_volume,
       get_int (table_fallback pg (selector_pass pg)) "volume" = Ok volume
       /\ get_int (table_fallback pg (selector_pass pg)) "avg_volume"
          = Ok avg_volume
       /\ _extract_fundamentals pg
          = metrics_record (table_fallback pg (selector_pass pg))
              (first_hit (try_range_selector pg) range_selectors)
              volume avg_volume.
Proof.
  unfold _extract_fundamentals.
  destruct (page_evaluate pg scroll_half); [| left; reflexivity]. cbv zeta.
  generalize (first_hit (try_range_selector pg) range_selectors).
  generalize (table_fallback pg (selector_pass pg)).
  intros fundamentals range.
  destruct (get_int fundamentals "volume") as [vol|]; cbn [mbind exc_bind];
    [| left; reflexivity].
  destruct (get_int fundamentals "avg_volume") as [avg|];
    cbn [mbind exc_bind]; [| left; reflexivity].
  right. exists vol, avg. repeat split; reflexivity.
Qed.

(** X8. When neither volume is so large that [int] overflows, each of
    the two metrics kept as text, the day's range and the earnings date,
    is the stripped text of the first selector, in the declared order
    and then in the order of the fallback selectors, whose text is not
    empty and no placeholder. When a volume is that large, the
    [OverflowError] of [int] takes every field away, the two texts
    too. *)
Theorem text_metrics_are_first_valid_text (pg : page) :
  page_evaluate pg scroll_half = Ok tt ->
  (below surely_finite (reading pg "volume") ->
   below surely_finite (reading pg "avg_volume") ->
   days_range (_extract_fundamentals pg)
   = match first_valid_text pg
             [stat_cell "Day's Range"; fin_streamer "regularMarketDayRange";
              data_test "DAYS_RANGE-value"] with
     | Some t => Some t
     | None => first_valid_text pg (fallback_selectors "days_range")
     end
   /\ earnings_date (_extract_fundamentals pg)
      = match first_valid_text pg
                [stat_cell "Earnings Date"; fin_streamer "earningsDate";
                 data_test "EARNINGS_DATE-value"] with
        | Some t => Some t
        | None => first_valid_text pg (fallback_selectors "earnings_date")
        end)
  /\ (reaches surely_inf (reading pg "volume")
      \/ reaches surely_inf (reading pg "avg_volume") ->
      _extract_fundamentals pg = no_metrics).
Proof.
  intros Heval. unfold reading. split.
  - intros Hv Ha.
    destruct (get_int_below _ _ Hv) as [volume Ev].
    destruct (get_int_below _ _ Ha) as [avg_volume Ea].
    unfold _extract_fundamentals. rewrite Heval. cbv zeta.
    rewrite Ev, Ea. cbn [mbind exc_bind metrics_record days_range earnings_date].
    rewrite table_fallback_id. unfold get_str.
    split.
    + rewrite (selector_pass_lookup pg "days_range"
                 [stat_cell "Day's Range"; fin_streamer "regularMarketDayRange";
                  data_test "DAYS_RANGE-value"])
        by (simpl; do 2 right; left; reflexivity).
      rewrite !string_metric_hit by reflexivity.
      destruct (first_valid_text pg _) as [t|]; [reflexivity |].
      now destruct (first_valid_text pg _).
    + rewrite (selector_pass_lookup pg "earnings_date"
                 [stat_cell "Earnings Date"; fin_streamer "earningsDate";
                  data_test "EARNINGS_DATE-value"])
        by (simpl; do 8 right; left; reflexivity).
      rewrite !string_metric_hit by reflexivity.
      destruct (first_valid_text pg _) as [t|]; [reflexivity |].
      now destruct (first_valid_text pg _).
  - intros H. unfold _extract_fundamentals. rewrite Heval. cbv zeta.
    destruct H as [H | H]; apply get_int_reaches in H.
    + now rewrite H.
    + rewrite H. now destruct (get_int _ "volume").
Qed.

Lemma text_metrics_are_first_valid_text_witness :
  let pg :=
    page_with [(fin_streamer "regularMarketDayRange", " 220.00 - 225.00 ");
               (fin_streamer "regularMarketVolume", "48,123,456")] [] in
  reading pg "volume" = Some (decimal "48123456" "" * 1)%Q
  /\ days_range (_extract_fundamentals pg) = Some "220.00 - 225.00"
  /\ first_valid_text pg
       [stat_cell "Day's Range"; fin_streamer "regularMarketDayRange";
        data_test "DAYS_RANGE-value"]
     = Some "220.00 - 225.00".
Proof.
  intros pg.
  assert (Hr : reading pg "volume" = Some (decimal "48123456" "" * 1)%Q)
    by (vm_compute; reflexivity).
  assert (H : first_valid_text pg
       [stat_cell "Day's Range"; fin_streamer "regularMarketDayRange";
        data_test "DAYS_RANGE-value"]
     = Some "220.00 - 225.00") by (vm_compute; reflexivity).
  assert (Hv : below surely_finite (reading pg "volume"))
    by (rewrite Hr; vm_compute; reflexivity).
  assert (Ha : below surely_finite (reading pg "avg_volume"))
    by (vm_compute; exact I).
  split; [exact Hr | split; [| exact H]].
  destruct (proj1 (text_metrics_are_first_valid_text pg eq_refl) Hv Ha)
    as [Hd _].
  rewrite Hd, H. reflexivity.
Defined.

(** A volume of 310 digits: every field is lost. *)
Example huge_volume_loses_the_metrics :
  let pg :=
    page_with [(fin_streamer "regularMarketDayRange", "1 - 2");
               (fin_streamer "regularMarketVolume",
                "1" +:+ string_of_list_ascii (replicate 309 "0"%char))] [] in
  first_valid_text pg
    [stat_cell "Day's Range"; fin_streamer "regularMarketDayRange";
     data_test "DAYS_RANGE-value"] = Some "1 - 2"
  /\ reaches surely_inf (reading pg "volume")
  /\ _extract_fundamentals pg = no_metrics.
Proof.
  intros pg. split; [vm_compute; reflexivity |].
  split; [vm_compute; discriminate | vm_compute; reflexivity].
Qed.

Lemma metric_value_nonneg metric cleaned_text v :
  metric_value metric cleaned_text = Some v -> at_least_zero_value v.
Proof.
  unfold metric_value. destruct (keeps_string metric).
  - now intros [= <-].
  - destruct (_parse_financial_value cleaned_text) as [q|] eqn:Hq; simpl;
      [| discriminate].
    intros [= <-]. simpl. now apply (parse_nonneg cleaned_text).
Qed.

Lemma get_float_nonneg pg key :
  at_least_zero (get_float (table_fallback pg (selector_pass pg)) key).
Proof.
  rewrite table_fallback_id. unfold get_float, at_least_zero.
  destruct (selector_pass pg !! key) as [[| |q]|] eqn:Hk; try exact I.
  exact (selector_pass_inv (fun _ => at_least_zero_value)
           metric_value_nonneg pg key (PyFloat q) Hk).
Qed.

Lemma py_int_nonneg q : (0 <= q)%Q -> 0 <= py_int q.
Proof.
  unfold py_int, Qle. destruct q as [n d]. simpl. intros H.
  apply Z.quot_pos; lia.
Qed.

Lemma get_int_nonneg pg key o :
  get_int (table_fallback pg (selector_pass pg)) key = Ok o ->
  match o with
  | Some n => 0 <= n
  | None => True
  end.
Proof.
  unfold get_int. pose proof (get_float_nonneg pg key) as H.
  destruct (truthy _); [| now intros [= <-]].
  destruct (get_float _ key) as [q|]; [| discriminate].
  destruct (is_inf q); [discriminate |]. intros [= <-].
  now apply py_int_nonneg.
Qed.

(** X9. No numeric field of the metrics is ever negative: the previous
    close, the open, the market cap, the beta, the P/E ratio and the
    target estimate are absent or at least 0, and so are the two
    volumes. *)
Theorem fundamentals_are_never_negative (pg : page) :
  let f := _extract_fundamentals pg in
  at_least_zero (previous_close f) /\ at_least_zero (open f)
  /\ at_least_zero (market_cap f) /\ at_least_zero (beta f)
  /\ at_least_zero (pe_ratio f) /\ at_least_zero (target_est f)
  /\ match volume f with Some n => 0 <= n | None => True end
  /\ match avg_volume f with Some n => 0 <= n | None => True end.
Proof.
  destruct (extract_fundamentals_cases pg)
    as [-> | (vol & avg & Hv & Ha & ->)]; cbv zeta.
  - cbn. repeat split; exact I.
  - cbn [metrics_record previous_close open market_cap beta pe_ratio
         target_est volume avg_volume].
    repeat split; try apply get_float_nonneg.
    + exact (get_int_nonneg pg "volume" vol Hv).
    + exact (get_int_nonneg pg "avg_volume" avg Ha).
Qed.

Lemma parse_range_sides range_text r :
  parse_range range_text = Some r ->
  exists p0 p1,
    _parse_financial_value p0 = Some (low r)
    /\ _parse_financial_value p1 = Some (high r).
Proof.
  destruct range_text as [t|]; [| discriminate]. rewrite parse_range_eq.
  destruct (_ && _); [| discriminate].
  destruct (split "-" (strip t)) as [|p0 [|p1 [|p2 pieces]]]; try discriminate.
  cbv zeta.
  destruct (_parse_financial_value (strip p0)) as [l|] eqn:Hl; [| discriminate].
  destruct (_parse_financial_value (strip p1)) as [h|] eqn:Hh; [| discriminate].
  destruct (_ && _); [| discriminate].
  intros [= <-]. simpl. eauto.
Qed.

(** X10. A 52-week range that the extraction returns has a low and a
    high above 0. *)
Theorem extracted_range_is_positive (pg : page) (r : FiftyTwoWeekRange) :
  fifty_two_week_range (_extract_fundamentals pg) = Some r ->
  (0 < low r)%Q /\ (0 < high r)%Q.
Proof.
  destruct (extract_fundamentals_cases pg)
    as [-> | (vol & avg & _ & _ & ->)]; [discriminate |].
  cbn [metrics_record fifty_two_week_range]. intros Hhit.
  destruct (first_hit_some _ _ _ Hhit) as (selector & _ & Hsel).
  unfold try_range_selector in Hsel.
  destruct (_ ≫= _) as [range_text|]; [| discriminate].
  destruct (parse_range_nonzero _ _ Hsel) as [Hlow Hhigh].
  destruct (parse_range_sides _ _ Hsel) as (p0 & p1 & Hp0 & Hp1).
  apply parse_nonneg in Hp0, Hp1.
  split; apply Qle_lteq in Hp0, Hp1.
  - destruct Hp0 as [H | H]; [exact H | now symmetry in H].
  - destruct Hp1 as [H | H]; [exact H | now symmetry in H].
Qed.

Lemma extracted_range_is_positive_witness :
  fifty_two_week_range
    (_extract_fundamentals
       {| page_query_selector _ := Ok None;
          page_query_selector_all _ := Ok [];
          page_wait_for_selector _ := Ok (Some (text_element "130.00 - 120.00"));
          page_content := Ok "";
          page_evaluate _ := Ok tt;
          page_goto _ := Ok tt |})
  = Some {| high := decimal "120" "00" * 1; low := decimal "130" "00" * 1 |}
  /\ (0 < decimal "130" "00" * 1)%Q /\ (0 < decimal "120" "00" * 1)%Q.
Proof.
  assert (H : fifty_two_week_range
    (_extract_fundamentals
       {| page_query_selector _ := Ok None;
          page_query_selector_all _ := Ok [];
          page_wait_for_selector _ := Ok (Some (text_element "130.00 - 120.00"));
          page_content := Ok "";
          page_evaluate _ := Ok tt;
          page_goto _ := Ok tt |})
  = Some {| high := decimal "120" "00" * 1; low := decimal "130" "00" * 1 |})
    by (vm_compute; reflexivity).
  split; [exact H |].
  exact (extracted_range_is_positive _ _ H).
Defined.

(** ** The valuation metrics, again *)

Lemma py_div_ok a b : ~ (b == 0)%Q -> py_div a b = Ok (a / b)%Q.
Proof.
  intros Hb. unfold py_div. destruct (Qeq_bool b 0) eqn:E; [| reflexivity].
  now apply Qeq_bool_eq in E.
Qed.

Lemma py_div_raise a b : (b == 0)%Q -> py_div a b = Raise.
Proof.
  intros Hb. unfold py_div. now rewrite (proj2 (Qeq_bool_iff b 0) Hb).
Qed.

Lemma truthy_some v : truthy v = true -> exists q, v = Some q /\ ~ (q == 0)%Q.
Proof.
  destruct v as [q|]; simpl; [| discriminate]. intros H. exists q.
  split; [reflexivity |]. intros E. apply Qeq_bool_iff in E.
  rewrite E in H. discriminate.
Qed.

Lemma valuation_body_eq f price :
  valuation_body f price =
  match fifty_two_week_range f with
  | Some r => range_metrics price r (before_range f price)
  | None => Ok (before_range f price)
  end.
Proof.
  unfold valuation_body, before_range.
  destruct (truthy (roe f) && truthy (eps f)) eqn:Ht; [| reflexivity].
  apply andb_true_iff in Ht as [(q & -> & Hq)%truthy_some _].
  change (default 0%Q (Some q)) with q.
  rewrite (py_div_ok _ q Hq). cbn [mbind exc_bind].
  destruct (Qgtb (default 0%Q (eps f) / q * 100) 0) eqn:Hbook; [| reflexivity].
  apply Qgtb_spec in Hbook. rewrite py_div_ok; [reflexivity |].
  intros E. rewrite E in Hbook. now apply Qlt_irrefl in Hbook.
Qed.

Lemma range_metrics_raise price r metrics :
  range_metrics price r metrics = Raise <-> (high r == 0)%Q \/ (low r == 0)%Q.
Proof.
  unfold range_metrics. rewrite position_in_range_eq. cbn [mbind exc_bind].
  unfold py_div.
  destruct (Qeq_bool (high r) 0) eqn:Hh.
  - apply Qeq_bool_iff in Hh. cbn [mbind exc_bind]. tauto.
  - destruct (Qeq_bool (low r) 0) eqn:Hl; cbn [mbind exc_bind].
    + apply Qeq_bool_iff in Hl. tauto.
    + split; [discriminate |].
      intros [E | E]; apply Qeq_bool_iff in E; congruence.
Qed.

(** X11. A 52-week range with a zero bound makes a division raise, and
    the function then returns the empty dict: the P/B ratio, the dividend
    and the market cap category that it had computed are lost. This is
    the only way for the function to lose them: without a range, or with
    two bounds other than zero, the category of a known market cap is in
    the result. *)
Theorem valuation_is_lost_on_zero_bound
    (f : FundamentalMetrics) (price : Q) :
  (valuation_body f price = Raise <->
   exists r, fifty_two_week_range f = Some r
             /\ ((high r == 0)%Q \/ (low r == 0)%Q))
  /\ (forall r, fifty_two_week_range f = Some r ->
                (high r == 0)%Q \/ (low r == 0)%Q ->
                calculate_valuation_metrics f price = ∅)
  /\ (valuation_body f price <> Raise ->
      forall cap, market_cap f = Some cap -> ~ (cap == 0)%Q ->
      calculate_valuation_metrics f price !! "market_cap_category"
      = Some (PyStr (market_cap_category cap))).
Proof.
  assert (Hiff : valuation_body f price = Raise <->
                 exists r, fifty_two_week_range f = Some r
                           /\ ((high r == 0)%Q \/ (low r == 0)%Q)).
  { rewrite valuation_body_eq. destruct (fifty_two_week_range f) as [r|].
    - rewrite range_metrics_raise. split; [eauto |].
      now intros (r' & [= <-] & H).
    - split; [discriminate | now intros (r & H & _)]. }
  split; [exact Hiff | split].
  - intros r Hr Hzero. unfold calculate_valuation_metrics.
    now rewrite (proj2 Hiff (ex_intro _ r (conj Hr Hzero))).
  - intros Hok cap Hcap Hnz. unfold calculate_valuation_metrics.
    assert (Hbefore : before_range f price !! "market_cap_category"
                      = Some (PyStr (market_cap_category cap))).
    { unfold before_range. rewrite Hcap.
      change (default 0%Q (Some cap)) with cap.
      rewrite (truthy_nonzero cap Hnz). apply lookup_insert_eq. }
    rewrite valuation_body_eq in Hok |- *.
    destruct (fifty_two_week_range f) as [r|]; [| exact Hbefore].
    unfold range_metrics in *. rewrite position_in_range_eq in *.
    cbn [mbind exc_bind] in *.
    destruct (py_div (high r - price) (high r)); [| contradiction].
    cbn [mbind exc_bind] in *.
    destruct (py_div (price - low r) (low r)); [| contradiction].
    cbn [mbind exc_bind]. now rewrite !lookup_insert_ne by discriminate.
Qed.

Lemma valuation_is_lost_on_zero_bound_witness :
  calculate_valuation_metrics
    {| previous_close := None; open := None; bid := None; ask := None;
       days_range := None; volume := None; avg_volume := None;
       market_cap := Some (3000000000000 # 1); beta := None; pe_ratio := None;
       eps := None; dividend_yield := None; target_est := None;
       earnings_date := None; ex_dividend_date := None;
       fifty_two_week_range := Some {| high := 10; low := 0 |}; roe := None |}
    (5 # 1) = ∅.
Proof.
  apply (proj1 (proj2 (valuation_is_lost_on_zero_bound _ _))
           {| high := 10; low := 0 |}); [reflexivity | now right].
Defined.

(** X12. For a range of prices, a low that is not negative and a high
    that is a finite float, and a price between the low and the high
    that differ, the position in percent that the function stores lies
    between 0 and 100. With such bounds neither difference leaves the
    finite floats, and rounding keeps the order of the two differences,
    of the quotient and 1, and of the product and 100. *)
Theorem position_percent_is_bounded
    (price : Q) (r : FiftyTwoWeekRange) (metrics out : gmap string pyval) :
  (0 <= low r)%Q -> is_inf (high r) = false ->
  (low r < high r)%Q -> (low r <= price)%Q -> (price <= high r)%Q ->
  range_metrics price r metrics = Ok out ->
  exists percent,
    out !! "52w_position_percent" = Some (PyFloat percent)
    /\ (0 <= percent)%Q /\ (percent <= 100)%Q.
Proof.
  intros _ _ Hlt Hlow Hhigh. unfold range_metrics. rewrite position_in_range_eq.
  rewrite (proj2 (Qgtb_spec (high r) (low r)) Hlt). cbn [mbind exc_bind].
  destruct (py_div (high r - price) (high r)); [| discriminate].
  cbn [mbind exc_bind].
  destruct (py_div (price - low r) (low r)); [| discriminate].
  cbn [mbind exc_bind]. intros [= <-].
  exists ((price - low r) / (high r - low r) * 100)%Q. split.
  - rewrite !lookup_insert_ne by discriminate. apply lookup_insert_eq.
  - assert (Hden : (0 < high r - low r)%Q) by lra.
    assert (H0 : (0 <= (price - low r) / (high r - low r))%Q).
    { apply Qle_shift_div_l; [exact Hden | lra]. }
    assert (H1 : ((price - low r) / (high r - low r) <= 1)%Q).
    { apply Qle_shift_div_r; [exact Hden | lra]. }
    split; lra.
Qed.

Lemma position_percent_is_bounded_witness :
  range_metrics 125 {| high := 130; low := 120 |} ∅
  = Ok (<["distance_from_52w_low" := PyFloat ((125 - 120) / 120 * 100)]>
        (<["distance_from_52w_high" := PyFloat ((130 - 125) / 130 * 100)]>
         (<["52w_position_percent" :=
              PyFloat ((125 - 120) / (130 - 120) * 100)]>
          (∅ : gmap string pyval))))
  /\ exists percent,
      (<["distance_from_52w_low" := PyFloat ((125 - 120) / 120 * 100)]>
       (<["distance_from_52w_high" := PyFloat ((130 - 125) / 130 * 100)]>
        (<["52w_position_percent" :=
             PyFloat ((125 - 120) / (130 - 120) * 100)]>
         (∅ : gmap string pyval)))) !! "52w_position_percent"
      = Some (PyFloat percent)
      /\ (0 <= percent)%Q /\ (percent <= 100)%Q.
Proof.
  split; [reflexivity |].
  apply (position_percent_is_bounded 125 {| high := 130; low := 120 |} ∅);
    try reflexivity; simpl; lra.
Defined.

(** ** The keyword fallback, again *)

Lemma keyword_count_bound words text_lower :
  0 <= keyword_count words text_lower <= Z.of_nat (length words).
Proof.
  unfold keyword_count. pose proof (List.filter_length_le
    (fun word => contains word text_lower) words). lia.
Qed.

(** X13. The confidence of the fallback lies between 0.5 and 0.8, it is
    0.5 exactly when the label is neutral, the label is one of the three,
    and the estimate of the posts is not negative. *)
Theorem fallback_confidence_is_bounded (text : string) :
  let result := _parse_sentiment_fallback text in
  (5 # 10 <= confidence result)%Q /\ (confidence result <= 8 # 10)%Q
  /\ In (sentiment result) ["positive"; "negative"; "neutral"]
  /\ (sentiment result = "neutral" <-> (confidence result == 5 # 10)%Q)
  /\ 0 <= posts_count result.
Proof.
  intros result. assert (H := fallback_eq text). cbv zeta in H.
  assert (Hs : sentiment result = fst (sentiment result, confidence result))
    by reflexivity.
  assert (Hc : confidence result = snd (sentiment result, confidence result))
    by reflexivity.
  fold result in H. rewrite H in Hs, Hc. clear H.
  assert (Hposts : 0 <= posts_count result).
  { unfold result, _parse_sentiment_fallback.
    destruct (_ >? _); [| destruct (_ >? _)]; simpl;
      apply Z.div_pos; lia. }
  set (p := keyword_count positive_words (lower text)) in *.
  set (n := keyword_count negative_words (lower text)) in *.
  assert (Hbound : forall d : Z, 0 < d ->
             (5 # 10 <= Qmin (8 # 10) ((5 # 10) + inject_Z d * (1 # 10)))%Q
             /\ (Qmin (8 # 10) ((5 # 10) + inject_Z d * (1 # 10)) <= 8 # 10)%Q
             /\ ~ (Qmin (8 # 10) ((5 # 10) + inject_Z d * (1 # 10)) == 5 # 10)%Q).
  { intros d Hd.
    assert (H1 : (1 <= inject_Z d)%Q)
      by (change 1%Q with (inject_Z 1); rewrite <- Zle_Qle; lia).
    destruct (Q.min_spec (8 # 10) ((5 # 10) + inject_Z d * (1 # 10)))
      as [[Hlt E] | [Hle E]]; rewrite E; repeat split; lra. }
  clearbody p n result.
  destruct (Z.gtb_spec p n) as [Hpn | Hpn];
    [| destruct (Z.gtb_spec n p) as [Hnp | Hnp]]; simpl in Hs, Hc;
    rewrite Hs, Hc.
  - destruct (Hbound (p - n) ltac:(lia)) as (H1 & H2 & H3).
    repeat split; auto; try (simpl; tauto); try discriminate;
      try (intros E; now destruct (H3 E)).
  - destruct (Hbound (n - p) ltac:(lia)) as (H1 & H2 & H3).
    repeat split; auto; try (simpl; tauto); try discriminate;
      try (intros E; now destruct (H3 E)).
  - repeat split; auto; try (simpl; tauto); try lra; reflexivity.
Qed.

(** ** The comparison of stocks *)

Lemma insert_by_perm before x l : Permutation (insert_by before x l) (x :: l).
Proof.
  induction l as [|y l IH]; simpl; [reflexivity |].
  destruct (before x.2 y.2); [reflexivity |].
  rewrite IH. apply perm_swap.
Qed.

Lemma sort_by_perm before l : Permutation (sort_by before l) l.
Proof.
  unfold sort_by. induction l as [|x l IH]; simpl; [reflexivity |].
  rewrite insert_by_perm. now constructor.
Qed.

Section Sorting.

(** [before] is a total preorder that tells equal keys apart from
    others: the two orders of the code are. *)
Variable before : Q -> Q -> bool.
Hypothesis before_total : forall x y, before x y = true \/ before y x = true.
Hypothesis before_trans :
  forall x y z, before x y = true -> before y z = true -> before x z = true.
Hypothesis before_eq :
  forall x y k, before x y = false -> Qeq_bool x k = true ->
                Qeq_bool y k = false.

Lemma insert_by_sorted x l :
  StronglySorted (fun a b => before a.2 b.2 = true) l ->
  StronglySorted (fun a b => before a.2 b.2 = true) (insert_by before x l).
Proof.
  induction l as [|y l IH]; intros Hl; simpl.
  - repeat constructor.
  - inversion Hl as [|? ? Hl' Hy]; subst.
    destruct (before x.2 y.2) eqn:Hxy.
    + constructor; [exact Hl |]. constructor; [exact Hxy |].
      rewrite Forall_forall in Hy |- *. intros z Hz.
      apply (before_trans _ y.2); [exact Hxy | now apply Hy].
    + constructor; [now apply IH |].
      assert (Hyx : before y.2 x.2 = true)
        by (destruct (before_total x.2 y.2); congruence).
      rewrite insert_by_perm. now constructor.
Qed.

Lemma sort_by_sorted l :
  StronglySorted (fun a b => before a.2 b.2 = true) (sort_by before l).
Proof.
  unfold sort_by. induction l as [|x l IH]; simpl; [constructor |].
  now apply insert_by_sorted.
Qed.

Lemma insert_by_stable k x l :
  List.filter (fun e => Qeq_bool e.2 k) (insert_by before x l)
  = List.filter (fun e => Qeq_bool e.2 k) (x :: l).
Proof.
  induction l as [|y l IH]; [reflexivity |].
  cbn [insert_by]. destruct (before x.2 y.2) eqn:Hxy; [reflexivity |].
  cbn [List.filter] in *. rewrite IH.
  destruct (Qeq_bool x.2 k) eqn:Hx; [| reflexivity].
  now rewrite (before_eq _ _ _ Hxy Hx).
Qed.

Lemma sort_by_stable k l :
  List.filter (fun e => Qeq_bool e.2 k) (sort_by before l)
  = List.filter (fun e => Qeq_bool e.2 k) l.
Proof.
  unfold sort_by. induction l as [|x l IH]; [reflexivity |].
  cbn [foldr]. rewrite insert_by_stable. cbn [List.filter]. now rewrite IH.
Qed.

Lemma sort_by_ranking l : ranking_of before l (sort_by before l).
Proof.
  split; [apply sort_by_sorted | split; [apply sort_by_perm |]].
  intros k. apply sort_by_stable.
Qed.

End Sorting.

Lemma Qle_bool_false x y : Qle_bool x y = false -> (y < x)%Q.
Proof.
  intros H. apply Qnot_le_lt. intros Hle. apply Qle_bool_iff in Hle. congruence.
Qed.

Lemma Qeq_bool_false x y : Qeq_bool x y = false <-> ~ (x == y)%Q.
Proof.
  split.
  - intros H E. apply Qeq_bool_iff in E. congruence.
  - intros H. destruct (Qeq_bool x y) eqn:E; [| reflexivity].
    now apply Qeq_bool_iff in E.
Qed.

Lemma ascending_ranking l : ranking_of ascending l (sort_by ascending l).
Proof.
  apply sort_by_ranking; unfold ascending.
  - intros x y. destruct (Qle_bool x y) eqn:E; [now left | right].
    apply Qle_bool_iff, Qlt_le_weak. now apply Qle_bool_false.
  - intros x y z Hxy%Qle_bool_iff Hyz%Qle_bool_iff.
    apply Qle_bool_iff. now apply Qle_trans with y.
  - intros x y k Hxy%Qle_bool_false Hx%Qeq_bool_iff.
    apply Qeq_bool_false. lra.
Qed.

Lemma descending_ranking l : ranking_of descending l (sort_by descending l).
Proof.
  apply sort_by_ranking; unfold descending.
  - intros x y. destruct (Qle_bool y x) eqn:E; [now left | right].
    apply Qle_bool_iff, Qlt_le_weak. now apply Qle_bool_false.
  - intros x y z Hxy%Qle_bool_iff Hyz%Qle_bool_iff.
    apply Qle_bool_iff. now apply Qle_trans with y.
  - intros x y k Hxy%Qle_bool_false Hx%Qeq_bool_iff.
    apply Qeq_bool_false. lra.
Qed.

Lemma entries_of_spec field stocks_data t v :
  In (t, v) (entries_of field stocks_data) <->
  exists stock, In stock stocks_data /\ ticker stock = t
                /\ field (fundamentals stock) = Some v /\ ~ (v == 0)%Q.
Proof.
  unfold entries_of. rewrite <- list_elem_of_In, list_elem_of_omap. split.
  - intros (stock & Hin%list_elem_of_In & H).
    destruct (truthy (field (fundamentals stock))) eqn:Ht; [| discriminate].
    apply truthy_some in Ht as (q & Hq & Hnz). rewrite Hq in H.
    injection H as <- <-. now exists stock.
  - intros (stock & Hin & <- & Hv & Hnz). exists stock.
    split; [now apply list_elem_of_In |].
    now rewrite Hv, (truthy_nonzero v Hnz).
Qed.

Lemma if_nonempty_ranked before entries :
  ranking_of before entries (sort_by before entries) ->
  ranked before entries (if_nonempty entries (sort_by before entries)).
Proof.
  intros H. destruct entries as [|e entries]; [reflexivity |].
  split; [discriminate | exact H].
Qed.

(** X14. For two stocks or more, [compare_stocks] returns a comparison.
    It holds a ranking by P/E ratio exactly when some stock has a P/E
    ratio that is known and not zero, and this ranking is these stocks
    by rising ratio: ordered, with the same entries, and with the stocks
    of equal value in the order they came in. The same holds of the
    rankings by dividend yield and by market cap, by falling value. *)
Theorem comparison_rankings_are_sorted (stocks_data : list StockData) :
  (2 <= length stocks_data)%nat ->
  exists c,
    compare_stocks stocks_data = Compared c
    /\ ranked ascending (entries_of pe_ratio stocks_data) (ranked_by_pe c)
    /\ ranked descending (entries_of dividend_yield stocks_data)
         (ranked_by_dividend_yield c)
    /\ ranked descending (entries_of market_cap stocks_data)
         (ranked_by_market_cap c)
    /\ (forall field t v,
           In (t, v) (entries_of field stocks_data) <->
           exists stock, In stock stocks_data /\ ticker stock = t
                         /\ field (fundamentals stock) = Some v
                         /\ ~ (v == 0)%Q).
Proof.
  intros Hlen. unfold compare_stocks.
  destruct (Nat.ltb_spec (length stocks_data) 2) as [Hlt | _]; [lia |].
  eexists. split; [reflexivity |].
  cbn [ranked_by_pe ranked_by_dividend_yield ranked_by_market_cap].
  split; [| split; [| split]].
  - apply if_nonempty_ranked, ascending_ranking.
  - apply if_nonempty_ranked, descending_ranking.
  - apply if_nonempty_ranked, descending_ranking.
  - intros field t v. apply entries_of_spec.
Qed.

Lemma comparison_rankings_are_sorted_witness :
  exists c,
    compare_stocks sample_stocks = Compared c
    /\ ranked_by_pe c = Some [("jpm", 10 # 1); ("MSFT", 30 # 1)]
    /\ ranked ascending (entries_of pe_ratio sample_stocks) (ranked_by_pe c)
    /\ ranked descending (entries_of dividend_yield sample_stocks)
         (ranked_by_dividend_yield c)
    /\ ranked descending (entries_of market_cap sample_stocks)
         (ranked_by_market_cap c).
Proof.
  destruct (comparison_rankings_are_sorted sample_stocks)
    as (c & Hc & Hpe & Hdy & Hcap & _); [simpl; lia |].
  exists c. split; [exact Hc |]. split; [| now repeat split].
  assert (H : compare_stocks sample_stocks
              = Compared
                  {| ranked_by_pe := Some [("jpm", 10 # 1); ("MSFT", 30 # 1)];
                     average_pe := Some ((0 + 10 + 30) / 2)%Q;
                     ranked_by_dividend_yield :=
                       Some [("XYZ", 45 # 10); ("MSFT", 8 # 10)];
                     ranked_by_market_cap :=
                       Some [("MSFT", 3000 # 1); ("jpm", 500 # 1)] |})
    by reflexivity.
  rewrite H in Hc. injection Hc as <-. reflexivity.
Defined.

(** ** The sectors and the portfolio metrics *)

Lemma total_count_insert (m : gmap string Z) k v :
  total_count (<[k := v]> m) = (total_count m - default 0 (m !! k) + v)%Z.
Proof.
  unfold total_count. destruct (m !! k) as [old|] eqn:Hk.
  - rewrite <- (insert_delete_eq m k v).
    rewrite (map_fold_delete_L _ 0 k old m) by (intros; lia || exact Hk).
    rewrite map_fold_insert_L; [cbn; lia | intros; lia |].
    apply lookup_delete_eq.
  - rewrite map_fold_insert_L; [cbn; lia | intros; lia | exact Hk].
Qed.

Lemma sector_of_name t : sector_of t ∈ sector_names.
Proof.
  unfold sector_of, sector_names. repeat destruct (in_list _ _); set_solver.
Qed.

Lemma count_sector_invariant n counts stock :
  sector_invariant n counts ->
  sector_invariant (S n) (count_sector counts stock).
Proof.
  intros (Htotal & Hpos & Hsize). unfold count_sector.
  set (k := sector_of (ticker stock)).
  split; [| split].
  - rewrite total_count_insert, Htotal. lia.
  - intros k' v. destruct (decide (k' = k)) as [-> | Hne].
    + rewrite lookup_insert_eq. intros [= <-]. split; [| apply sector_of_name].
      destruct (counts !! k) as [old|] eqn:Hk; cbn; [| lia].
      apply Hpos in Hk. lia.
    + rewrite lookup_insert_ne by congruence. apply Hpos.
  - rewrite map_size_insert. destruct (counts !! k); cbn; lia.
Qed.

Lemma foldl_count_sector_invariant stocks_data n counts :
  sector_invariant n counts ->
  sector_invariant (n + length stocks_data) (foldl count_sector counts stocks_data).
Proof.
  revert n counts. induction stocks_data as [|s l IH]; intros n counts H.
  - now rewrite Nat.add_0_r.
  - cbn [foldl length]. rewrite <- Nat.add_succ_comm.
    apply IH. now apply count_sector_invariant.
Qed.

Lemma size_sector_names (counts : gmap string Z) :
  (forall k v, counts !! k = Some v -> k ∈ sector_names) ->
  (size counts <= 4)%nat.
Proof.
  intros H.
  assert (Hsub : dom counts ⊆ (list_to_set sector_names : gset string)).
  { intros k [v Hk]%elem_of_dom. apply elem_of_list_to_set. eauto. }
  apply subseteq_size in Hsub. rewrite size_dom in Hsub.
  rewrite size_list_to_set in Hsub; [exact Hsub |].
  apply (bool_decide_unpack _). vm_compute. exact I.
Qed.

Lemma sector_counts_invariant stocks_data :
  sector_invariant (length stocks_data) (foldl count_sector ∅ stocks_data).
Proof.
  apply (foldl_count_sector_invariant stocks_data 0 ∅).
  split; [reflexivity | split; [intros k v; now rewrite lookup_empty | ]].
  now rewrite map_size_empty.
Qed.

(** X15. The sector analysis counts every stock once, in one of four
    sectors: the counts are at least 1 and add up to the number of
    stocks, and there are at most as many sectors as stocks, and at most
    four. *)
Theorem sector_counts_add_up (stocks_data : list StockData) :
  let counts := sectors (_analyze_sector_diversification stocks_data) in
  total_count counts = Z.of_nat (length stocks_data)
  /\ (forall k v, counts !! k = Some v -> (1 <= v)%Z /\ k ∈ sector_names)
  /\ (size counts <= length stocks_data)%nat
  /\ (size counts <= 4)%nat.
Proof.
  cbn [_analyze_sector_diversification sectors].
  destruct (sector_counts_invariant stocks_data) as (Ht & Hk & Hs).
  repeat split; try assumption; try (eapply Hk; eassumption).
  apply size_sector_names. intros k v Hv. eapply Hk, Hv.
Qed.

(** X16. The metrics of a portfolio hold the sector analysis of its
    stocks: the sector counts add up to the number of stocks, and the
    diversification score is above 0, at most 1 and at most 4 over the
    number of stocks. None of the three risk counts is above the number
    of stocks. *)
Theorem portfolio_counts_are_consistent
    (stocks_data : list StockData) (weights : option (list Q))
    (m : PortfolioMetrics) :
  calculate_portfolio_metrics stocks_data weights = Some m ->
  let n := number_of_stocks m in
  let score := diversification_score (sector_diversification m) in
  n = length stocks_data /\ (0 < n)%nat
  /\ total_count (sectors (sector_diversification m)) = Z.of_nat n
  /\ (0 < score)%Q /\ (score <= 1)%Q
  /\ (score <= 4 / inject_Z (Z.of_nat n))%Q
  /\ (high_pe_stocks m <= n)%nat
  /\ (dividend_paying_stocks m <= n)%nat
  /\ (negative_performers m <= n)%nat.
Proof.
  unfold calculate_portfolio_metrics.
  destruct stocks_data as [|s0 rest] eqn:E; [discriminate |].
  rewrite <- E. intros [= <-].
  cbn [number_of_stocks sector_diversification high_pe_stocks
       dividend_paying_stocks negative_performers].
  assert (Hlen : (0 < length stocks_data)%nat) by (rewrite E; simpl; lia).
  destruct (sector_counts_invariant stocks_data) as (Ht & Hk & Hs).
  assert (H4 : (size (foldl count_sector ∅ stocks_data) <= 4)%nat).
  { apply size_sector_names. intros k v Hv. eapply Hk, Hv. }
  assert (Hsize : (0 < size (foldl count_sector ∅ stocks_data))%nat).
  { destruct (size (foldl count_sector ∅ stocks_data)) eqn:E0; [| lia].
    apply map_size_empty_inv in E0. rewrite E0 in Ht.
    unfold total_count in Ht. rewrite map_fold_empty in Ht. lia. }
  assert (Hscore : diversification_score
                     (_analyze_sector_diversification stocks_data)
                   = (inject_Z (Z.of_nat (size (foldl count_sector ∅ stocks_data)))
                      / inject_Z (Z.of_nat (length stocks_data)))%Q)
    by now rewrite E.
  rewrite Hscore. cbn [_analyze_sector_diversification sectors].
  set (counts := foldl count_sector ∅ stocks_data) in *.
  assert (Hn : (0 < inject_Z (Z.of_nat (length stocks_data)))%Q).
  { change 0%Q with (inject_Z 0). rewrite <- Zlt_Qlt. lia. }
  assert (Hs0 : (0 < inject_Z (Z.of_nat (size counts)))%Q).
  { change 0%Q with (inject_Z 0). rewrite <- Zlt_Qlt. lia. }
  assert (Hsn : (inject_Z (Z.of_nat (size counts))
                 <= inject_Z (Z.of_nat (length stocks_data)))%Q).
  { rewrite <- Zle_Qle. lia. }
  assert (Hs4 : (inject_Z (Z.of_nat (size counts)) <= 4)%Q).
  { change 4%Q with (inject_Z 4). rewrite <- Zle_Qle. lia. }
  split; [reflexivity | split; [exact Hlen | split; [exact Ht |]]].
  split; [apply Qlt_shift_div_l; [exact Hn | lra] |].
  split; [apply Qle_shift_div_r; [exact Hn | lra] |].
  split.
  { unfold Qdiv. apply Qmult_le_compat_r; [exact Hs4 |].
    apply Qlt_le_weak, Qinv_lt_0_compat, Hn. }
  repeat split; apply filter_length_le.
Qed.

Lemma portfolio_counts_are_consistent_witness :
  exists m,
    calculate_portfolio_metrics sample_stocks None = Some m
    /\ number_of_stocks m = 3%nat
    /\ total_count (sectors (sector_diversification m)) = 3
    /\ (diversification_score (sector_diversification m) <= 1)%Q
    /\ (negative_performers m <= 3)%nat.
Proof.
  eexists. split; [reflexivity |].
  destruct (portfolio_counts_are_consistent sample_stocks None _ eq_refl)
    as (Hn & _ & Ht & _ & Hs & _ & _ & _ & Hneg).
  rewrite Hn in Ht, Hneg. cbn [sample_stocks length] in *. repeat split; assumption.
Defined.

(** ** The cleaning of the OCR text *)

Lemma word_char_not_space c : word_char c = true -> is_space c = false.
Proof. unfold word_char. destruct (is_space c); [discriminate | reflexivity]. Qed.

Lemma word_char_not_artifact c : word_char c = true -> is_artifact c = false.
Proof.
  unfold word_char. destruct (is_artifact c), (is_space c);
    (discriminate || reflexivity).
Qed.

Lemma blank_artifacts_chars text :
  forall_chars (fun c => negb (is_artifact c)) (blank_artifacts text) = true.
Proof.
  induction text as [|c r IH]; [reflexivity |].
  unfold blank_artifacts in *. cbn [map_chars forall_chars]. rewrite IH.
  destruct (is_artifact c) eqn:Hc; [reflexivity | now rewrite Hc].
Qed.

Lemma push_word_clean (P : string -> Prop) word words :
  (word <> "" -> P word) -> Forall P words -> Forall P (push_word word words).
Proof.
  intros Hw Hws. destruct word; [exact Hws |].
  constructor; [now apply Hw | exact Hws].
Qed.

(** The words of a text without artifacts are not empty and hold
    neither whitespace nor artifacts. *)
Lemma leading_word_chars text :
  forall_chars (fun c => negb (is_artifact c)) text = true ->
  forall_chars word_char (leading_word text).1 = true
  /\ Forall (fun w => w <> "" /\ forall_chars word_char w = true)
       (leading_word text).2.
Proof.
  induction text as [|c r IH]; [now split |].
  cbn [forall_chars leading_word]. intros [Hc Hr]%andb_true_iff.
  destruct (IH Hr) as [Hw Hws]. destruct (leading_word r) as [word words].
  cbn [fst snd] in *. destruct (is_space c) eqn:Hs; cbn [fst snd].
  - split; [reflexivity |]. apply push_word_clean; [| exact Hws]. now split.
  - split; [| exact Hws]. cbn [forall_chars]. rewrite Hw.
    unfold word_char. now rewrite Hs, Hc.
Qed.

Lemma split_whitespace_chars text :
  forall_chars (fun c => negb (is_artifact c)) text = true ->
  Forall (fun w => w <> "" /\ forall_chars word_char w = true)
    (split_whitespace text).
Proof.
  intros H. apply leading_word_chars in H. unfold split_whitespace.
  destruct (leading_word text) as [word words]. cbn [fst snd] in H.
  destruct H as [Hw Hws]. apply push_word_clean; [| exact Hws]. now split.
Qed.

Lemma keep_word_spec word :
  keep_word word = true ->
  (1 < String.length word)%nat \/ In word ["a"; "A"; "i"; "I"].
Proof.
  unfold keep_word. intros [H | H]%orb_true_iff.
  - left. now apply Nat.ltb_lt.
  - destruct word as [|c [|c' r]]; [discriminate | | left; simpl; lia].
    right. revert H. each_char c.
Qed.

Lemma keep_word_clean word :
  (1 < String.length word)%nat \/ In word ["a"; "A"; "i"; "I"] ->
  keep_word word = true.
Proof.
  unfold keep_word. intros [H | H].
  - apply Nat.ltb_lt in H. now rewrite H.
  - apply orb_true_iff. right.
    destruct H as [<- | [<- | [<- | [<- | []]]]]; reflexivity.
Qed.

Lemma cleaned_words_clean text :
  Forall clean_word
    (List.filter keep_word
       (split_whitespace (blank_artifacts (collapse_whitespace false text)))).
Proof.
  pose proof (split_whitespace_chars _
                (blank_artifacts_chars (collapse_whitespace false text))) as H.
  induction H as [|w ws [Hne Hw] Hws IH]; [constructor |].
  cbn [List.filter]. destruct (keep_word w) eqn:Hk; [| exact IH].
  constructor; [| exact IH].
  split; [exact Hne | split; [exact Hw | now apply keep_word_spec]].
Qed.

Lemma join_cons sep word next rest :
  join sep (word :: next :: rest) = word +:+ sep +:+ join sep (next :: rest).
Proof. reflexivity. Qed.

(** A word in front of a text. *)
Lemma collapse_word in_run word rest :
  word <> "" -> forall_chars word_char word = true ->
  collapse_whitespace in_run (word +:+ rest)
  = word +:+ collapse_whitespace false rest.
Proof.
  intros Hne Hw. revert in_run.
  induction word as [|c r IH]; [contradiction |]. intros in_run.
  cbn [forall_chars] in Hw. apply andb_true_iff in Hw as [Hc Hr].
  cbn [String.append collapse_whitespace].
  rewrite (word_char_not_space c Hc). f_equal.
  destruct r as [|c' r']; [reflexivity |]. now apply IH.
Qed.

Lemma collapse_join in_run words :
  Forall clean_word words ->
  words <> [] ->
  collapse_whitespace in_run (join " " words) = join " " words.
Proof.
  intros H. revert in_run.
  induction H as [|w ws (Hne & Hw & _) Hws IH]; [contradiction |].
  intros in_run _. destruct ws as [|next rest].
  - cbn [join]. rewrite <- (append_empty_r w) at 1.
    rewrite collapse_word by assumption. apply append_empty_r.
  - rewrite join_cons, collapse_word by assumption. f_equal.
    change (" " +:+ join " " (next :: rest))
      with (String " " (join " " (next :: rest))).
    cbn [collapse_whitespace].
    change (is_space " ") with true. cbn iota. f_equal.
    now apply IH.
Qed.

Lemma join_chars words :
  Forall clean_word words ->
  forall_chars (fun c => negb (is_artifact c)) (join " " words) = true.
Proof.
  induction 1 as [|w ws (_ & Hw & _) Hws IH]; [reflexivity |].
  assert (Hw' : forall_chars (fun c => negb (is_artifact c)) w = true).
  { apply (forall_chars_impl word_char); [| exact Hw].
    intros c Hc. now rewrite (word_char_not_artifact c Hc). }
  destruct ws as [|next rest]; [exact Hw' |].
  rewrite join_cons, !forall_chars_app, Hw', IH. reflexivity.
Qed.

Lemma blank_artifacts_id text :
  forall_chars (fun c => negb (is_artifact c)) text = true ->
  blank_artifacts text = text.
Proof.
  unfold blank_artifacts. induction text as [|c r IH]; [reflexivity |].
  cbn [forall_chars map_chars]. intros [Hc Hr]%andb_true_iff.
  rewrite (IH Hr). now destruct (is_artifact c).
Qed.

Lemma leading_word_app word rest :
  forall_chars word_char word = true ->
  leading_word (word +:+ rest)
  = (word +:+ (leading_word rest).1, (leading_word rest).2).
Proof.
  induction word as [|c r IH]; intros Hw.
  - change ("" +:+ rest) with rest. now destruct (leading_word rest).
  - cbn [forall_chars] in Hw. apply andb_true_iff in Hw as [Hc Hr].
    cbn [String.append leading_word]. rewrite (IH Hr).
    now rewrite (word_char_not_space c Hc).
Qed.

Lemma split_whitespace_join words :
  Forall clean_word words -> split_whitespace (join " " words) = words.
Proof.
  unfold split_whitespace.
  induction 1 as [|w ws (Hne & Hw & _) Hws IH]; [reflexivity |].
  destruct ws as [|next rest].
  - cbn [join]. rewrite <- (append_empty_r w) at 1.
    rewrite leading_word_app by exact Hw. cbn [leading_word fst snd].
    rewrite append_empty_r. now destruct w.
  - rewrite join_cons, leading_word_app by exact Hw.
    change (" " +:+ join " " (next :: rest))
      with (String " " (join " " (next :: rest))).
    cbn [leading_word].
    destruct (leading_word (join " " (next :: rest))) as [word words'].
    change (is_space " ") with true. cbn iota. cbn [fst snd].
    rewrite append_empty_r, IH. now destruct w.
Qed.

Lemma filter_keep_word words :
  Forall clean_word words -> List.filter keep_word words = words.
Proof.
  induction 1 as [|w ws (_ & _ & Hk) Hws IH]; [reflexivity |].
  cbn [List.filter]. now rewrite (keep_word_clean w Hk), IH.
Qed.

Lemma rstrip_app_nonempty s t :
  rstrip t <> "" -> rstrip (s +:+ t) = s +:+ rstrip t.
Proof.
  intros Ht. induction s as [|c r IH]; [reflexivity |].
  cbn [String.append]. rewrite rstrip_cons, IH.
  destruct (r +:+ rstrip t) eqn:E; [| reflexivity].
  destruct r; [| discriminate]. now destruct Ht.
Qed.

Lemma rstrip_word word :
  forall_chars word_char word = true -> rstrip word = word.
Proof. apply rstrip_plain, word_char_not_space. Qed.

Lemma rstrip_join words :
  Forall clean_word words -> rstrip (join " " words) = join " " words.
Proof.
  induction 1 as [|w ws (Hne & Hw & _) Hws IH]; [reflexivity |].
  destruct ws as [|next rest]; [now apply rstrip_word |].
  rewrite join_cons, <- append_assoc.
  rewrite rstrip_app_nonempty; rewrite IH; [reflexivity |].
  inversion Hws as [|? ? (Hne' & _) _]; subst.
  destruct next; [contradiction |]. destruct rest; discriminate.
Qed.

Lemma strip_join words :
  Forall clean_word words -> strip (join " " words) = join " " words.
Proof.
  intros H. unfold strip.
  assert (Hl : lstrip (join " " words) = join " " words).
  { destruct H as [|w ws (Hne & Hw & _) Hws]; [reflexivity |].
    destruct w as [|c r]; [contradiction |].
    cbn [forall_chars] in Hw. apply andb_true_iff in Hw as [Hc _].
    destruct ws; cbn [join String.append lstrip];
      now rewrite (word_char_not_space c Hc). }
  rewrite Hl. now apply rstrip_join.
Qed.

Lemma clean_ocr_text_join words :
  Forall clean_word words ->
  _clean_ocr_text (join " " words) = join " " words.
Proof.
  intros H. unfold _clean_ocr_text.
  destruct (join " " words) as [|c r] eqn:E; [reflexivity |].
  rewrite <- E.
  assert (Hne : words <> []) by (intros ->; discriminate).
  rewrite (collapse_join false words H Hne).
  rewrite (blank_artifacts_id _ (join_chars words H)).
  rewrite (split_whitespace_join words H), (filter_keep_word words H).
  now apply strip_join.
Qed.

Lemma clean_ocr_text_words text :
  exists words,
    _clean_ocr_text text = join " " words /\ Forall clean_word words.
Proof.
  destruct text as [|c r]; [exists []; now split |].
  eexists. unfold _clean_ocr_text. split; [| apply cleaned_words_clean].
  apply strip_join, cleaned_words_clean.
Qed.

(** X17. The cleaned OCR text is a list of words with one space between
    them and none around them; each word is not empty, holds neither
    whitespace nor a character of the artifact class, and is of one
    character only when it is a or i in either case. *)
Theorem cleaned_text_is_spaced_words (text : string) :
  exists words,
    _clean_ocr_text text = join " " words
    /\ Forall clean_word words
    /\ words = split_whitespace (_clean_ocr_text text)
    /\ strip (_clean_ocr_text text) = _clean_ocr_text text.
Proof.
  destruct (clean_ocr_text_words text) as (words & E & H).
  exists words. rewrite E.
  split; [reflexivity | split; [exact H | split]].
  - symmetry. now apply split_whitespace_join.
  - now apply strip_join.
Qed.

(** X18. Cleaning a cleaned OCR text changes nothing. *)
Theorem clean_ocr_text_idempotent (text : string) :
  _clean_ocr_text (_clean_ocr_text text) = _clean_ocr_text text.
Proof.
  destruct (clean_ocr_text_words text) as (words & E & H).
  rewrite E. now apply clean_ocr_text_join.
Qed.

(** ** The monitoring of stocks *)

Lemma sound_alert_insert alert_thresholds state state' t v alert :
  monitoring_data state' = <[t := v]> (monitoring_data state) ->
  sound_alert alert_thresholds state alert ->
  sound_alert alert_thresholds state' alert.
Proof.
  intros E [(p & Hp) Hlt]. split; [| exact Hlt]. rewrite E.
  destruct (decide (alert_ticker alert = t)) as [-> | Hne].
  - rewrite lookup_insert_eq. eauto.
  - rewrite lookup_insert_ne by congruence. eauto.
Qed.

Lemma monitor_ticker_sound alert_thresholds state run :
  Forall (sound_alert alert_thresholds state) (alerts state) ->
  Forall (sound_alert alert_thresholds
            (monitor_ticker alert_thresholds state run))
    (alerts (monitor_ticker alert_thresholds state run)).
Proof.
  intros H. unfold monitor_ticker. destruct run as [t [stock_data|]];
    cbn [fst snd]; [| exact H].
  match goal with
  | |- Forall (sound_alert _ ?s) _ =>
      assert (Hold : Forall (sound_alert alert_thresholds s) (alerts state))
  end.
  { eapply Forall_impl; [exact H |]. intros a Ha.
    eapply sound_alert_insert; [| exact Ha]. reflexivity. }
  cbn [alerts] in *.
  destruct (Qgtb _ _) eqn:Hgt; [| exact Hold].
  apply Forall_app. split; [exact Hold |]. constructor; [| constructor].
  split; cbn [alert_ticker alert_change_percent monitoring_data].
  - rewrite lookup_insert_eq. eauto.
  - now apply Qgtb_spec.
Qed.

Lemma monitor_ticker_counts alert_thresholds state run n :
  (size (monitoring_data state) <= n)%nat ->
  (length (alerts state) <= n)%nat ->
  (size (monitoring_data (monitor_ticker alert_thresholds state run)) <= S n)%nat
  /\ (length (alerts (monitor_ticker alert_thresholds state run)) <= S n)%nat.
Proof.
  intros Hs Ha. unfold monitor_ticker. destruct run as [t [stock_data|]];
    cbn [fst snd]; [| lia].
  cbn [monitoring_data alerts]. split.
  - rewrite map_size_insert. destruct (_ !! t); cbn; lia.
  - destruct (Qgtb _ _); [rewrite length_app; cbn; lia | lia].
Qed.

Lemma monitor_loop_sound alert_thresholds runs state n :
  Forall (sound_alert alert_thresholds state) (alerts state) ->
  (size (monitoring_data state) <= n)%nat ->
  (length (alerts state) <= n)%nat ->
  let final := foldl (monitor_ticker alert_thresholds) state runs in
  Forall (sound_alert alert_thresholds final) (alerts final)
  /\ (size (monitoring_data final) <= n + length runs)%nat
  /\ (length (alerts final) <= n + length runs)%nat.
Proof.
  revert state n. induction runs as [|run runs IH]; intros state n H Hs Ha.
  - cbn [foldl length]. rewrite Nat.add_0_r. now repeat split.
  - cbn [foldl length]. rewrite <- Nat.add_succ_comm.
    destruct (monitor_ticker_counts alert_thresholds state run n Hs Ha).
    apply IH; [now apply monitor_ticker_sound | assumption | assumption].
Qed.

(** X19. Every alert of the monitoring is about a ticker of the
    monitoring data, whose change in percent is beyond its threshold in
    absolute value; and neither the alerts nor the monitored tickers
    are more than the tickers asked for. *)
Theorem monitor_alerts_are_sound
    (initialize : exc unit) (runs : list (string * exc StockData))
    (alert_thresholds : option (gmap string Q))
    (state : Monitor) (monitored_count alert_count : nat) :
  monitor_stocks initialize runs alert_thresholds
  = Monitored state monitored_count alert_count ->
  Forall (sound_alert alert_thresholds state) (alerts state)
  /\ (monitored_count <= length runs)%nat
  /\ (alert_count <= length runs)%nat.
Proof.
  unfold monitor_stocks. destruct initialize; [| discriminate].
  intros [= <- <- <-].
  destruct (monitor_loop_sound alert_thresholds runs
              {| monitoring_data := ∅; alerts := [] |} 0)
    as (H & Hs & Ha); cbn [alerts monitoring_data length];
    [constructor | now rewrite map_size_empty | lia |].
  now repeat split.
Qed.

Lemma monitor_alerts_are_sound_witness :
  let state :=
    foldl (monitor_ticker None) {| monitoring_data := ∅; alerts := [] |}
      sample_runs in
  Forall (sound_alert None state) (alerts state)
  /\ (size (monitoring_data state) <= 3)%nat
  /\ (length (alerts state) <= 3)%nat.
Proof.
  intros state.
  apply (monitor_alerts_are_sound (Ok tt) sample_runs None state
           (size (monitoring_data state)) (length (alerts state))).
  reflexivity.
Defined.

Lemma monitor_ticker_dom alert_thresholds state run :
  dom (monitoring_data (monitor_ticker alert_thresholds state run))
  = (if extracted run then {[ run.1 ]} else ∅) ∪ dom (monitoring_data state).
Proof.
  unfold monitor_ticker, extracted. destruct run as [t [stock_data|]];
    cbn [fst snd monitoring_data].
  - now rewrite dom_insert_L.
  - now rewrite (left_id_L ∅ (∪)).
Qed.

Lemma monitor_loop_distinct alert_thresholds runs state :
  NoDup runs.*1 ->
  (forall t, t ∈ runs.*1 -> t ∉ dom (monitoring_data state)) ->
  (length (alerts state) <= size (monitoring_data state))%nat ->
  let final := foldl (monitor_ticker alert_thresholds) state runs in
  size (monitoring_data final)
  = (size (monitoring_data state) + length (List.filter extracted runs))%nat
  /\ (length (alerts final) <= size (monitoring_data final))%nat.
Proof.
  revert state. induction runs as [|run runs IH]; intros state Hnd Hfresh Hle.
  - cbn [foldl List.filter length]. split; [lia | exact Hle].
  - rewrite fmap_cons in Hnd, Hfresh. apply NoDup_cons in Hnd as [Hrun Hnd].
    cbn [foldl].
    assert (Hnew : run.1 ∉ dom (monitoring_data state))
      by (apply Hfresh; now left).
    assert (Hsize : size (monitoring_data (monitor_ticker alert_thresholds state run))
                    = (size (monitoring_data state)
                       + (if extracted run then 1 else 0))%nat).
    { rewrite <- !size_dom, monitor_ticker_dom.
      destruct (extracted run).
      - rewrite size_union by now apply disjoint_singleton_l.
        rewrite size_singleton. lia.
      - rewrite (left_id_L ∅ (∪)). lia. }
    destruct (IH (monitor_ticker alert_thresholds state run)) as [E Hfin].
    + exact Hnd.
    + intros t Ht. rewrite monitor_ticker_dom.
      assert (t <> run.1) by (intros ->; contradiction).
      assert (t ∉ dom (monitoring_data state)) by (apply Hfresh; now right).
      destruct (extracted run).
      * rewrite elem_of_union, elem_of_singleton. tauto.
      * now rewrite (left_id_L ∅ (∪)).
    + rewrite Hsize. unfold monitor_ticker, extracted.
      destruct run as [t [stock_data|]]; cbn [fst snd alerts]; [| lia].
      destruct (Qgtb _ _); [rewrite length_app; cbn; lia | lia].
    + split; [| exact Hfin]. rewrite E, Hsize. cbn [List.filter].
      destruct (extracted run); cbn [length]; lia.
Qed.

(** X20. When no ticker is asked for twice, the monitored tickers are
    as many as the extractions that did not raise, and the alerts are
    no more than the monitored tickers. *)
Theorem monitor_counts_of_distinct_tickers
    (initialize : exc unit) (runs : list (string * exc StockData))
    (alert_thresholds : option (gmap string Q))
    (state : Monitor) (monitored_count alert_count : nat) :
  NoDup runs.*1 ->
  monitor_stocks initialize runs alert_thresholds
  = Monitored state monitored_count alert_count ->
  monitored_count = length (List.filter extracted runs)
  /\ (alert_count <= monitored_count)%nat.
Proof.
  intros Hnd. unfold monitor_stocks. destruct initialize; [| discriminate].
  intros [= <- <- <-].
  destruct (monitor_loop_distinct alert_thresholds runs
              {| monitoring_data := ∅; alerts := [] |} Hnd)
    as [E Hle]; cbn [alerts monitoring_data length].
  - intros t _. rewrite dom_empty_L. apply not_elem_of_empty.
  - lia.
  - cbn [monitoring_data] in E. rewrite map_size_empty in E. now split.
Qed.

Lemma monitor_counts_of_distinct_tickers_witness :
  let state :=
    foldl (monitor_ticker None) {| monitoring_data := ∅; alerts := [] |}
      sample_runs in
  size (monitoring_data state) = 2%nat
  /\ (length (alerts state) <= size (monitoring_data state))%nat.
Proof.
  intros state.
  apply (monitor_counts_of_distinct_tickers (Ok tt) sample_runs None state
           (size (monitoring_data state)) (length (alerts state))).
  - apply (bool_decide_unpack _). vm_compute. exact I.
  - reflexivity.
Defined.
